(** * CakeFund Tracker: the birthday window, the contribution summary and the
    contribution state machine of [src/cake-fund-tracker/src/App.jsx].

    The file embeds the pure computations and the event handlers of the
    [App] component as Rocq functions and proves the properties the
    specification states about them.

    Modelling conventions.
    - A JavaScript [Date] is its time value, an integer number of
      milliseconds since the epoch (ECMA-262, 21.4.1); the getters and
      setters the component calls are written out from the abstract
      operations [Day], [YearFromTime], [MakeDay], ... of the standard.
      The local time zone is a fixed offset [tza] (no daylight saving
      transitions), and the bound of 8.64e15 ms on a time value is not
      modelled.
    - A JavaScript object used as a map is an association list of its own
      properties in property order; a spread followed by a computed key
      is [set]. Document ids are never names of [Object.prototype].
    - A JavaScript number that the component computes with (amounts, the
      progress percentage) is an exact rational or one of the special
      values NaN, +Infinity, -Infinity: rounding of binary64 is not
      modelled, the special values are.
    - A handler that writes to the store takes a boolean that says
      whether the write succeeds; after a successful write the snapshots
      in the component state are the store. One client is modelled. *)

From Stdlib Require Import ZArith List Bool String Lia QArith DecimalString.
From Stdlib Require Import Sorting.Sorted Permutation.
Import ListNotations.

(* ================================================================== *)
(** * Dates (ECMA-262, 21.4.1) *)
(* ================================================================== *)

Module JSDate.
Local Open Scope Z_scope.

Definition msPerDay : Z := 86400000.

Definition Day (t : Z) : Z := t / msPerDay.
Definition TimeWithinDay (t : Z) : Z := t mod msPerDay.

Definition DaysInYear (y : Z) : Z :=
  if negb (y mod 4 =? 0) then 365
  else if negb (y mod 100 =? 0) then 366
  else if negb (y mod 400 =? 0) then 365
  else 366.

Definition DayFromYear (y : Z) : Z :=
  365 * (y - 1970) + (y - 1969) / 4 - (y - 1901) / 100 + (y - 1601) / 400.

Definition TimeFromYear (y : Z) : Z := msPerDay * DayFromYear y.

(** The standard defines [YearFromTime t] as the largest [y] with
    [TimeFromYear y <= t]. It is computed here from the mean length of a
    Gregorian year (146097 days in 400 years), corrected by one year at
    most; [YearFromTime_spec] below shows it is that largest [y]. *)
Definition YearFromTime (t : Z) : Z :=
  let d := Day t in
  let y0 := 1970 + (400 * d) / 146097 in
  if d <? DayFromYear y0 then y0 - 1
  else if DayFromYear (y0 + 1) <=? d then y0 + 1
  else y0.

Definition InLeapYear (t : Z) : Z :=
  if DaysInYear (YearFromTime t) =? 365 then 0 else 1.

Definition DayWithinYear (t : Z) : Z := Day t - DayFromYear (YearFromTime t).

Definition MonthFromTime (t : Z) : Z :=
  let d := DayWithinYear t in
  let l := InLeapYear t in
  if d <? 31 then 0
  else if d <? 59 + l then 1
  else if d <? 90 + l then 2
  else if d <? 120 + l then 3
  else if d <? 151 + l then 4
  else if d <? 181 + l then 5
  else if d <? 212 + l then 6
  else if d <? 243 + l then 7
  else if d <? 273 + l then 8
  else if d <? 304 + l then 9
  else if d <? 334 + l then 10
  else 11.

(** Day number within the year of the first day of month [m] (0..11);
    [l] is 1 in a leap year and 0 otherwise. *)
Definition MonthStart (m l : Z) : Z :=
  match m with
  | 0 => 0
  | 1 => 31
  | 2 => 59 + l
  | 3 => 90 + l
  | 4 => 120 + l
  | 5 => 151 + l
  | 6 => 181 + l
  | 7 => 212 + l
  | 8 => 243 + l
  | 9 => 273 + l
  | 10 => 304 + l
  | _ => 334 + l
  end.

Definition DateFromTime (t : Z) : Z :=
  DayWithinYear t - MonthStart (MonthFromTime t) (InLeapYear t) + 1.

(** [MakeDay year month date]: the day number of the first day of the
    month [month mod 12] of the year [year + floor (month / 12)], plus
    [date - 1]. A [date] past the end of the month runs into the next
    months, as the standard has it. *)
Definition MakeDay (year month date : Z) : Z :=
  let ym := year + month / 12 in
  let mn := month mod 12 in
  DayFromYear ym + MonthStart mn (if DaysInYear ym =? 365 then 0 else 1)
  + date - 1.

Definition MakeTime (hour min sec ms : Z) : Z :=
  hour * 3600000 + min * 60000 + sec * 1000 + ms.

Definition MakeDate (day time : Z) : Z := day * msPerDay + time.

Section LocalZone.
(** Offset of local time from UTC, in milliseconds. *)
Variable tza : Z.

Definition LocalTime (t : Z) : Z := t + tza.
Definition UTC (t : Z) : Z := t - tza.

(** [Date.prototype.getFullYear], [getDate]. *)
Definition getFullYear (tv : Z) : Z := YearFromTime (LocalTime tv).
Definition getDate (tv : Z) : Z := DateFromTime (LocalTime tv).

(** [d.setHours(0, 0, 0, 0)]. *)
Definition setHours0 (tv : Z) : Z :=
  let t := LocalTime tv in
  UTC (MakeDate (Day t) (MakeTime 0 0 0 0)).

(** [d.setDate(dt)]. *)
Definition setDate (tv dt : Z) : Z :=
  let t := LocalTime tv in
  UTC (MakeDate (MakeDay (YearFromTime t) (MonthFromTime t) dt)
                (TimeWithinDay t)).

(** [d.setFullYear(y)]. *)
Definition setFullYear (tv y : Z) : Z :=
  let t := LocalTime tv in
  UTC (MakeDate (MakeDay y (MonthFromTime t) (DateFromTime t))
                (TimeWithinDay t)).
End LocalZone.

(** ** Facts about the calendar *)

Ltac zdiv := Z.div_mod_to_equations; lia.

Lemma DaysInYear_cases y : DaysInYear y = 365 \/ DaysInYear y = 366.
Proof.
  unfold DaysInYear.
  destruct (y mod 4 =? 0), (y mod 100 =? 0), (y mod 400 =? 0); simpl; auto.
Qed.

Lemma DayFromYear_succ y : DayFromYear (y + 1) = DayFromYear y + DaysInYear y.
Proof.
  assert (A4 : (y + 1 - 1969) / 4
               = (y - 1969) / 4 + (if y mod 4 =? 0 then 1 else 0))
    by (destruct (Z.eqb_spec (y mod 4) 0); zdiv).
  assert (A100 : (y + 1 - 1901) / 100
                 = (y - 1901) / 100 + (if y mod 100 =? 0 then 1 else 0))
    by (destruct (Z.eqb_spec (y mod 100) 0); zdiv).
  assert (A400 : (y + 1 - 1601) / 400
                 = (y - 1601) / 400 + (if y mod 400 =? 0 then 1 else 0))
    by (destruct (Z.eqb_spec (y mod 400) 0); zdiv).
  assert (D100 : y mod 100 = 0 -> y mod 4 = 0) by (intros; zdiv).
  assert (D400 : y mod 400 = 0 -> y mod 100 = 0) by (intros; zdiv).
  unfold DayFromYear, DaysInYear. rewrite A4, A100, A400.
  destruct (Z.eqb_spec (y mod 4) 0), (Z.eqb_spec (y mod 100) 0),
    (Z.eqb_spec (y mod 400) 0); cbn [negb]; try lia; exfalso; tauto.
Qed.

Lemma DayFromYear_mono y y' : y <= y' -> DayFromYear y <= DayFromYear y'.
Proof. unfold DayFromYear. intros. zdiv. Qed.

Lemma DayFromYear_mean y :
  -506 <= 400 * DayFromYear y - 146097 * (y - 1970) <= 589.
Proof. unfold DayFromYear. zdiv. Qed.

(** [YearFromTime] brackets the day: the year found is the one whose first
    day is at or before [Day t] and whose successor starts after it. *)
Lemma YearFromTime_bracket t :
  DayFromYear (YearFromTime t) <= Day t < DayFromYear (YearFromTime t + 1).
Proof.
  unfold YearFromTime.
  set (d := Day t). set (y0 := 1970 + 400 * d / 146097).
  assert (E : 146097 * (y0 - 1970) <= 400 * d < 146097 * (y0 - 1970) + 146097)
    by (unfold y0; zdiv).
  pose proof (DayFromYear_mean (y0 - 1)).
  pose proof (DayFromYear_mean (y0 + 1 + 1)).
  destruct (Z.ltb_spec d (DayFromYear y0)).
  - replace (y0 - 1 + 1) with y0 by lia. lia.
  - destruct (Z.leb_spec (DayFromYear (y0 + 1)) d); lia.
Qed.

(** The characterisation of the standard: the largest such year. *)
Lemma YearFromTime_spec t y :
  TimeFromYear y <= t <-> y <= YearFromTime t.
Proof.
  pose proof (YearFromTime_bracket t) as [Hlo Hhi].
  unfold TimeFromYear, Day, msPerDay in *.
  split; intro H.
  - destruct (Z_le_gt_dec y (YearFromTime t)) as [|G]; [assumption|].
    assert (DayFromYear (YearFromTime t + 1) <= DayFromYear y)
      by (apply DayFromYear_mono; lia).
    exfalso. zdiv.
  - assert (DayFromYear y <= DayFromYear (YearFromTime t))
      by (apply DayFromYear_mono; lia).
    zdiv.
Qed.

Lemma DayWithinYear_range t :
  0 <= DayWithinYear t < 365 + InLeapYear t.
Proof.
  unfold DayWithinYear, InLeapYear.
  pose proof (YearFromTime_bracket t) as [Hlo Hhi].
  rewrite DayFromYear_succ in Hhi.
  destruct (DaysInYear_cases (YearFromTime t)) as [E|E]; rewrite E in *;
    simpl; lia.
Qed.

Lemma InLeapYear_cases t : InLeapYear t = 0 \/ InLeapYear t = 1.
Proof. unfold InLeapYear. destruct (_ =? _); auto. Qed.

Lemma MonthFromTime_range t : 0 <= MonthFromTime t <= 11.
Proof.
  unfold MonthFromTime.
  repeat match goal with |- context [if ?c then _ else _] => destruct c end;
    lia.
Qed.

Lemma DateFromTime_range t : 1 <= DateFromTime t <= 31.
Proof.
  unfold DateFromTime, MonthFromTime.
  pose proof (DayWithinYear_range t).
  destruct (InLeapYear_cases t) as [E|E]; rewrite E in *;
  repeat match goal with
         | |- context [if ?a <? ?b then _ else _] => destruct (Z.ltb_spec a b)
         end; simpl; lia.
Qed.

(** Rebuilding a day from its own year, month and date gives it back. *)
Lemma MakeDay_fields t :
  MakeDay (YearFromTime t) (MonthFromTime t) (DateFromTime t) = Day t.
Proof.
  unfold MakeDay.
  pose proof (MonthFromTime_range t) as Hm.
  replace (MonthFromTime t / 12) with 0 by zdiv.
  replace (MonthFromTime t mod 12) with (MonthFromTime t) by zdiv.
  rewrite Z.add_0_r. fold (InLeapYear t).
  unfold DateFromTime, DayWithinYear. lia.
Qed.

Lemma MonthStart_range m l d :
  0 <= m <= 11 -> 0 <= l <= 1 -> 1 <= d <= 31 ->
  0 <= MonthStart m l + d - 1 < 365 + l.
Proof.
  intros Hm Hl Hd.
  assert (m = 0 \/ m = 1 \/ m = 2 \/ m = 3 \/ m = 4 \/ m = 5 \/ m = 6 \/
          m = 7 \/ m = 8 \/ m = 9 \/ m = 10 \/ m = 11) as C by lia.
  repeat (destruct C as [->|C]); [..|subst m]; unfold MonthStart; lia.
Qed.

(** A month 0..11 and a date 1..31 of year [y] name a day of year [y]:
    the overflow of a short month stays within the year. *)
Lemma MakeDay_in_year y m d :
  0 <= m <= 11 -> 1 <= d <= 31 ->
  DayFromYear y <= MakeDay y m d < DayFromYear (y + 1).
Proof.
  intros Hm Hd. unfold MakeDay.
  replace (m / 12) with 0 by zdiv.
  replace (m mod 12) with m by zdiv.
  rewrite Z.add_0_r, DayFromYear_succ.
  destruct (DaysInYear_cases y) as [E|E]; rewrite E; cbn [Z.eqb Pos.eqb].
  - pose proof (MonthStart_range m 0 d Hm ltac:(lia) Hd). lia.
  - pose proof (MonthStart_range m 1 d Hm ltac:(lia) Hd). lia.
Qed.

Lemma Day_MakeDate day time :
  0 <= time < msPerDay -> Day (MakeDate day time) = day.
Proof. unfold Day, MakeDate, msPerDay. intros. zdiv. Qed.

Lemma TimeWithinDay_MakeDate day time :
  0 <= time < msPerDay -> TimeWithinDay (MakeDate day time) = time.
Proof. unfold TimeWithinDay, MakeDate, msPerDay. intros. zdiv. Qed.

Lemma TimeWithinDay_range t : 0 <= TimeWithinDay t < msPerDay.
Proof. unfold TimeWithinDay, msPerDay. zdiv. Qed.

Lemma MakeDate_Day t : MakeDate (Day t) (TimeWithinDay t) = t.
Proof. unfold MakeDate, Day, TimeWithinDay, msPerDay. zdiv. Qed.

End JSDate.

(* ================================================================== *)
(** * JavaScript arrays: [filter(Boolean)] and [sort] *)
(* ================================================================== *)

Module JSArray.
Local Open Scope Z_scope.

(** [xs.filter(Boolean)] on an array of objects and [null]s. *)
Fixpoint filterBoolean {A : Type} (xs : list (option A)) : list A :=
  match xs with
  | [] => []
  | None :: xs' => filterBoolean xs'
  | Some x :: xs' => x :: filterBoolean xs'
  end.

(** [xs.sort(compare)] for a consistent numeric comparator: the sort is
    stable (ECMA-262, 23.1.3.30), so the result is the one of a stable
    insertion sort. *)
Fixpoint insert {A : Type} (compare : A -> A -> Z) (x : A) (xs : list A)
  : list A :=
  match xs with
  | [] => [x]
  | y :: xs' =>
      if compare x y <=? 0 then x :: xs else y :: insert compare x xs'
  end.

Definition sort {A : Type} (compare : A -> A -> Z) (xs : list A) : list A :=
  fold_right (insert compare) [] xs.

Lemma In_filterBoolean {A : Type} (xs : list (option A)) (x : A) :
  In x (filterBoolean xs) <-> In (Some x) xs.
Proof.
  induction xs as [|[y|] xs IH]; simpl.
  - tauto.
  - rewrite IH. split; intros [H|H]; auto; left; congruence.
  - rewrite IH. split; [auto|]. intros [H|H]; [discriminate|assumption].
Qed.

Lemma insert_perm {A : Type} (compare : A -> A -> Z) x xs :
  Permutation (insert compare x xs) (x :: xs).
Proof.
  induction xs as [|y xs IH]; simpl.
  - apply Permutation_refl.
  - destruct (compare x y <=? 0).
    + apply Permutation_refl.
    + eapply perm_trans; [apply perm_skip, IH | apply perm_swap].
Qed.

Lemma sort_perm {A : Type} (compare : A -> A -> Z) xs :
  Permutation (sort compare xs) xs.
Proof.
  induction xs as [|x xs IH]; simpl.
  - apply perm_nil.
  - eapply perm_trans; [apply insert_perm | apply perm_skip, IH].
Qed.

Section ByKey.
Context {A : Type} (key : A -> Z).

Let compare (a b : A) : Z := key a - key b.
Let le (a b : A) : Prop := key a <= key b.

Lemma insert_sorted x xs :
  StronglySorted le xs -> StronglySorted le (insert compare x xs).
Proof.
  induction 1 as [|y xs Hs IH Hall]; simpl.
  - repeat constructor.
  - unfold compare at 1. destruct (Z.leb_spec (key x - key y) 0).
    + constructor; [constructor; assumption|].
      constructor; [unfold le; lia|].
      eapply Forall_impl; [|exact Hall]. unfold le. intros; lia.
    + constructor; [assumption|].
      eapply Permutation_Forall;
        [apply Permutation_sym, insert_perm|].
      constructor; [unfold le; lia | assumption].
Qed.

Lemma sort_sorted xs : StronglySorted le (sort compare xs).
Proof.
  induction xs as [|x xs IH]; simpl.
  - constructor.
  - apply insert_sorted, IH.
Qed.
End ByKey.

End JSArray.

(* ================================================================== *)
(** * Upcoming birthdays ([upcomingBirthdays], App.jsx 171-190) *)
(* ================================================================== *)

Module Birthdays.
Import JSDate JSArray.
Local Open Scope Z_scope.

(** A coworker document as the snapshot listener stores it in the
    component state: [birthday] is a [Date] or [null]. *)
Record Coworker := mkCoworker {
  id : string;
  name : string;
  birthday : option Z
}.

(** An element of the result: the coworker spread, plus [nextBirthday]. *)
Record Upcoming := mkUpcoming {
  coworker : Coworker;
  nextBirthday : Z
}.

Section Window.
Variable tza : Z.
(** The value of [new Date()] when the memo is computed. *)
Variable now : Z.

Definition today : Z := setHours0 tza now.

Definition next30Days : Z := setDate tza today (getDate tza today + 30).

(** The candidate, [new Date(cw.birthday)] after
    [setFullYear(today.getFullYear())]. *)
Definition candidate (b : Z) : Z := setFullYear tza b (getFullYear tza today).

(** The date the [map] callback stores in [nextBirthday]: the second
    [setFullYear] acts on the candidate, as the first one left it. *)
Definition resolveNextBirthday (b : Z) : Z :=
  let birthday := candidate b in
  if birthday <? today
  then setFullYear tza birthday (getFullYear tza today + 1)
  else birthday.

Definition withNextBirthday (cw : Coworker) : option Upcoming :=
  match birthday cw with
  | None => None
  | Some b => Some (mkUpcoming cw (resolveNextBirthday b))
  end.

Definition inWindow (u : Upcoming) : bool :=
  (today <=? nextBirthday u) && (nextBirthday u <=? next30Days).

Definition byNextBirthday (a b : Upcoming) : Z :=
  nextBirthday a - nextBirthday b.

Definition upcomingBirthdays (coworkers : list Coworker) : list Upcoming :=
  sort byNextBirthday
    (filter inWindow (filterBoolean (map withNextBirthday coworkers))).
End Window.

(** ** Dates for the worked examples *)

(** [new Date("YYYY-MM-DD")], the form [handleSaveCoworker] stores:
    midnight UTC of that day (months from 1). *)
Definition isoDate (y m d : Z) : Z := MakeDate (MakeDay y (m - 1) d) 0.

(** The instant of a local date and hour in the zone [tza]. *)
Definition localInstant (tza y m d h : Z) : Z :=
  UTC tza (MakeDate (MakeDay y (m - 1) d) (MakeTime h 0 0 0)).

(** UTC+8, no daylight saving time. *)
Definition manila : Z := 8 * 3600000.

(** ** Local fields of the dates the memo builds *)

Lemma LocalTime_UTC tza t : LocalTime tza (UTC tza t) = t.
Proof. unfold LocalTime, UTC. lia. Qed.

Lemma msPerDay_pos : 0 <= 0 < msPerDay.
Proof. unfold msPerDay. lia. Qed.

Lemma today_local tza now :
  LocalTime tza (today tza now) = MakeDate (Day (LocalTime tza now)) 0.
Proof. unfold today, setHours0. rewrite LocalTime_UTC. reflexivity. Qed.

Lemma today_Day tza now :
  Day (LocalTime tza (today tza now)) = Day (LocalTime tza now).
Proof. rewrite today_local. apply Day_MakeDate, msPerDay_pos. Qed.

Lemma today_midnight tza now :
  TimeWithinDay (LocalTime tza (today tza now)) = 0.
Proof. rewrite today_local. apply TimeWithinDay_MakeDate, msPerDay_pos. Qed.

Lemma setFullYear_Day tza tv y :
  Day (LocalTime tza (setFullYear tza tv y))
  = MakeDay y (MonthFromTime (LocalTime tza tv))
              (DateFromTime (LocalTime tza tv)).
Proof.
  unfold setFullYear. rewrite LocalTime_UTC.
  apply Day_MakeDate, TimeWithinDay_range.
Qed.

Lemma setFullYear_time tza tv y :
  TimeWithinDay (LocalTime tza (setFullYear tza tv y))
  = TimeWithinDay (LocalTime tza tv).
Proof.
  unfold setFullYear. rewrite LocalTime_UTC.
  apply TimeWithinDay_MakeDate, TimeWithinDay_range.
Qed.

Lemma YearFromTime_unique t y :
  DayFromYear y <= Day t < DayFromYear (y + 1) -> YearFromTime t = y.
Proof.
  intros [Hlo Hhi].
  pose proof (YearFromTime_bracket t) as [Blo Bhi].
  destruct (Z.lt_trichotomy (YearFromTime t) y) as [L|[E|G]];
    [exfalso|assumption|exfalso].
  - assert (DayFromYear (YearFromTime t + 1) <= DayFromYear y)
      by (apply DayFromYear_mono; lia).
    lia.
  - assert (DayFromYear (y + 1) <= DayFromYear (YearFromTime t))
      by (apply DayFromYear_mono; lia).
    lia.
Qed.

Lemma setFullYear_in_year tza tv y :
  DayFromYear y <= Day (LocalTime tza (setFullYear tza tv y))
  < DayFromYear (y + 1).
Proof.
  rewrite setFullYear_Day.
  apply MakeDay_in_year; [apply MonthFromTime_range|apply DateFromTime_range].
Qed.

Lemma setFullYear_year tza tv y : getFullYear tza (setFullYear tza tv y) = y.
Proof. apply YearFromTime_unique, setFullYear_in_year. Qed.

(** Instants compare as their day and time of day compare. *)
Lemma instant_split tza tv :
  tv = Day (LocalTime tza tv) * msPerDay + TimeWithinDay (LocalTime tza tv)
       - tza.
Proof.
  pose proof (MakeDate_Day (LocalTime tza tv)) as H.
  unfold MakeDate, LocalTime in *. lia.
Qed.

Lemma today_split tza now :
  today tza now = Day (LocalTime tza now) * msPerDay - tza.
Proof.
  rewrite (instant_split tza (today tza now)), today_Day, today_midnight. lia.
Qed.

Lemma next30Days_eq tza now :
  next30Days tza now = today tza now + 30 * msPerDay.
Proof.
  unfold next30Days, setDate, getDate.
  set (t := LocalTime tza (today tza now)).
  assert (E : MakeDay (YearFromTime t) (MonthFromTime t) (DateFromTime t + 30)
              = Day t + 30)
    by (rewrite <- (MakeDay_fields t); unfold MakeDay; lia).
  rewrite E.
  pose proof (MakeDate_Day t) as H.
  unfold UTC, MakeDate in *. fold t in H. unfold t, LocalTime in *. lia.
Qed.

Lemma next30Days_midnight tza now :
  TimeWithinDay (LocalTime tza (next30Days tza now)) = 0.
Proof.
  rewrite next30Days_eq, today_split.
  unfold TimeWithinDay, LocalTime, msPerDay. zdiv.
Qed.

Lemma resolveNextBirthday_time tza now b :
  TimeWithinDay (LocalTime tza (resolveNextBirthday tza now b))
  = TimeWithinDay (LocalTime tza b).
Proof.
  unfold resolveNextBirthday, candidate.
  destruct (_ <? _); repeat rewrite setFullYear_time; reflexivity.
Qed.

Lemma resolveNextBirthday_ge tza now b :
  today tza now <= resolveNextBirthday tza now b.
Proof.
  unfold resolveNextBirthday.
  destruct (Z.ltb_spec (candidate tza now b) (today tza now)) as [L|G];
    [|assumption].
  set (r := setFullYear tza (candidate tza now b)
                        (getFullYear tza (today tza now) + 1)).
  pose proof (setFullYear_in_year tza (candidate tza now b)
                (getFullYear tza (today tza now) + 1)) as [Hlo _].
  fold r in Hlo.
  pose proof (YearFromTime_bracket (LocalTime tza (today tza now))) as [_ Hhi].
  fold (getFullYear tza (today tza now)) in Hhi.
  rewrite today_Day in Hhi.
  pose proof (TimeWithinDay_range (LocalTime tza r)).
  rewrite (instant_split tza r), today_split.
  unfold msPerDay in *. nia.
Qed.

Lemma inWindow_iff tza now u :
  inWindow tza now u = true
  <-> today tza now <= nextBirthday u <= today tza now + 30 * msPerDay.
Proof.
  unfold inWindow. rewrite andb_true_iff, !Z.leb_le, next30Days_eq. tauto.
Qed.

Lemma In_upcomingBirthdays tza now coworkers u :
  In u (upcomingBirthdays tza now coworkers)
  <-> In (Some u) (map (withNextBirthday tza now) coworkers)
      /\ inWindow tza now u = true.
Proof.
  unfold upcomingBirthdays.
  rewrite <- In_filterBoolean, <- filter_In.
  split; apply Permutation_in;
    [apply sort_perm | apply Permutation_sym, sort_perm].
Qed.

Lemma In_withNextBirthday tza now coworkers u :
  In (Some u) (map (withNextBirthday tza now) coworkers)
  <-> In (coworker u) coworkers
      /\ exists b, birthday (coworker u) = Some b
                   /\ nextBirthday u = resolveNextBirthday tza now b.
Proof.
  rewrite in_map_iff. unfold withNextBirthday. split.
  - intros (cw & E & Hin). destruct (birthday cw) as [b|] eqn:Hb;
      [|discriminate].
    injection E as <-. simpl. eauto.
  - intros (Hin & b & Hb & Hn). exists (coworker u). split; [|assumption].
    rewrite Hb, <- Hn. destruct u; reflexivity.
Qed.

(** ** The specification's claims about the window *)

(** C3. The resolved next birthday is never before today (midnight). The
    candidate is the stored month and date put in today's year, with the
    stored time of day, and lies in today's year; the year is advanced by
    one exactly when the candidate is strictly before today, which covers
    the wrap from December into January; a birthday whose month and date
    are today's resolves to today's calendar day. *)
Theorem resolveNextBirthday_on_or_after_today tza now b :
  today tza now <= resolveNextBirthday tza now b
  /\ Day (LocalTime tza (candidate tza now b))
     = MakeDay (getFullYear tza (today tza now))
               (MonthFromTime (LocalTime tza b))
               (DateFromTime (LocalTime tza b))
  /\ getFullYear tza (candidate tza now b) = getFullYear tza (today tza now)
  /\ (candidate tza now b < today tza now ->
      resolveNextBirthday tza now b
      = setFullYear tza (candidate tza now b)
                    (getFullYear tza (today tza now) + 1)
      /\ getFullYear tza (resolveNextBirthday tza now b)
         = getFullYear tza (today tza now) + 1)
  /\ (today tza now <= candidate tza now b ->
      resolveNextBirthday tza now b = candidate tza now b)
  /\ (MonthFromTime (LocalTime tza b)
      = MonthFromTime (LocalTime tza (today tza now)) ->
      DateFromTime (LocalTime tza b)
      = DateFromTime (LocalTime tza (today tza now)) ->
      Day (LocalTime tza (resolveNextBirthday tza now b))
      = Day (LocalTime tza (today tza now))).
Proof.
  split; [apply resolveNextBirthday_ge|].
  split; [apply setFullYear_Day|].
  split; [apply setFullYear_year|].
  split; [|split].
  - intros L. unfold resolveNextBirthday.
    destruct (Z.ltb_spec (candidate tza now b) (today tza now)); [|lia].
    split; [reflexivity | apply setFullYear_year].
  - intros G. unfold resolveNextBirthday.
    destruct (Z.ltb_spec (candidate tza now b) (today tza now)); [lia|].
    reflexivity.
  - intros Hm Hd.
    assert (Ec : Day (LocalTime tza (candidate tza now b))
                 = Day (LocalTime tza (today tza now))).
    { unfold candidate. rewrite setFullYear_Day, Hm, Hd.
      apply MakeDay_fields. }
    assert (G : today tza now <= candidate tza now b).
    { pose proof (TimeWithinDay_range (LocalTime tza (candidate tza now b))).
      rewrite (instant_split tza (candidate tza now b)), Ec.
      rewrite (instant_split tza (today tza now)) at 1.
      rewrite today_midnight. lia. }
    unfold resolveNextBirthday.
    destruct (Z.ltb_spec (candidate tza now b) (today tza now)); [lia|].
    exact Ec.
Qed.

(** C4. The result holds exactly the coworkers with a stored birthday
    whose resolved next birthday lies in the closed interval from today
    to today plus 30 days, once for each time they are listed, and it is
    sorted by ascending resolved date. *)
Theorem upcomingBirthdays_window_sorted tza now coworkers :
  (forall u,
      In u (upcomingBirthdays tza now coworkers)
      <-> In (coworker u) coworkers
          /\ (exists b, birthday (coworker u) = Some b
                        /\ nextBirthday u = resolveNextBirthday tza now b)
          /\ today tza now <= nextBirthday u
             <= today tza now + 30 * msPerDay)
  /\ StronglySorted (fun u v => nextBirthday u <= nextBirthday v)
                    (upcomingBirthdays tza now coworkers)
  /\ Permutation (upcomingBirthdays tza now coworkers)
                 (filter (inWindow tza now)
                    (filterBoolean (map (withNextBirthday tza now) coworkers)))
  /\ next30Days tza now = today tza now + 30 * msPerDay.
Proof.
  split; [|split; [|split]].
  - intros u.
    rewrite In_upcomingBirthdays, In_withNextBirthday, inWindow_iff. tauto.
  - apply (sort_sorted nextBirthday).
  - apply sort_perm.
  - apply next30Days_eq.
Qed.

(** C10. The resolved date keeps the stored time of day, the two bounds
    of the window are midnights, and so a coworker whose resolved date
    falls on the thirtieth day after today is listed exactly when the
    stored time of day is midnight. *)
Theorem window_last_day_needs_midnight tza now b :
  TimeWithinDay (LocalTime tza (resolveNextBirthday tza now b))
  = TimeWithinDay (LocalTime tza b)
  /\ TimeWithinDay (LocalTime tza (today tza now)) = 0
  /\ TimeWithinDay (LocalTime tza (next30Days tza now)) = 0
  /\ (Day (LocalTime tza (resolveNextBirthday tza now b))
      = Day (LocalTime tza (today tza now)) + 30 ->
      forall coworkers cw,
        In cw coworkers -> birthday cw = Some b ->
        (In (mkUpcoming cw (resolveNextBirthday tza now b))
            (upcomingBirthdays tza now coworkers)
         <-> TimeWithinDay (LocalTime tza b) = 0)).
Proof.
  split; [apply resolveNextBirthday_time|].
  split; [apply today_midnight|].
  split; [apply next30Days_midnight|].
  intros Hday coworkers cw Hin Hb.
  rewrite In_upcomingBirthdays, In_withNextBirthday, inWindow_iff. simpl.
  set (r := resolveNextBirthday tza now b) in *.
  pose proof (resolveNextBirthday_time tza now b) as Ht. fold r in Ht.
  pose proof (TimeWithinDay_range (LocalTime tza b)) as Hr.
  pose proof (instant_split tza r) as Er. rewrite Hday, Ht in Er.
  pose proof (instant_split tza (today tza now)) as Et.
  rewrite today_midnight in Et.
  unfold msPerDay in *.
  split.
  - intros (_ & _ & Hw). lia.
  - intros Z0. split; [split; [assumption|eauto]|]. lia.
Qed.

(** ** Worked examples *)

(** The scenarios of the specification, for a client at UTC: on June 1 a
    birthday of June 15 is listed for June 15 of the year; on December 20
    a birthday of December 25 is listed for the year and one of January 2
    for the next year, in that order; a coworker without a birthday is
    not listed. *)
Example window_scenarios :
  upcomingBirthdays 0 (localInstant 0 2025 6 1 10)
    [mkCoworker "a" "A" (Some (isoDate 1990 6 15));
     mkCoworker "n" "N" None]
  = [mkUpcoming (mkCoworker "a" "A" (Some (isoDate 1990 6 15)))
                (isoDate 2025 6 15)]
  /\ upcomingBirthdays 0 (localInstant 0 2025 12 20 10)
       [mkCoworker "c" "C" (Some (isoDate 1985 1 2));
        mkCoworker "b" "B" (Some (isoDate 1992 12 25))]
     = [mkUpcoming (mkCoworker "b" "B" (Some (isoDate 1992 12 25)))
                   (isoDate 2025 12 25);
        mkUpcoming (mkCoworker "c" "C" (Some (isoDate 1985 1 2)))
                   (isoDate 2026 1 2)].
Proof. split; vm_compute; reflexivity. Qed.

(** On June 1 a birthday of July 1, the thirtieth day: listed for a
    client at UTC, where the stored instant is a local midnight, and not
    listed for a client at UTC+8, where it is 8 o'clock. *)
Example last_day_scenario :
  upcomingBirthdays 0 (localInstant 0 2025 6 1 10)
    [mkCoworker "j" "J" (Some (isoDate 1990 7 1))]
  = [mkUpcoming (mkCoworker "j" "J" (Some (isoDate 1990 7 1)))
                (isoDate 2025 7 1)]
  /\ upcomingBirthdays manila (localInstant manila 2025 6 1 10)
       [mkCoworker "j" "J" (Some (isoDate 1990 7 1))]
     = []
  /\ TimeWithinDay (LocalTime manila (isoDate 1990 7 1)) = 8 * 3600000.
Proof. repeat split; vm_compute; reflexivity. Qed.

(** A birthday of February 29 on December 1 of 2023: the candidate in
    2023 is March 1, and the year after it stays March 1, though 2024 is
    a leap year. *)
Example leap_day_scenario :
  candidate 0 (localInstant 0 2023 12 1 10) (isoDate 2000 2 29)
  = isoDate 2023 3 1
  /\ resolveNextBirthday 0 (localInstant 0 2023 12 1 10) (isoDate 2000 2 29)
     = isoDate 2024 3 1.
Proof. split; vm_compute; reflexivity. Qed.

End Birthdays.

(* ================================================================== *)
(** * JavaScript numbers *)
(* ================================================================== *)

Module JSNumber.
Local Open Scope Q_scope.

(** A number is NaN, an infinity or a finite value; the finite values are
    exact rationals (no rounding, one zero). *)
Inductive number : Type :=
| NaN
| PosInf
| NegInf
| Fin (q : Q).

Definition zero : number := Fin 0.

Definition isNaN (x : number) : bool :=
  match x with NaN => true | _ => false end.

Definition isFinite (x : number) : bool :=
  match x with Fin _ => true | _ => false end.

Definition Qpositive (q : Q) : bool := negb (Qle_bool q 0).
Definition Qnegative (q : Q) : bool := negb (Qle_bool 0 q).
Definition Qzero (q : Q) : bool := Qeq_bool q 0.

(** [x > y]; a comparison with NaN is false. *)
Definition gt (x y : number) : bool :=
  match x, y with
  | NaN, _ | _, NaN => false
  | PosInf, PosInf => false
  | PosInf, _ => true
  | NegInf, _ => false
  | Fin _, PosInf => false
  | Fin _, NegInf => true
  | Fin a, Fin b => negb (Qle_bool a b)
  end.

(** [x + y]. *)
Definition add (x y : number) : number :=
  match x, y with
  | NaN, _ | _, NaN => NaN
  | PosInf, NegInf | NegInf, PosInf => NaN
  | PosInf, _ | _, PosInf => PosInf
  | NegInf, _ | _, NegInf => NegInf
  | Fin a, Fin b => Fin (a + b)
  end.

Definition signed_inf (positive : bool) : number :=
  if positive then PosInf else NegInf.

(** [x * y]. *)
Definition mul (x y : number) : number :=
  match x, y with
  | NaN, _ | _, NaN => NaN
  | Fin a, Fin b => Fin (a * b)
  | Fin a, PosInf | PosInf, Fin a =>
      if Qzero a then NaN else signed_inf (Qpositive a)
  | Fin a, NegInf | NegInf, Fin a =>
      if Qzero a then NaN else signed_inf (Qnegative a)
  | PosInf, PosInf | NegInf, NegInf => PosInf
  | PosInf, NegInf | NegInf, PosInf => NegInf
  end.

(** [x / y]: a finite value over zero is an infinity, zero over zero and
    an infinity over an infinity are NaN. *)
Definition div (x y : number) : number :=
  match x, y with
  | NaN, _ | _, NaN => NaN
  | Fin a, Fin b =>
      if Qzero b
      then (if Qzero a then NaN else signed_inf (Qpositive a))
      else Fin (a / b)
  | Fin _, _ => Fin 0
  | PosInf, Fin b => signed_inf (negb (Qnegative b))
  | NegInf, Fin b => signed_inf (Qnegative b)
  | _, _ => NaN
  end.

(** [ToBoolean] of a number, as [||] and [&&] test it. *)
Definition truthy (x : number) : bool :=
  match x with
  | Fin q => negb (Qzero q)
  | NaN => false
  | _ => true
  end.

(** The number of a length or a count. *)
Definition of_nat (n : nat) : number := Fin (inject_Z (Z.of_nat n)).

Lemma gt_zero_truthy x : gt x zero = true -> truthy x = true.
Proof.
  destruct x as [| | |q]; simpl; try discriminate; auto.
  unfold Qzero. rewrite negb_true_iff. intros H. apply negb_true_iff.
  destruct (Qeq_bool q 0) eqn:E; [|reflexivity].
  apply Qeq_bool_eq in E.
  assert (L : Qle_bool q 0 = true) by (apply Qle_bool_iff; rewrite E; apply Qle_refl).
  congruence.
Qed.

Lemma of_nat_nonzero n : (0 < n)%nat -> truthy (of_nat n) = true.
Proof.
  intros H. unfold of_nat, truthy, Qzero. apply negb_true_iff.
  destruct (Qeq_bool _ 0) eqn:E; [|reflexivity].
  apply Qeq_bool_eq in E. unfold Qeq, inject_Z in E. simpl in E. lia.
Qed.

End JSNumber.

(* ================================================================== *)
(** * JavaScript objects used as maps *)
(* ================================================================== *)

Module JSObject.

Section Object.
Context {V : Type}.

(** The own properties, in property order. Property names are unique:
    [wf]. *)
Definition object : Type := list (string * V).

Definition keys (o : object) : list string := map fst o.

(** [Object.values(o)]. *)
Definition values (o : object) : list V := map snd o.

Definition wf (o : object) : Prop := NoDup (keys o).

(** [o[k]], [None] for [undefined]. *)
Fixpoint get (o : object) (k : string) : option V :=
  match o with
  | [] => None
  | (k', v) :: o' => if String.eqb k' k then Some v else get o' k
  end.

(** [{ ...o, [k]: v }], and [o[k] = v] on a fresh copy: an existing
    property keeps its place, a new one goes last. *)
Fixpoint set (o : object) (k : string) (v : V) : object :=
  match o with
  | [] => [(k, v)]
  | (k', v') :: o' =>
      if String.eqb k' k then (k, v) :: o' else (k', v') :: set o' k v
  end.

(** [delete o[k]] on a fresh copy. *)
Fixpoint delete (o : object) (k : string) : object :=
  match o with
  | [] => []
  | (k', v') :: o' =>
      if String.eqb k' k then delete o' k else (k', v') :: delete o' k
  end.

Lemma get_set_same o k v : get (set o k v) k = Some v.
Proof.
  induction o as [|[k' v'] o IH]; simpl.
  - rewrite String.eqb_refl. reflexivity.
  - destruct (String.eqb k' k) eqn:E; simpl.
    + rewrite String.eqb_refl. reflexivity.
    + rewrite E. exact IH.
Qed.

Lemma get_set_other o k v k' : k <> k' -> get (set o k v) k' = get o k'.
Proof.
  intros N. induction o as [|[k0 v0] o IH]; simpl.
  - destruct (String.eqb_spec k k'); [contradiction|reflexivity].
  - destruct (String.eqb_spec k0 k) as [->|N0]; simpl.
    + destruct (String.eqb_spec k k'); [contradiction|reflexivity].
    + rewrite IH. reflexivity.
Qed.

Lemma get_delete_same o k : get (delete o k) k = None.
Proof.
  induction o as [|[k0 v0] o IH]; simpl; [reflexivity|].
  destruct (String.eqb k0 k) eqn:E; simpl; [|rewrite E]; exact IH.
Qed.

Lemma get_delete_other o k k' : k <> k' -> get (delete o k) k' = get o k'.
Proof.
  intros N. induction o as [|[k0 v0] o IH]; simpl; [reflexivity|].
  destruct (String.eqb_spec k0 k) as [->|N0]; simpl.
  - destruct (String.eqb_spec k k'); [contradiction|exact IH].
  - rewrite IH. reflexivity.
Qed.

Lemma get_In_keys o k : In k (keys o) <-> get o k <> None.
Proof.
  induction o as [|[k0 v0] o IH]; simpl.
  - split; [tauto|congruence].
  - destruct (String.eqb_spec k0 k) as [->|N].
    + split; [discriminate|auto].
    + rewrite <- IH. split; [intros [H|H]; [contradiction|assumption]|auto].
Qed.

Lemma keys_set o k v k' : In k' (keys (set o k v)) <-> k' = k \/ In k' (keys o).
Proof.
  induction o as [|[k0 v0] o IH]; simpl.
  - intuition.
  - destruct (String.eqb_spec k0 k) as [->|N]; simpl; [|rewrite IH];
      intuition.
Qed.

Lemma keys_set_cases o k v :
  (In k (keys o) /\ keys (set o k v) = keys o)
  \/ (~ In k (keys o) /\ keys (set o k v) = keys o ++ [k]).
Proof.
  induction o as [|[k0 v0] o IH]; simpl.
  - right. split; [tauto|reflexivity].
  - destruct (String.eqb_spec k0 k) as [->|N]; simpl.
    + left. split; [left|]; reflexivity.
    + destruct IH as [[Hin E]|[Hn E]]; rewrite E.
      * left. split; [right; assumption|reflexivity].
      * right. split; [intros [H|H]; contradiction|reflexivity].
Qed.

Lemma wf_set o k v : wf o -> wf (set o k v).
Proof.
  unfold wf. intros H.
  destruct (keys_set_cases o k v) as [[_ E]|[Hn E]]; rewrite E; [exact H|].
  apply NoDup_app; [exact H | repeat constructor; simpl; tauto |].
  intros x Hx [<-|[]]. contradiction.
Qed.

Lemma wf_get_tail k v o k' :
  wf ((k, v) :: o) -> k <> k' \/ get o k' = None.
Proof.
  unfold wf. simpl. intros H. inversion H as [|? ? Hn _]; subst.
  destruct (String.eqb_spec k k') as [<-|N]; [right|left; exact N].
  destruct (get o k) eqn:E; [|reflexivity].
  exfalso. apply Hn, get_In_keys. congruence.
Qed.

Lemma get_app_fresh pre suf k :
  ~ In k (keys pre) -> get (pre ++ suf) k = get suf k.
Proof.
  induction pre as [|[k0 v0] pre IH]; simpl; [reflexivity|].
  intros N. destruct (String.eqb_spec k0 k) as [->|_]; [tauto|].
  apply IH. tauto.
Qed.

Lemma set_app_fresh pre suf k v :
  ~ In k (keys pre) -> set (pre ++ suf) k v = pre ++ set suf k v.
Proof.
  induction pre as [|[k0 v0] pre IH]; simpl; [reflexivity|].
  intros N. destruct (String.eqb_spec k0 k) as [->|_]; [tauto|].
  rewrite IH by tauto. reflexivity.
Qed.

Lemma wf_app_fresh pre k v suf : wf (pre ++ (k, v) :: suf) -> ~ In k (keys pre).
Proof.
  unfold wf, keys. rewrite map_app. simpl. intros H Hin.
  apply NoDup_remove_2 in H. apply H, in_or_app. left. exact Hin.
Qed.

End Object.

Arguments object : clear implicits.

End JSObject.

(* ================================================================== *)
(** * Contributions: the store, the handlers and the card *)
(* ================================================================== *)

Module Contributions.
Import JSNumber JSObject Birthdays.
Local Open Scope string_scope.
Local Open Scope list_scope.

(** One entry of a [contributors] map. *)
Record Contribution := mkContribution {
  amount : number;
  status : string
}.

Definition Contributors : Type := object Contribution.

(** A document of the [contributions] collection. The field
    [contributors] may be missing from a document (the code guards for
    it). The document id is the key under which the snapshot listener
    files the document, and the [id] it copies into it. *)
Record ContributionDoc := mkContributionDoc {
  birthdayCoworkerId : string;
  year : Z;
  contributors : option Contributors
}.

(** ** The store operations the handlers call (Firestore) *)

(** [setDoc(ref, { birthdayCoworkerId, year, contributors }, { merge: true })]:
    the document is created when absent; otherwise the written fields
    replace the stored ones, and a written map is merged into the stored
    map entry by entry. *)
Definition mergeContributors (stored written : Contributors) : Contributors :=
  fold_left (fun acc kv => set acc (fst kv) (snd kv)) written stored.

Definition setDocMerge (col : object ContributionDoc) (docId : string)
    (bId : string) (y : Z) (written : Contributors) : object ContributionDoc :=
  match get col docId with
  | None => set col docId (mkContributionDoc bId y (Some written))
  | Some old =>
      set col docId
        (mkContributionDoc bId y
           (Some (match contributors old with
                  | Some stored => mergeContributors stored written
                  | None => written
                  end)))
  end.

(** The two collections a write batch of the component touches. *)
Record Store := mkStore {
  coworkersCol : list Coworker;
  contributionsCol : object ContributionDoc
}.

(** The operations [handleDeleteCoworker] queues on a [writeBatch]. *)
Inductive BatchOp : Type :=
| BatchDelete (coworkerId : string)
| BatchUpdate (contributionId : string) (newContributors : Contributors).

(** [batch.delete] removes the document if there is one; [batch.update]
    replaces the field [contributors] of an existing document and fails
    on a missing one. *)
Definition applyOp (s : Store) (op : BatchOp) : option Store :=
  match op with
  | BatchDelete cid =>
      Some (mkStore
              (filter (fun cw => negb (String.eqb (id cw) cid)) (coworkersCol s))
              (contributionsCol s))
  | BatchUpdate docId cs =>
      match get (contributionsCol s) docId with
      | None => None
      | Some d =>
          Some (mkStore (coworkersCol s)
                  (set (contributionsCol s) docId
                     (mkContributionDoc (birthdayCoworkerId d) (year d)
                        (Some cs))))
      end
  end.

Fixpoint applyOps (s : Store) (ops : list BatchOp) : option Store :=
  match ops with
  | [] => Some s
  | op :: ops' =>
      match applyOp s op with
      | None => None
      | Some s' => applyOps s' ops'
      end
  end.

(** [batch.commit()]: every write is applied or none is. [reachable] is
    false when the commit is rejected before it is applied. The result
    is the store afterwards and whether the promise resolved. *)
Definition commit (reachable : bool) (s : Store) (ops : list BatchOp)
  : Store * bool :=
  if reachable then
    match applyOps s ops with
    | Some s' => (s', true)
    | None => (s, false)
    end
  else (s, false).

(** ** The component state *)

(** The part of the state of [App] the contribution handlers read and
    write. [user] is whether a user is signed in. [coworkers] and
    [contributions] are the latest snapshots, which a successful write
    brings up to date. *)
Record AppState := mkAppState {
  user : bool;
  isOrganizer : bool;
  coworkers : list Coworker;
  contributions : object ContributionDoc;
  isContributionModalOpen : bool;
  contributionTarget : option (string * string)
}.

Definition setContributions (st : AppState) (c : object ContributionDoc)
  : AppState :=
  mkAppState (user st) (isOrganizer st) (coworkers st) c
    (isContributionModalOpen st) (contributionTarget st).

Definition setModal (st : AppState) (open : bool)
    (target : option (string * string)) : AppState :=
  mkAppState (user st) (isOrganizer st) (coworkers st) (contributions st)
    open target.

Definition unpaidZero : Contribution := mkContribution zero "unpaid".

(** The map [updateContribution] builds when the document is missing
    (271-273): an unpaid entry with amount 0 under the id of every
    coworker of the list. *)
Definition lazyContributors (cws : list Coworker) : Contributors :=
  fold_left (fun acc cw => set acc (id cw) unpaidZero) cws [].

Section Handlers.
(** The value of [new Date().getFullYear()] during the session. *)
Variable currentYear : Z.
(** The global [parseFloat]. *)
Variable parseFloat : string -> number.

(** The template literal [`${birthdayCoworkerId}_${year}`]. *)
Definition contributionId (bId : string) : string :=
  (bId ++ "_" ++ NilZero.string_of_int (Z.to_int currentYear))%string.

(** ** [updateContribution] (App.jsx 262-287); [ok] is whether the
    write succeeds. *)
Definition currentContributorsOf (st : AppState) (bId : string)
  : Contributors :=
  match get (contributions st) (contributionId bId) with
  | Some doc =>
      match contributors doc with Some cs => cs | None => [] end
  | None => lazyContributors (coworkers st)
  end.

Definition updateContribution (ok : bool) (st : AppState)
    (bId contributorId : string) (newContributionData : Contribution)
  : AppState :=
  if negb (user st) then st
  else
    let currentContributors := currentContributorsOf st bId in
    let updatedContributors :=
      set currentContributors contributorId newContributionData in
    if ok
    then setContributions st
           (setDocMerge (contributions st) (contributionId bId)
              bId currentYear updatedContributors)
    else st.

(** ** [handlePledgeContribution] (289-296) *)
Definition handlePledgeContribution (ok : bool) (st : AppState)
    (amt : number) : AppState :=
  let st' :=
    match contributionTarget st with
    | Some (bId, contributorId) =>
        updateContribution ok st bId contributorId
          (mkContribution amt "pledged")
    | None => st
    end in
  setModal st' false None.

(** ** [handleContributionClick] (298-310) *)
Definition statusOrUnpaid (contribution : option Contribution) : string :=
  match contribution with
  | Some c => if String.eqb (status c) EmptyString then "unpaid" else status c
  | None => "unpaid"
  end.

Definition amountOrZero (contribution : option Contribution) : number :=
  match contribution with
  | Some c => if truthy (amount c) then amount c else zero
  | None => zero
  end.

Definition handleContributionClick (ok : bool) (st : AppState)
    (bId contributorId : string) (contribution : option Contribution)
  : AppState :=
  let currentStatus := statusOrUnpaid contribution in
  let currentAmount := amountOrZero contribution in
  if String.eqb currentStatus "unpaid" then
    setModal st true (Some (bId, contributorId))
  else if String.eqb currentStatus "pledged" then
    updateContribution ok st bId contributorId
      (mkContribution currentAmount "paid")
  else if String.eqb currentStatus "paid" then
    updateContribution ok st bId contributorId (mkContribution zero "unpaid")
  else st.

(** ** [ContributionModal] (706-716) and its [onClose] prop (465) *)
Definition onClose (st : AppState) : AppState :=
  setModal st false (contributionTarget st).

Definition ContributionModal_handleSave (ok : bool) (st : AppState)
    (amountText : string) : AppState :=
  let parsedAmount := parseFloat amountText in
  if negb (isNaN parsedAmount) && gt parsedAmount zero
  then handlePledgeContribution ok st parsedAmount
  else onClose st.

(** The modal is rendered when it is open and has a target (462). *)
Definition modalRendered (st : AppState) : bool :=
  isContributionModalOpen st
  && match contributionTarget st with Some _ => true | None => false end.

(** ** The card of a birthday (356-363, 506-539) *)

(** [contributions[contributionId]?.contributors || {}]. *)
Definition contributionDataOf (st : AppState) (bId : string) : Contributors :=
  match get (contributions st) (contributionId bId) with
  | Some doc =>
      match contributors doc with Some cs => cs | None => [] end
  | None => []
  end.

(** [contributionData[cw.id] || { amount: 0, status: 'unpaid' }]. *)
Definition cellContribution (contributionData : Contributors) (cwId : string)
  : Contribution :=
  match get contributionData cwId with
  | Some c => c
  | None => unpaidZero
  end.

(** What a cell shows: the status picks the style and the icon, and the
    amount is rendered when [amount > 0]. *)
Record Cell := mkCell {
  cellStatus : string;
  cellAmount : option number
}.

Definition renderCell (contribution : Contribution) : Cell :=
  mkCell (status contribution)
         (if gt (amount contribution) zero
          then Some (amount contribution) else None).

(** The cells of a card: the coworkers other than the birthday person
    (the sort by name does not matter here and is left out). *)
Definition cardContributors (st : AppState) (bId : string) : list Coworker :=
  filter (fun cw => negb (String.eqb (id cw) bId)) (coworkers st).

Definition paidContributions (contributionData : Contributors)
  : list Contribution :=
  filter (fun c => String.eqb (status c) "paid") (values contributionData).

Definition paidCount (contributionData : Contributors) : nat :=
  List.length (paidContributions contributionData).

Definition totalAmount (contributionData : Contributors) : number :=
  fold_left (fun sum c => add sum (amount c))
            (paidContributions contributionData) zero.

Definition totalContributors (cws : list Coworker) : nat :=
  if (1 <? List.length cws)%nat then (List.length cws - 1)%nat else 0%nat.

Definition progress (paid total : nat) : number :=
  if (0 <? total)%nat
  then mul (div (of_nat paid) (of_nat total)) (Fin 100)
  else zero.

(** ** [handleDeleteCoworker] (224-248) *)

(** The writes queued for the contribution documents, in the order of
    [Object.values(contributions)]. *)
Fixpoint strippedUpdates (cs : object ContributionDoc) (coworkerId : string)
  : list BatchOp :=
  match cs with
  | [] => []
  | (docId, contribution) :: cs' =>
      match contributors contribution with
      | Some m =>
          match get m coworkerId with
          | Some _ =>
              BatchUpdate docId (delete m coworkerId)
              :: strippedUpdates cs' coworkerId
          | None => strippedUpdates cs' coworkerId
          end
      | None => strippedUpdates cs' coworkerId
      end
  end.

Definition deleteBatch (st : AppState) (coworkerId : string) : list BatchOp :=
  BatchDelete coworkerId :: strippedUpdates (contributions st) coworkerId.

Definition handleDeleteCoworker (reachable : bool) (st : AppState)
    (coworkerId : string) : AppState :=
  if negb (isOrganizer st) then st
  else
    let '(s, _) :=
      commit reachable (mkStore (coworkers st) (contributions st))
             (deleteBatch st coworkerId) in
    mkAppState (user st) (isOrganizer st) (coworkersCol s) (contributionsCol s)
      (isContributionModalOpen st) (contributionTarget st).

(** ** The interactions with a contribution cell and its prompt *)
Inductive Event : Type :=
| ClickCell (bId contributorId : string) (ok : bool)
| ModalSave (amountText : string) (ok : bool)
| ModalClose.

(** A click passes the contribution the cell was rendered from; the
    buttons of the modal exist only while it is rendered. *)
Definition step (st : AppState) (ev : Event) : AppState :=
  match ev with
  | ClickCell bId contributorId ok =>
      handleContributionClick ok st bId contributorId
        (Some (cellContribution (contributionDataOf st bId) contributorId))
  | ModalSave amountText ok =>
      if modalRendered st
      then ContributionModal_handleSave ok st amountText
      else st
  | ModalClose => if modalRendered st then onClose st else st
  end.

Definition run (st : AppState) (evs : list Event) : AppState :=
  fold_left step evs st.

(** The state once the session is set up, before any contribution was
    recorded: no contribution document, no prompt. *)
Definition initialState (u org : bool) (cws : list Coworker) : AppState :=
  mkAppState u org cws [] false None.

(** The state of a pair as the card shows it and a click reads it. *)
Definition pairContribution (st : AppState) (bId contributorId : string)
  : Contribution :=
  cellContribution (contributionDataOf st bId) contributorId.

Definition pairStatus (st : AppState) (bId contributorId : string) : string :=
  statusOrUnpaid (Some (pairContribution st bId contributorId)).

End Handlers.

(** ** Definitions for the statements: the totals as the specification
    words them, what a session keeps true, and the examples *)

(** The totals as the specification words them: the amounts of the
    entries whose status is paid are added up, entry by entry, and every
    other entry is passed over; the paid entries are counted. *)
Fixpoint spec_totalFrom (acc : number) (entries : list Contribution)
  : number :=
  match entries with
  | [] => acc
  | c :: rest =>
      spec_totalFrom
        (if String.eqb (status c) "paid" then add acc (amount c) else acc)
        rest
  end.

Definition spec_totalAmount (entries : list Contribution) : number :=
  spec_totalFrom zero entries.

Fixpoint spec_paidCount (entries : list Contribution) : nat :=
  match entries with
  | [] => 0
  | c :: rest =>
      if String.eqb (status c) "paid"
      then S (spec_paidCount rest) else spec_paidCount rest
  end.

(** An entry the handlers write: unpaid with amount 0, or pledged or
    paid with a positive amount. *)
Definition goodEntry (c : Contribution) : Prop :=
  (status c = "unpaid" /\ amount c = zero)
  \/ (status c = "pledged" /\ gt (amount c) zero = true)
  \/ (status c = "paid" /\ gt (amount c) zero = true).

Definition goodMap (cs : Contributors) : Prop :=
  wf cs /\ forall k c, get cs k = Some c -> goodEntry c.

Definition goodStore (col : object ContributionDoc) : Prop :=
  forall docId doc cs,
    get col docId = Some doc -> contributors doc = Some cs -> goodMap cs.

(** The [contributors] map of the document after a successful write. *)
Definition writtenContributors (currentYear : Z) (st : AppState)
    (bId contributorId : string) (new : Contribution) : Contributors :=
  match get (contributions st) (contributionId currentYear bId) with
  | None => set (lazyContributors (coworkers st)) contributorId new
  | Some old =>
      match contributors old with
      | Some stored =>
          mergeContributors stored (set stored contributorId new)
      | None => set [] contributorId new
      end
  end.

(** The edges of the cycle. *)
Inductive cycleEdge : string -> string -> Prop :=
| edge_pledge : cycleEdge "unpaid" "pledged"
| edge_pay : cycleEdge "pledged" "paid"
| edge_reset : cycleEdge "paid" "unpaid".

(** The state after the interactions [evs], from the initial state. *)
Definition session (currentYear : Z) (parseFloat : string -> number)
    (u org : bool) (cws : list Coworker) (evs : list Event) : AppState :=
  run currentYear parseFloat (initialState u org cws) evs.

(** What holds of every state of a session: the store holds entries the
    handlers write, and the prompt, while rendered, is for an unpaid
    pair. *)
Definition sessionInv (currentYear : Z) (st : AppState) : Prop :=
  goodStore (contributions st)
  /\ (modalRendered st = true ->
      forall b c, contributionTarget st = Some (b, c) ->
                  status (pairContribution currentYear st b c) = "unpaid").

(** One interaction leaves a pair as it was or moves it along one edge. *)
Definition oneEdge (currentYear : Z) (st st' : AppState) : Prop :=
  forall b c,
    pairContribution currentYear st' b c = pairContribution currentYear st b c
    \/ cycleEdge (status (pairContribution currentYear st b c))
                 (status (pairContribution currentYear st' b c)).

(** The status of the pair after the interactions [evs] of a session. *)
Definition statusAfter (currentYear : Z) (parseFloat : string -> number)
    (u org : bool) (cws : list Coworker) (evs : list Event)
    (bId contributorId : string) : string :=
  pairStatus currentYear (session currentYear parseFloat u org cws evs)
             bId contributorId.

(** The test of [ContributionModal]'s save button on the parsed text. *)
Definition acceptedAmount (x : number) : bool := negb (isNaN x) && gt x zero.

(** A contribution document without the entry of [coworkerId]; a
    document that has no such entry is left as it is. *)
Definition stripDoc (coworkerId : string) (d : ContributionDoc)
  : ContributionDoc :=
  match contributors d with
  | Some m =>
      match get m coworkerId with
      | Some _ =>
          mkContributionDoc (birthdayCoworkerId d) (year d)
            (Some (delete m coworkerId))
      | None => d
      end
  | None => d
  end.

Definition stripAll (coworkerId : string) (col : object ContributionDoc)
  : object ContributionDoc :=
  map (fun kd => (fst kd, stripDoc coworkerId (snd kd))) col.

(** A [parseFloat] for the examples: it agrees with the global function
    on the non-empty strings of decimal digits, which are the only texts
    the examples enter, and on the empty string. *)
Definition parseFloatOnDigits (text : string) : number :=
  match NilZero.uint_of_string text with
  | Some u => Fin (inject_Z (Z.of_uint u))
  | None => NaN
  end.

Definition exampleCoworkers : list Coworker :=
  [ mkCoworker "R" "Rosa" (Some 645408000000%Z);
    mkCoworker "X" "Xavier" None;
    mkCoworker "Y" "Yara" None ].

(** The record of R once X has pledged, 100, on R's card. *)
Definition exampleAfterPledge : AppState :=
  session 2025 parseFloatOnDigits true true exampleCoworkers
    [ClickCell "R" "X" true; ModalSave "100" true].

(** The scenario of the specification: X has an entry in two records. *)
Definition exampleStore : AppState :=
  mkAppState true true exampleCoworkers
    [("R_2025",
      mkContributionDoc "R" 2025
        (Some [("X", mkContribution (Fin 500) "paid");
               ("Y", mkContribution (Fin 200) "pledged")]));
     ("Y_2025",
      mkContributionDoc "Y" 2025
        (Some [("R", unpaidZero); ("X", mkContribution (Fin 50) "pledged")]));
     ("X_2025",
      mkContributionDoc "X" 2025
        (Some [("R", mkContribution (Fin 70) "paid")]))]
    false None.

(** ** The summary of a card *)

Lemma fold_paid_spec acc entries :
  fold_left (fun sum c => add sum (amount c))
            (filter (fun c => String.eqb (status c) "paid") entries) acc
  = spec_totalFrom acc entries.
Proof.
  revert acc. induction entries as [|c rest IH]; intros acc; simpl.
  - reflexivity.
  - destruct (String.eqb (status c) "paid"); simpl; apply IH.
Qed.

Lemma length_paid_spec entries :
  List.length (filter (fun c => String.eqb (status c) "paid") entries)
  = spec_paidCount entries.
Proof.
  induction entries as [|c rest IH]; simpl; [reflexivity|].
  destruct (String.eqb (status c) "paid"); simpl; congruence.
Qed.

Lemma paidContributions_skip (l1 l2 : Contributors) k c :
  status c <> "paid" ->
  paidContributions (l1 ++ (k, c) :: l2)
  = paidContributions (l1 ++ l2).
Proof.
  intros N. unfold paidContributions, values.
  rewrite !map_app, !filter_app. simpl.
  destruct (String.eqb_spec (status c) "paid"); [contradiction|reflexivity].
Qed.

Lemma fold_add_finite (qs : list Q) (q0 : Q) (cs : list Contribution) :
  map amount cs = map Fin qs ->
  exists q, fold_left (fun sum c => add sum (amount c)) cs (Fin q0) = Fin q
            /\ (q == q0 + fold_right Qplus 0 qs)%Q.
Proof.
  revert q0 qs. induction cs as [|c cs IH]; intros q0 [|a qs] E;
    try discriminate; simpl in *.
  - exists q0. split; [reflexivity|]. ring.
  - injection E as Ea E. rewrite Ea. simpl.
    destruct (IH (q0 + a)%Q qs E) as (q & Hq & Hs).
    exists q. split; [exact Hq|]. rewrite Hs. ring.
Qed.

Lemma contributionDataOf_absent currentYear st bId :
  get (contributions st) (contributionId currentYear bId) = None ->
  contributionDataOf currentYear st bId = [].
Proof. unfold contributionDataOf. intros ->. reflexivity. Qed.

Lemma contributionDataOf_present currentYear st bId doc :
  get (contributions st) (contributionId currentYear bId) = Some doc ->
  contributionDataOf currentYear st bId
  = match contributors doc with Some cs => cs | None => [] end.
Proof. unfold contributionDataOf. intros ->. reflexivity. Qed.

(** C2. The total is the sum of the amounts of exactly the paid entries,
    and the count is their number: an entry that is pledged or unpaid
    changes neither; with finite amounts the total is their sum as
    rationals. The card of a birthday person is summed over the entries
    of the record stored for that person and the current year, one by
    one in the order of the record; a record without contributors, or a
    missing record, gives 0 and 0. *)
Theorem totalAmount_sums_paid_entries (contributionData : Contributors) :
  totalAmount contributionData = spec_totalAmount (values contributionData)
  /\ paidCount contributionData = spec_paidCount (values contributionData)
  /\ (forall (l1 l2 : Contributors) k c,
        status c <> "paid" ->
        totalAmount (l1 ++ (k, c) :: l2) = totalAmount (l1 ++ l2)
        /\ paidCount (l1 ++ (k, c) :: l2) = paidCount (l1 ++ l2))
  /\ (forall qs,
        map amount (paidContributions contributionData) = map Fin qs ->
        exists q, totalAmount contributionData = Fin q
                  /\ (q == fold_right Qplus 0 qs)%Q)
  /\ (forall currentYear st bId,
        get (contributions st) (contributionId currentYear bId) = None ->
        totalAmount (contributionDataOf currentYear st bId) = zero
        /\ paidCount (contributionDataOf currentYear st bId) = 0%nat)
  /\ (forall currentYear st bId doc cs,
        get (contributions st) (contributionId currentYear bId) = Some doc ->
        contributors doc = Some cs ->
        contributionDataOf currentYear st bId = cs
        /\ totalAmount (contributionDataOf currentYear st bId)
           = spec_totalAmount (map snd cs)
        /\ paidCount (contributionDataOf currentYear st bId)
           = spec_paidCount (map snd cs))
  /\ (forall currentYear st bId doc,
        get (contributions st) (contributionId currentYear bId) = Some doc ->
        contributors doc = None ->
        totalAmount (contributionDataOf currentYear st bId) = zero
        /\ paidCount (contributionDataOf currentYear st bId) = 0%nat).
Proof.
  split; [apply fold_paid_spec|].
  split; [apply length_paid_spec|].
  split; [|split; [|split; [|split]]].
  - intros l1 l2 k c N. unfold totalAmount, paidCount.
    rewrite (paidContributions_skip l1 l2 k c N). split; reflexivity.
  - intros qs E. destruct (fold_add_finite qs 0%Q _ E) as (q & Hq & Hs).
    exists q. split; [exact Hq|]. rewrite Hs. ring.
  - intros currentYear st bId H.
    rewrite (contributionDataOf_absent _ _ _ H). split; reflexivity.
  - intros currentYear st bId doc cs H C.
    rewrite (contributionDataOf_present _ _ _ _ H), C.
    split; [reflexivity|]. split.
    + apply (fold_paid_spec zero (map snd cs)).
    + apply (length_paid_spec (map snd cs)).
  - intros currentYear st bId doc H C.
    rewrite (contributionDataOf_present _ _ _ _ H), C.
    split; reflexivity.
Qed.

(** C8. The number of eligible contributors is the number of coworkers
    less one, and 0 when there is at most one coworker. The progress is
    paid / eligible * 100 when the number of eligible contributors is
    positive, the divisor being then a nonzero number, and 0 otherwise;
    it is always a finite number, which a division by zero is not. *)
Theorem progress_guards_the_division (cws : list Coworker) (paid total : nat) :
  totalContributors cws = (List.length cws - 1)%nat
  /\ ((List.length cws <= 1)%nat -> totalContributors cws = 0%nat)
  /\ ((0 < total)%nat ->
      progress paid total
      = Fin (inject_Z (Z.of_nat paid) / inject_Z (Z.of_nat total) * 100)
      /\ truthy (of_nat total) = true)
  /\ (total = 0%nat -> progress paid total = zero)
  /\ isFinite (progress paid total) = true
  /\ isFinite (div (of_nat paid) (of_nat 0)) = false.
Proof.
  assert (P : (0 < total)%nat ->
              progress paid total
              = Fin (inject_Z (Z.of_nat paid) / inject_Z (Z.of_nat total) * 100)).
  { intros H. unfold progress.
    destruct (Nat.ltb_spec 0 total) as [_|]; [|lia].
    pose proof (of_nat_nonzero total H) as T.
    unfold of_nat, truthy in *. apply negb_true_iff in T.
    unfold div, mul. rewrite T. reflexivity. }
  split; [|split; [|split; [|split; [|split]]]].
  - unfold totalContributors.
    destruct (Nat.ltb_spec 1 (List.length cws)); lia.
  - intros H. unfold totalContributors.
    destruct (Nat.ltb_spec 1 (List.length cws)); lia.
  - intros H. split; [apply P, H | apply of_nat_nonzero, H].
  - intros ->. reflexivity.
  - destruct total as [|n]; [reflexivity|]. rewrite P by lia. reflexivity.
  - destruct paid; reflexivity.
Qed.

(** ** Document ids *)

Lemma string_length_append (s t : string) :
  String.length (s ++ t)%string = (String.length s + String.length t)%nat.
Proof. induction s as [|a s IH]; simpl; [reflexivity|]. rewrite IH. reflexivity. Qed.

Lemma append_cancel_r (s1 s2 t : string) :
  (s1 ++ t)%string = (s2 ++ t)%string -> s1 = s2.
Proof.
  revert s2. induction s1 as [|a s1 IH]; intros [|b s2] E; simpl in E.
  - reflexivity.
  - apply (f_equal String.length) in E. simpl in E.
    rewrite string_length_append in E. lia.
  - apply (f_equal String.length) in E. simpl in E.
    rewrite string_length_append in E. lia.
  - injection E as -> E. rewrite (IH s2 E). reflexivity.
Qed.

Lemma contributionId_inj currentYear b b' :
  contributionId currentYear b = contributionId currentYear b' -> b = b'.
Proof. unfold contributionId. apply append_cancel_r. Qed.

(** ** What the store holds in a session *)

Lemma goodEntry_unpaidZero : goodEntry unpaidZero.
Proof. left. split; reflexivity. Qed.

Lemma goodEntry_status c :
  goodEntry c ->
  statusOrUnpaid (Some c) = status c
  /\ (status c = "unpaid" \/ status c = "pledged" \/ status c = "paid").
Proof.
  unfold statusOrUnpaid.
  intros [[E _]|[[E _]|[E _]]]; rewrite E; simpl; auto.
Qed.

Lemma goodMap_nil : goodMap [].
Proof. split; [constructor|]. intros k c H. discriminate. Qed.

Lemma goodMap_set cs k c : goodMap cs -> goodEntry c -> goodMap (set cs k c).
Proof.
  intros [W G] Hc. split; [apply wf_set, W|].
  intros k' c' H. destruct (String.eqb_spec k k') as [<-|N].
  - rewrite get_set_same in H. injection H as <-. exact Hc.
  - rewrite get_set_other in H by exact N. eauto.
Qed.

Lemma get_mergeContributors (written stored : Contributors) k :
  wf written ->
  get (mergeContributors stored written) k
  = match get written k with
    | Some v => Some v
    | None => get stored k
    end.
Proof.
  unfold mergeContributors. revert stored.
  induction written as [|[k0 v0] w IH]; intros stored W; simpl.
  - reflexivity.
  - assert (W' : wf w) by (unfold wf in *; simpl in W; inversion W; assumption).
    rewrite (IH _ W').
    destruct (wf_get_tail k0 v0 w k W) as [N|E].
    + destruct (String.eqb_spec k0 k); [contradiction|].
      rewrite get_set_other by exact N. reflexivity.
    + rewrite E. destruct (String.eqb_spec k0 k) as [->|N].
      * apply get_set_same.
      * apply get_set_other, N.
Qed.

Lemma wf_mergeContributors (written stored : Contributors) :
  wf stored -> wf (mergeContributors stored written).
Proof.
  unfold mergeContributors. revert stored.
  induction written as [|[k0 v0] w IH]; intros stored W; simpl;
    [exact W | apply IH, wf_set, W].
Qed.

Lemma lazy_fold_good (cws : list Coworker) (acc : Contributors) :
  goodMap acc ->
  goodMap (fold_left (fun acc cw => set acc (id cw) unpaidZero) cws acc).
Proof.
  revert acc. induction cws as [|cw cws IH]; intros acc G; simpl;
    [exact G | apply IH, goodMap_set; [exact G | apply goodEntry_unpaidZero]].
Qed.

Lemma lazy_fold_get (cws : list Coworker) (acc : Contributors) k c :
  (forall c', get acc k = Some c' -> c' = unpaidZero) ->
  get (fold_left (fun acc cw => set acc (id cw) unpaidZero) cws acc) k = Some c ->
  c = unpaidZero.
Proof.
  revert acc. induction cws as [|cw cws IH]; intros acc H; simpl;
    [apply H|].
  apply IH. intros c'. destruct (String.eqb_spec (id cw) k) as [<-|N].
  - rewrite get_set_same. congruence.
  - rewrite get_set_other by exact N. apply H.
Qed.

Lemma lazy_fold_keys (cws : list Coworker) (acc : Contributors) k :
  In k (keys (fold_left (fun acc cw => set acc (id cw) unpaidZero) cws acc))
  <-> In k (keys acc) \/ In k (map id cws).
Proof.
  revert acc. induction cws as [|cw cws IH]; intros acc; simpl.
  - tauto.
  - rewrite IH, keys_set. intuition.
Qed.

Lemma cellContribution_lazy cws k :
  cellContribution (lazyContributors cws) k = unpaidZero.
Proof.
  unfold cellContribution.
  destruct (get (lazyContributors cws) k) as [c|] eqn:E; [|reflexivity].
  apply (lazy_fold_get cws [] k c); [discriminate|exact E].
Qed.

(** ** The effect of [updateContribution] *)

Lemma updateContribution_written currentYear st b c new :
  user st = true ->
  contributions (updateContribution currentYear true st b c new)
  = set (contributions st) (contributionId currentYear b)
        (mkContributionDoc b currentYear
           (Some (writtenContributors currentYear st b c new))).
Proof.
  intros U. unfold updateContribution, writtenContributors, setDocMerge,
    currentContributorsOf, lazyContributors.
  rewrite U. simpl.
  destruct (get (contributions st) (contributionId currentYear b)) as [old|];
    [destruct (contributors old)|]; reflexivity.
Qed.

Lemma updateContribution_skipped currentYear ok st b c new :
  user st = false \/ ok = false ->
  updateContribution currentYear ok st b c new = st.
Proof.
  unfold updateContribution. intros [->| ->]; simpl; [reflexivity|].
  destruct (negb (user st)); reflexivity.
Qed.

Lemma updateContribution_modal currentYear ok st b c new :
  isContributionModalOpen (updateContribution currentYear ok st b c new)
  = isContributionModalOpen st
  /\ contributionTarget (updateContribution currentYear ok st b c new)
     = contributionTarget st
  /\ coworkers (updateContribution currentYear ok st b c new) = coworkers st
  /\ user (updateContribution currentYear ok st b c new) = user st.
Proof.
  unfold updateContribution.
  destruct (negb (user st)), ok; simpl; auto.
Qed.

Lemma writtenContributors_cell currentYear st b c new c' :
  goodStore (contributions st) ->
  cellContribution (writtenContributors currentYear st b c new) c'
  = if String.eqb c' c then new
    else cellContribution (contributionDataOf currentYear st b) c'.
Proof.
  intros G. unfold writtenContributors, contributionDataOf.
  destruct (get (contributions st) (contributionId currentYear b))
    as [old|] eqn:E.
  - destruct (contributors old) as [stored|] eqn:Ec.
    + destruct (G _ _ _ E Ec) as [W _].
      unfold cellContribution at 1.
      rewrite get_mergeContributors by (apply wf_set, W).
      destruct (String.eqb_spec c' c) as [->|N].
      * rewrite get_set_same. reflexivity.
      * rewrite get_set_other by congruence. unfold cellContribution.
        destruct (get stored c'); reflexivity.
    + unfold cellContribution. simpl.
      rewrite (String.eqb_sym c c').
      destruct (String.eqb c' c); reflexivity.
  - unfold cellContribution at 1.
    destruct (String.eqb_spec c' c) as [->|N].
    + rewrite get_set_same. reflexivity.
    + rewrite get_set_other by congruence.
      apply cellContribution_lazy.
Qed.

Lemma writtenContributors_good currentYear st b c new :
  goodStore (contributions st) -> goodEntry new ->
  goodMap (writtenContributors currentYear st b c new).
Proof.
  intros G Hn. unfold writtenContributors.
  destruct (get (contributions st) (contributionId currentYear b))
    as [old|] eqn:E.
  - destruct (contributors old) as [stored|] eqn:Ec.
    + destruct (G _ _ _ E Ec) as [W Hs].
      split; [apply wf_mergeContributors, W|].
      intros k v. rewrite get_mergeContributors by (apply wf_set, W).
      destruct (String.eqb_spec c k) as [<-|N].
      * rewrite get_set_same. intros [= <-]. exact Hn.
      * rewrite get_set_other by exact N.
        destruct (get stored k) eqn:Ek; intros [= <-]; eauto.
    + apply goodMap_set; [apply goodMap_nil|exact Hn].
  - apply goodMap_set; [|exact Hn].
    apply (lazy_fold_good (coworkers st) []), goodMap_nil.
Qed.

(** After a successful write the pair written holds the new entry and
    every other pair shows what it showed. *)
Lemma pairContribution_update currentYear st b c new b' c' :
  goodStore (contributions st) -> user st = true ->
  pairContribution currentYear (updateContribution currentYear true st b c new)
                   b' c'
  = if String.eqb b' b && String.eqb c' c then new
    else pairContribution currentYear st b' c'.
Proof.
  intros G U. unfold pairContribution.
  unfold contributionDataOf at 1.
  rewrite (updateContribution_written _ _ _ _ _ U).
  destruct (String.eqb_spec b' b) as [->|N]; simpl.
  - rewrite get_set_same. simpl. apply writtenContributors_cell, G.
  - rewrite get_set_other
      by (intros E; apply contributionId_inj in E; congruence).
    reflexivity.
Qed.

Lemma goodStore_update currentYear ok st b c new :
  goodStore (contributions st) -> goodEntry new ->
  goodStore (contributions (updateContribution currentYear ok st b c new)).
Proof.
  intros G Hn.
  destruct (user st) eqn:U, ok;
    try (rewrite updateContribution_skipped by auto; exact G).
  rewrite (updateContribution_written _ _ _ _ _ U).
  intros docId doc cs.
  destruct (String.eqb_spec (contributionId currentYear b) docId) as [<-|N].
  - rewrite get_set_same. intros [= <-]. simpl. intros [= <-].
    apply writtenContributors_good; assumption.
  - rewrite get_set_other by exact N. apply G.
Qed.

Lemma pairContribution_good currentYear st b c :
  goodStore (contributions st) ->
  goodEntry (pairContribution currentYear st b c).
Proof.
  intros G. unfold pairContribution, contributionDataOf, cellContribution.
  destruct (get (contributions st) (contributionId currentYear b))
    as [doc|] eqn:E; [|apply goodEntry_unpaidZero].
  destruct (contributors doc) as [cs|] eqn:Ec; [|apply goodEntry_unpaidZero].
  destruct (get cs c) as [v|] eqn:Ev; [|apply goodEntry_unpaidZero].
  destruct (G _ _ _ E Ec) as [_ H]. eauto.
Qed.

(** ** Sessions *)

Section Steps.
Variable currentYear : Z.
Variable parseFloat : string -> number.

Lemma pairContribution_ext st st' b c :
  contributions st' = contributions st ->
  pairContribution currentYear st' b c = pairContribution currentYear st b c.
Proof.
  unfold pairContribution, contributionDataOf. intros ->. reflexivity.
Qed.

Lemma oneEdge_same st st' :
  contributions st' = contributions st -> oneEdge currentYear st st'.
Proof. intros E b c. left. apply pairContribution_ext, E. Qed.

Lemma oneEdge_ext st st1 st2 :
  contributions st2 = contributions st1 ->
  oneEdge currentYear st st1 -> oneEdge currentYear st st2.
Proof.
  intros E H b c. rewrite (pairContribution_ext st1 st2 b c E). apply H.
Qed.

(** A write to a pair whose new status follows its status. *)
Lemma update_oneEdge ok st b c new :
  goodStore (contributions st) ->
  cycleEdge (status (pairContribution currentYear st b c)) (status new) ->
  oneEdge currentYear st (updateContribution currentYear ok st b c new).
Proof.
  intros G Hedge.
  destruct (user st) eqn:U, ok;
    try (rewrite updateContribution_skipped by auto;
         apply oneEdge_same; reflexivity).
  intros b' c'.
  rewrite (pairContribution_update _ _ _ _ _ _ _ G U).
  destruct (String.eqb_spec b' b) as [->|]; simpl; [|left; reflexivity].
  destruct (String.eqb_spec c' c) as [->|]; [|left; reflexivity].
  right. exact Hedge.
Qed.

Lemma update_keeps_others ok st b c new b' c' :
  goodStore (contributions st) ->
  status (pairContribution currentYear st b' c')
  <> status (pairContribution currentYear st b c) ->
  pairContribution currentYear (updateContribution currentYear ok st b c new)
                   b' c'
  = pairContribution currentYear st b' c'.
Proof.
  intros G N.
  destruct (user st) eqn:U, ok;
    try (rewrite updateContribution_skipped by auto; reflexivity).
  rewrite (pairContribution_update _ _ _ _ _ _ _ G U).
  destruct (String.eqb_spec b' b) as [->|]; simpl; [|reflexivity].
  destruct (String.eqb_spec c' c) as [->|]; [|reflexivity].
  contradiction.
Qed.

Lemma modalRendered_update ok st b c new :
  modalRendered (updateContribution currentYear ok st b c new)
  = modalRendered st.
Proof.
  unfold modalRendered.
  destruct (updateContribution_modal currentYear ok st b c new)
    as (-> & -> & _). reflexivity.
Qed.

Lemma amountOrZero_positive c :
  gt (amount c) zero = true -> amountOrZero (Some c) = amount c.
Proof.
  intros H. unfold amountOrZero. rewrite (gt_zero_truthy _ H). reflexivity.
Qed.

(** The click on a cell, by the status the cell shows. *)
Lemma click_unpaid ok st b c :
  status (pairContribution currentYear st b c) = "unpaid" ->
  step currentYear parseFloat st (ClickCell b c ok)
  = setModal st true (Some (b, c)).
Proof.
  intros E. unfold step, handleContributionClick, statusOrUnpaid.
  fold (pairContribution currentYear st b c).
  rewrite E. reflexivity.
Qed.

Lemma click_pledged ok st b c :
  status (pairContribution currentYear st b c) = "pledged" ->
  step currentYear parseFloat st (ClickCell b c ok)
  = updateContribution currentYear ok st b c
      (mkContribution
         (amountOrZero (Some (pairContribution currentYear st b c))) "paid").
Proof.
  intros E. unfold step, handleContributionClick, statusOrUnpaid.
  fold (pairContribution currentYear st b c).
  rewrite E. reflexivity.
Qed.

Lemma click_paid ok st b c :
  status (pairContribution currentYear st b c) = "paid" ->
  step currentYear parseFloat st (ClickCell b c ok)
  = updateContribution currentYear ok st b c (mkContribution zero "unpaid").
Proof.
  intros E. unfold step, handleContributionClick, statusOrUnpaid.
  fold (pairContribution currentYear st b c).
  rewrite E. reflexivity.
Qed.

(** The prompt stays for an unpaid pair across a write to a pair that
    is not unpaid. *)
Lemma prompt_kept ok st b c new :
  sessionInv currentYear st ->
  status (pairContribution currentYear st b c) <> "unpaid" ->
  modalRendered (updateContribution currentYear ok st b c new) = true ->
  forall b' c',
    contributionTarget (updateContribution currentYear ok st b c new)
    = Some (b', c') ->
    status (pairContribution currentYear
              (updateContribution currentYear ok st b c new) b' c')
    = "unpaid".
Proof.
  intros [G M] N. rewrite modalRendered_update. intros R b' c'.
  destruct (updateContribution_modal currentYear ok st b c new)
    as (_ & -> & _).
  intros T. specialize (M R b' c' T).
  rewrite update_keeps_others; [exact M|exact G|]. congruence.
Qed.

Lemma step_sessionInv st ev :
  sessionInv currentYear st ->
  sessionInv currentYear (step currentYear parseFloat st ev)
  /\ oneEdge currentYear st (step currentYear parseFloat st ev).
Proof.
  intros Inv. pose proof Inv as [G M].
  assert (Same : sessionInv currentYear st /\ oneEdge currentYear st st)
    by (split; [exact Inv|apply oneEdge_same; reflexivity]).
  destruct ev as [b c ok|amountText ok|].
  - (* a click on the cell of (b, c) *)
    destruct (pairContribution_good currentYear st b c G)
      as [[Es Ea]|[[Es Ea]|[Es Ea]]].
    + rewrite (click_unpaid ok st b c Es).
      split; [split; [exact G|]|apply oneEdge_same; reflexivity].
      simpl. intros _ b' c' [= <- <-]. exact Es.
    + rewrite (click_pledged ok st b c Es).
      rewrite (amountOrZero_positive _ Ea).
      split; [split|].
      * apply goodStore_update; [exact G|]. right. right. auto.
      * apply prompt_kept; [exact Inv|]. rewrite Es. discriminate.
      * apply update_oneEdge; [exact G|]. rewrite Es. constructor.
    + rewrite (click_paid ok st b c Es).
      split; [split|].
      * apply goodStore_update; [exact G|apply goodEntry_unpaidZero].
      * apply prompt_kept; [exact Inv|]. rewrite Es. discriminate.
      * apply update_oneEdge; [exact G|]. rewrite Es. constructor.
  - (* the save button of the prompt *)
    unfold step.
    destruct (modalRendered st) eqn:R; [|exact Same].
    unfold ContributionModal_handleSave.
    destruct (negb (isNaN (parseFloat amountText))
              && gt (parseFloat amountText) zero) eqn:V.
    + apply andb_true_iff in V. destruct V as [_ Vg].
      unfold handlePledgeContribution.
      destruct (contributionTarget st) as [[tb tc]|] eqn:T.
      * split; [split|].
        -- simpl. apply goodStore_update; [exact G|]. right. left. auto.
        -- simpl. discriminate.
        -- apply (oneEdge_ext st
                    (updateContribution currentYear ok st tb tc
                       (mkContribution (parseFloat amountText) "pledged")));
             [reflexivity|].
           apply update_oneEdge; [exact G|].
           rewrite (M eq_refl tb tc eq_refl). constructor.
      * split; [split; [exact G|simpl; discriminate]|].
        apply oneEdge_same. reflexivity.
    + split; [split; [exact G|simpl; discriminate]|].
      apply oneEdge_same. reflexivity.
  - (* the cancel and close buttons of the prompt *)
    unfold step.
    destruct (modalRendered st) eqn:R; [|exact Same].
    split; [split; [exact G|simpl; discriminate]|].
    apply oneEdge_same. reflexivity.
Qed.

Lemma initial_sessionInv u org cws :
  sessionInv currentYear (initialState u org cws).
Proof.
  split.
  - intros docId doc cs H. discriminate.
  - simpl. discriminate.
Qed.

Lemma run_sessionInv st evs :
  sessionInv currentYear st ->
  sessionInv currentYear (run currentYear parseFloat st evs).
Proof.
  revert st. induction evs as [|ev evs IH]; intros st H; simpl;
    [exact H | apply IH, step_sessionInv, H].
Qed.

Lemma session_sessionInv u org cws evs :
  sessionInv currentYear (session currentYear parseFloat u org cws evs).
Proof. apply run_sessionInv, initial_sessionInv. Qed.

End Steps.

Lemma session_snoc currentYear parseFloat u org cws evs ev :
  session currentYear parseFloat u org cws (evs ++ [ev])
  = step currentYear parseFloat
         (session currentYear parseFloat u org cws evs) ev.
Proof. unfold session, run. rewrite fold_left_app. reflexivity. Qed.

Lemma step_user currentYear parseFloat st ev :
  user (step currentYear parseFloat st ev) = user st.
Proof.
  destruct ev as [b c ok|amountText ok|]; simpl.
  - unfold handleContributionClick.
    repeat match goal with
           | |- context [if ?x then _ else _] => destruct x
           end; try reflexivity;
      apply updateContribution_modal.
  - destruct (modalRendered st); [|reflexivity].
    unfold ContributionModal_handleSave, handlePledgeContribution.
    destruct (_ && _); [|reflexivity].
    destruct (contributionTarget st) as [[tb tc]|]; [|reflexivity].
    simpl. apply updateContribution_modal.
  - destruct (modalRendered st); reflexivity.
Qed.

Lemma session_user currentYear parseFloat u org cws evs :
  user (session currentYear parseFloat u org cws evs) = u.
Proof.
  unfold session.
  assert (H : forall st, user (run currentYear parseFloat st evs) = user st).
  { induction evs as [|ev evs IH]; intros st; simpl; [reflexivity|].
    rewrite IH. apply step_user. }
  rewrite H. reflexivity.
Qed.

Lemma pairStatus_status currentYear st b c :
  goodStore (contributions st) ->
  pairStatus currentYear st b c = status (pairContribution currentYear st b c).
Proof.
  intros G. unfold pairStatus.
  apply goodEntry_status, pairContribution_good, G.
Qed.

(** The prompt opened by a click on an unpaid pair, then saved with an
    accepted amount, records the pledge. *)
Lemma pledge_after_click currentYear parseFloat st b c okc amountText :
  goodStore (contributions st) -> user st = true ->
  status (pairContribution currentYear st b c) = "unpaid" ->
  acceptedAmount (parseFloat amountText) = true ->
  pairContribution currentYear
    (step currentYear parseFloat
       (step currentYear parseFloat st (ClickCell b c okc))
       (ModalSave amountText true)) b c
  = mkContribution (parseFloat amountText) "pledged".
Proof.
  intros G U Es V.
  rewrite (click_unpaid currentYear parseFloat okc st b c Es).
  unfold step, ContributionModal_handleSave, handlePledgeContribution.
  unfold acceptedAmount in V. simpl. rewrite V.
  rewrite (pairContribution_ext currentYear
             (updateContribution currentYear true (setModal st true (Some (b, c)))
                b c (mkContribution (parseFloat amountText) "pledged")))
    by reflexivity.
  rewrite pairContribution_update by assumption.
  rewrite !String.eqb_refl. reflexivity.
Qed.

(** C1. In a session every pair starts unpaid with amount 0, its status
    is always one of unpaid, pledged and paid, and an interaction leaves
    it or moves it along one edge of the cycle unpaid, pledged, paid,
    unpaid: never from unpaid to paid, never from pledged to unpaid.
    Each edge is taken: the click on an unpaid pair followed by the
    confirmation of an accepted amount pledges it, the click on a pledged
    pair pays it, and the click on a paid pair resets it. *)
Theorem contribution_status_cycle currentYear parseFloat u org cws evs ev b c :
  pairContribution currentYear (initialState u org cws) b c = unpaidZero
  /\ (statusAfter currentYear parseFloat u org cws evs b c = "unpaid"
      \/ statusAfter currentYear parseFloat u org cws evs b c = "pledged"
      \/ statusAfter currentYear parseFloat u org cws evs b c = "paid")
  /\ (statusAfter currentYear parseFloat u org cws (evs ++ [ev]) b c
      = statusAfter currentYear parseFloat u org cws evs b c
      \/ cycleEdge (statusAfter currentYear parseFloat u org cws evs b c)
           (statusAfter currentYear parseFloat u org cws (evs ++ [ev]) b c))
  /\ (statusAfter currentYear parseFloat u org cws evs b c = "unpaid" ->
      statusAfter currentYear parseFloat u org cws (evs ++ [ev]) b c <> "paid")
  /\ (statusAfter currentYear parseFloat u org cws evs b c = "pledged" ->
      statusAfter currentYear parseFloat u org cws (evs ++ [ev]) b c
      <> "unpaid")
  /\ (u = true ->
      (statusAfter currentYear parseFloat u org cws evs b c = "unpaid" ->
       forall ok amountText,
         acceptedAmount (parseFloat amountText) = true ->
         statusAfter currentYear parseFloat u org cws
           (evs ++ [ClickCell b c ok; ModalSave amountText true]) b c
         = "pledged")
      /\ (statusAfter currentYear parseFloat u org cws evs b c = "pledged" ->
          statusAfter currentYear parseFloat u org cws
            (evs ++ [ClickCell b c true]) b c = "paid")
      /\ (statusAfter currentYear parseFloat u org cws evs b c = "paid" ->
          statusAfter currentYear parseFloat u org cws
            (evs ++ [ClickCell b c true]) b c = "unpaid")).
Proof.
  unfold statusAfter.
  pose proof (session_sessionInv currentYear parseFloat u org cws evs)
    as Inv.
  pose proof (session_user currentYear parseFloat u org cws evs) as U.
  set (S := session currentYear parseFloat u org cws evs) in *.
  destruct (step_sessionInv currentYear parseFloat S ev Inv) as [Inv' E].
  destruct Inv as [G M]. destruct Inv' as [G' _].
  rewrite session_snoc. fold S.
  rewrite (pairStatus_status _ S b c G).
  rewrite (pairStatus_status _ _ b c G').
  assert (C : status (pairContribution currentYear
                        (step currentYear parseFloat S ev) b c)
              = status (pairContribution currentYear S b c)
              \/ cycleEdge (status (pairContribution currentYear S b c))
                   (status (pairContribution currentYear
                              (step currentYear parseFloat S ev) b c))).
  { destruct (E b c) as [->|H]; auto. }
  split; [reflexivity|].
  split; [apply goodEntry_status, pairContribution_good, G|].
  split; [exact C|].
  split; [|split].
  - intros Es. rewrite Es in C.
    destruct C as [->|H]; [discriminate|]. inversion H. congruence.
  - intros Es. rewrite Es in C.
    destruct C as [->|H]; [discriminate|]. inversion H. congruence.
  - intros ->. split; [|split].
    + intros Es ok amountText V.
      replace (evs ++ [ClickCell b c ok; ModalSave amountText true])
        with ((evs ++ [ClickCell b c ok]) ++ [ModalSave amountText true])
        by (rewrite <- app_assoc; reflexivity).
      rewrite !session_snoc. fold S. unfold pairStatus.
      rewrite (pledge_after_click _ _ S b c ok amountText G U Es V).
      reflexivity.
    + intros Es. rewrite session_snoc. fold S. unfold pairStatus.
      rewrite (click_pledged currentYear parseFloat true S b c Es).
      rewrite pairContribution_update by assumption.
      rewrite !String.eqb_refl. reflexivity.
    + intros Es. rewrite session_snoc. fold S. unfold pairStatus.
      rewrite (click_paid currentYear parseFloat true S b c Es).
      rewrite pairContribution_update by assumption.
      rewrite !String.eqb_refl. reflexivity.
Qed.

(** ** The prompt *)

Lemma save_rejected currentYear parseFloat st ok amountText :
  acceptedAmount (parseFloat amountText) = false ->
  contributions (step currentYear parseFloat st (ModalSave amountText ok))
  = contributions st.
Proof.
  intros V. unfold step, ContributionModal_handleSave.
  unfold acceptedAmount in V. rewrite V.
  destruct (modalRendered st); reflexivity.
Qed.

Lemma save_failed currentYear parseFloat st amountText :
  contributions (step currentYear parseFloat st (ModalSave amountText false))
  = contributions st.
Proof.
  unfold step, ContributionModal_handleSave, handlePledgeContribution.
  destruct (modalRendered st); [|reflexivity].
  destruct (_ && _); [|reflexivity].
  destruct (contributionTarget st) as [[tb tc]|]; [|reflexivity].
  simpl. rewrite updateContribution_skipped by auto. reflexivity.
Qed.

Lemma close_keeps currentYear parseFloat st :
  contributions (step currentYear parseFloat st ModalClose) = contributions st.
Proof. unfold step. destruct (modalRendered st); reflexivity. Qed.

(** C5. The click on an unpaid pair writes nothing and opens the prompt
    for that pair. Saving the prompt with a text that parses to a number
    that is not NaN and is greater than 0 stores the pair as pledged with
    exactly the parsed amount; saving it with a text that parses to NaN
    or to a number that is not positive, closing it, or a failed write,
    leave the stored contributions as they were. *)
Theorem pledge_needs_confirmed_positive_amount
    currentYear parseFloat u org cws evs b c ok ok' amountText :
  statusAfter currentYear parseFloat u org cws evs b c = "unpaid" ->
  contributions (session currentYear parseFloat u org cws
                   (evs ++ [ClickCell b c ok]))
  = contributions (session currentYear parseFloat u org cws evs)
  /\ modalRendered (session currentYear parseFloat u org cws
                      (evs ++ [ClickCell b c ok])) = true
  /\ contributionTarget (session currentYear parseFloat u org cws
                           (evs ++ [ClickCell b c ok])) = Some (b, c)
  /\ (isNaN (parseFloat amountText) = false ->
      gt (parseFloat amountText) zero = true ->
      u = true ->
      pairContribution currentYear
        (session currentYear parseFloat u org cws
           (evs ++ [ClickCell b c ok; ModalSave amountText true])) b c
      = mkContribution (parseFloat amountText) "pledged")
  /\ (isNaN (parseFloat amountText) = true
      \/ gt (parseFloat amountText) zero = false ->
      contributions (session currentYear parseFloat u org cws
                       (evs ++ [ClickCell b c ok; ModalSave amountText ok']))
      = contributions (session currentYear parseFloat u org cws evs))
  /\ contributions (session currentYear parseFloat u org cws
                      (evs ++ [ClickCell b c ok; ModalSave amountText false]))
     = contributions (session currentYear parseFloat u org cws evs)
  /\ contributions (session currentYear parseFloat u org cws
                      (evs ++ [ClickCell b c ok; ModalClose]))
     = contributions (session currentYear parseFloat u org cws evs).
Proof.
  unfold statusAfter. intros Es.
  destruct (session_sessionInv currentYear parseFloat u org cws evs)
    as [G _].
  pose proof (session_user currentYear parseFloat u org cws evs) as U.
  assert (A : forall ev,
             (evs ++ [ClickCell b c ok; ev])
             = ((evs ++ [ClickCell b c ok]) ++ [ev]))
    by (intros; rewrite <- app_assoc; reflexivity).
  rewrite !A, !session_snoc.
  set (S := session currentYear parseFloat u org cws evs) in *.
  rewrite (pairStatus_status _ S b c G) in Es.
  pose proof (click_unpaid currentYear parseFloat ok S b c Es) as Click.
  split; [rewrite Click; reflexivity|].
  split; [rewrite Click; reflexivity|].
  split; [rewrite Click; reflexivity|].
  split; [|split; [|split]].
  - intros Vn Vg ->. apply pledge_after_click; try assumption.
    unfold acceptedAmount. rewrite Vn, Vg. reflexivity.
  - intros V. rewrite save_rejected; [rewrite Click; reflexivity|].
    unfold acceptedAmount. destruct V as [-> | ->];
      [reflexivity | apply andb_false_r].
  - rewrite save_failed, Click. reflexivity.
  - rewrite close_keeps, Click. reflexivity.
Qed.

(** ** The cell *)

(** C7, as the code has it. A cell shows the stored amount exactly when
    that amount is greater than 0, whatever the status. In a session an
    unpaid pair has amount 0 stored or assumed, so its cell shows no
    amount. *)
Theorem cell_shows_amount_when_positive
    currentYear parseFloat u org cws evs b c (contribution : Contribution) :
  cellAmount (renderCell contribution)
  = (if gt (amount contribution) zero then Some (amount contribution)
     else None)
  /\ (forall s,
        cellAmount (renderCell (mkContribution (amount contribution) s))
        = cellAmount (renderCell contribution))
  /\ (statusAfter currentYear parseFloat u org cws evs b c = "unpaid" ->
      amount (pairContribution currentYear
                (session currentYear parseFloat u org cws evs) b c) = zero
      /\ renderCell (pairContribution currentYear
                       (session currentYear parseFloat u org cws evs) b c)
         = mkCell "unpaid" None).
Proof.
  split; [reflexivity|]. split; [reflexivity|].
  unfold statusAfter. intros Es.
  destruct (session_sessionInv currentYear parseFloat u org cws evs)
    as [G _].
  rewrite (pairStatus_status _ _ b c G) in Es.
  pose proof (pairContribution_good currentYear _ b c G) as H.
  destruct H as [[_ Ea]|[[E _]|[E _]]]; try congruence.
  split; [exact Ea|]. unfold renderCell. rewrite Ea, Es. reflexivity.
Qed.

(** C7, as the specification words it, fails: an entry stored as unpaid
    with amount 500 is shown with its amount. *)
Lemma unpaid_cell_shows_stored_amount :
  renderCell
    (cellContribution [("X", mkContribution (Fin 500) "unpaid")] "X")
  = mkCell "unpaid" (Some (Fin 500)).
Proof. reflexivity. Qed.

(** ** Deleting a coworker *)

Lemma get_stripAll coworkerId col docId :
  get (stripAll coworkerId col) docId
  = option_map (stripDoc coworkerId) (get col docId).
Proof.
  induction col as [|[k d] col IH]; simpl; [reflexivity|].
  destruct (String.eqb k docId); [reflexivity|exact IH].
Qed.

Lemma keys_stripAll coworkerId col : keys (stripAll coworkerId col) = keys col.
Proof.
  unfold keys, stripAll. rewrite map_map. apply map_ext. reflexivity.
Qed.

Lemma strippedUpdates_apply cws coworkerId (suf pre : object ContributionDoc) :
  wf (pre ++ suf) ->
  applyOps (mkStore cws (pre ++ suf)) (strippedUpdates suf coworkerId)
  = Some (mkStore cws (pre ++ stripAll coworkerId suf)).
Proof.
  revert pre. induction suf as [|[k d] suf IH]; intros pre W; simpl.
  - reflexivity.
  - pose proof (wf_app_fresh pre k d suf W) as Fresh.
    assert (Next : forall d',
               wf ((pre ++ [(k, d')]) ++ suf)
               /\ (pre ++ (k, d') :: suf) = ((pre ++ [(k, d')]) ++ suf)).
    { intros d'. rewrite <- app_assoc. simpl. split; [|reflexivity].
      unfold wf, keys in *. rewrite map_app in *. exact W. }
    unfold stripDoc at 1. simpl.
    destruct (contributors d) as [m|] eqn:Em;
      [destruct (get m coworkerId) as [e|] eqn:Ee|].
    + simpl. rewrite get_app_fresh by exact Fresh. simpl.
      rewrite String.eqb_refl. rewrite set_app_fresh by exact Fresh. simpl.
      rewrite String.eqb_refl.
      destruct (Next (mkContributionDoc (birthdayCoworkerId d) (year d)
                        (@Some Contributors (delete m coworkerId))))
        as [W' E'].
      rewrite E', (IH _ W'), <- app_assoc. reflexivity.
    + destruct (Next d) as [W' E'].
      rewrite E', (IH _ W'), <- app_assoc. reflexivity.
    + destruct (Next d) as [W' E'].
      rewrite E', (IH _ W'), <- app_assoc. reflexivity.
Qed.

Lemma deleteBatch_apply st coworkerId :
  wf (contributions st) ->
  applyOps (mkStore (coworkers st) (contributions st))
           (deleteBatch st coworkerId)
  = Some (mkStore
            (filter (fun cw => negb (String.eqb (id cw) coworkerId))
                    (coworkers st))
            (stripAll coworkerId (contributions st))).
Proof.
  intros W. unfold deleteBatch. simpl.
  apply (strippedUpdates_apply _ coworkerId (contributions st) []), W.
Qed.

Lemma stripDoc_spec coworkerId d :
  birthdayCoworkerId (stripDoc coworkerId d) = birthdayCoworkerId d
  /\ year (stripDoc coworkerId d) = year d
  /\ (forall m, contributors d = Some m ->
        exists m', contributors (stripDoc coworkerId d) = Some m'
                   /\ get m' coworkerId = None
                   /\ forall k, k <> coworkerId -> get m' k = get m k)
  /\ (contributors d = None -> stripDoc coworkerId d = d)
  /\ ((forall m, contributors d = Some m -> get m coworkerId = None) ->
      stripDoc coworkerId d = d).
Proof.
  unfold stripDoc.
  destruct (contributors d) as [m|] eqn:Em;
    [destruct (get m coworkerId) as [e|] eqn:Ee|]; simpl;
    (split; [reflexivity|]); (split; [reflexivity|]);
    (split; [|split]); try (intros; reflexivity); try discriminate.
  - intros m0 [= <-]. exists (delete m coworkerId).
    split; [reflexivity|]. split; [apply get_delete_same|].
    intros k N. apply get_delete_other. congruence.
  - intros H. specialize (H m eq_refl). congruence.
  - intros m0 [= <-]. exists m. auto.
Qed.

(** C9. For the organizer, the delete either fails as a whole and leaves
    the state as it was, or removes the coworker and, in every
    contribution document, the entry of that coworker: the other entries,
    the other fields, the set and the order of the documents are kept,
    and a document without such an entry is left untouched. The state
    after is the one the whole batch gives, or the state before. *)
Theorem delete_coworker_strips_every_reference reachable st coworkerId :
  isOrganizer st = true ->
  wf (contributions st) ->
  (reachable = false -> handleDeleteCoworker reachable st coworkerId = st)
  /\ (reachable = true ->
      coworkers (handleDeleteCoworker reachable st coworkerId)
      = filter (fun cw => negb (String.eqb (id cw) coworkerId)) (coworkers st)
      /\ (forall cw,
            In cw (coworkers (handleDeleteCoworker reachable st coworkerId))
            <-> In cw (coworkers st) /\ id cw <> coworkerId)
      /\ keys (contributions (handleDeleteCoworker reachable st coworkerId))
         = keys (contributions st)
      /\ (forall docId,
            get (contributions (handleDeleteCoworker reachable st coworkerId))
                docId
            = option_map (stripDoc coworkerId) (get (contributions st) docId)))
  /\ (forall d,
        birthdayCoworkerId (stripDoc coworkerId d) = birthdayCoworkerId d
        /\ year (stripDoc coworkerId d) = year d
        /\ (forall m, contributors d = Some m ->
              exists m', contributors (stripDoc coworkerId d) = Some m'
                         /\ get m' coworkerId = None
                         /\ forall k, k <> coworkerId -> get m' k = get m k)
        /\ (contributors d = None -> stripDoc coworkerId d = d)
        /\ ((forall m, contributors d = Some m -> get m coworkerId = None) ->
            stripDoc coworkerId d = d))
  /\ (handleDeleteCoworker reachable st coworkerId = st
      \/ applyOps (mkStore (coworkers st) (contributions st))
                  (deleteBatch st coworkerId)
         = Some (mkStore
                   (coworkers (handleDeleteCoworker reachable st coworkerId))
                   (contributions
                      (handleDeleteCoworker reachable st coworkerId)))).
Proof.
  intros O W.
  pose proof (deleteBatch_apply st coworkerId W) as A.
  assert (F : handleDeleteCoworker false st coworkerId = st)
    by (destruct st; simpl in O; subst; reflexivity).
  assert (T : handleDeleteCoworker true st coworkerId
              = mkAppState (user st) (isOrganizer st)
                  (filter (fun cw => negb (String.eqb (id cw) coworkerId))
                          (coworkers st))
                  (stripAll coworkerId (contributions st))
                  (isContributionModalOpen st) (contributionTarget st))
    by (unfold handleDeleteCoworker, commit; rewrite O, A; reflexivity).
  split; [intros ->; exact F|].
  split; [|split; [apply stripDoc_spec|]].
  - intros ->. rewrite T. simpl.
    split; [reflexivity|]. split; [|split].
    + intros cw. rewrite filter_In, negb_true_iff.
      destruct (String.eqb_spec (id cw) coworkerId); intuition congruence.
    + apply keys_stripAll.
    + intros docId. apply get_stripAll.
  - destruct reachable; [right|left; exact F].
    rewrite T. simpl. exact A.
Qed.

(** ** The recipient in a record created on the first change *)

Lemma lazy_record_keys currentYear st b c new :
  user st = true ->
  get (contributions st) (contributionId currentYear b) = None ->
  exists cs,
    get (contributions (updateContribution currentYear true st b c new))
        (contributionId currentYear b)
    = Some (mkContributionDoc b currentYear (Some cs))
    /\ forall k, In k (keys cs) <-> k = c \/ In k (map id (coworkers st)).
Proof.
  intros U E. rewrite (updateContribution_written _ _ _ _ _ U).
  rewrite get_set_same. unfold writtenContributors. rewrite E.
  eexists. split; [reflexivity|].
  intros k. rewrite keys_set. unfold lazyContributors.
  rewrite lazy_fold_keys. simpl. tauto.
Qed.

(** ** Worked examples *)

(** C6 fails on the code. The first change for R's birthday creates the
    record from the whole list of coworkers, so R is a key of the
    contributors of R's own record, while the card of R leaves R out of
    its cells. *)
Theorem lazy_record_holds_recipient_key :
  contributions exampleAfterPledge
  = [("R_2025",
      mkContributionDoc "R" 2025
        (Some [("R", unpaidZero);
               ("X", mkContribution (Fin 100) "pledged");
               ("Y", unpaidZero)]))]
  /\ map id (cardContributors exampleAfterPledge "R") = ["X"; "Y"].
Proof. split; reflexivity. Qed.

(** C5 at work: X is unpaid on R's card, clicks, and confirms 250. *)
Lemma pledge_needs_confirmed_positive_amount_witness :
  statusAfter 2025 parseFloatOnDigits true true exampleCoworkers [] "R" "X"
  = "unpaid"
  /\ pairContribution 2025
       (session 2025 parseFloatOnDigits true true exampleCoworkers
          ([] ++ [ClickCell "R" "X" true; ModalSave "250" true])) "R" "X"
     = mkContribution (parseFloatOnDigits "250") "pledged".
Proof.
  split; [reflexivity|].
  destruct (pledge_needs_confirmed_positive_amount 2025 parseFloatOnDigits
              true true exampleCoworkers [] "R" "X" true true "250" eq_refl)
    as (_ & _ & _ & H & _).
  exact (H eq_refl eq_refl eq_refl).
Defined.

(** The scenario of the specification: X paid 500 and Y pledged 200 for
    R, among four coworkers. *)
Example summary_scenario :
  paidCount [("X", mkContribution (Fin 500) "paid");
             ("Y", mkContribution (Fin 200) "pledged")] = 1%nat
  /\ totalAmount [("X", mkContribution (Fin 500) "paid");
                  ("Y", mkContribution (Fin 200) "pledged")] = Fin 500
  /\ totalContributors
       (mkCoworker "Z" "Zoe" None :: exampleCoworkers) = 3%nat
  /\ progress 1 3 = Fin (100 # 3).
Proof. repeat split. Qed.

(** Deleting X: X's document and X's two entries go, the rest stays; a
    commit that fails changes nothing. *)
Example delete_scenario :
  handleDeleteCoworker true exampleStore "X"
  = mkAppState true true
      [ mkCoworker "R" "Rosa" (Some 645408000000%Z);
        mkCoworker "Y" "Yara" None ]
      [("R_2025",
        mkContributionDoc "R" 2025
          (Some [("Y", mkContribution (Fin 200) "pledged")]));
       ("Y_2025", mkContributionDoc "Y" 2025 (Some [("R", unpaidZero)]));
       ("X_2025",
        mkContributionDoc "X" 2025
          (Some [("R", mkContribution (Fin 70) "paid")]))]
      false None
  /\ handleDeleteCoworker false exampleStore "X" = exampleStore.
Proof. split; reflexivity. Qed.

(** C9 at work on the store of the scenario, for the record of R. *)
Lemma delete_coworker_strips_every_reference_witness :
  isOrganizer exampleStore = true
  /\ wf (contributions exampleStore)
  /\ get (contributions (handleDeleteCoworker true exampleStore "X")) "R_2025"
     = option_map (stripDoc "X") (get (contributions exampleStore) "R_2025").
Proof.
  assert (W : wf (contributions exampleStore)).
  { unfold wf. simpl. repeat constructor; simpl; intuition discriminate. }
  split; [reflexivity|]. split; [exact W|].
  destruct (delete_coworker_strips_every_reference true exampleStore "X"
              eq_refl W) as (_ & H & _).
  destruct (H eq_refl) as (_ & _ & _ & G).
  exact (G "R_2025").
Defined.

End Contributions.

(* ================================================================== *)
(** * More on the resolved date: month, date and distance *)
(* ================================================================== *)

Module ResolvedDate.
Import JSDate JSArray Birthdays.
Local Open Scope Z_scope.

(** The number of days of month [m] (0..11); [l] is 1 in a leap year. *)
Definition DaysInMonth (m l : Z) : Z :=
  match m with
  | 1 => 28 + l
  | 3 | 5 | 8 | 10 => 30
  | _ => 31
  end.

(** The local month and date of an instant, as [getMonth] and [getDate]
    give them. *)
Definition localMonth (tza tv : Z) : Z := MonthFromTime (LocalTime tza tv).
Definition localDate (tza tv : Z) : Z := DateFromTime (LocalTime tza tv).
Definition localDay (tza tv : Z) : Z := Day (LocalTime tza tv).

Definition leapFlag (y : Z) : Z := if DaysInYear y =? 365 then 0 else 1.

(** [!!cw.birthday]. *)
Definition hasBirthday (cw : Coworker) : bool :=
  match birthday cw with Some _ => true | None => false end.

Lemma leapFlag_cases y :
  (DaysInYear y = 365 /\ leapFlag y = 0) \/ (DaysInYear y = 366 /\ leapFlag y = 1).
Proof.
  unfold leapFlag. destruct (DaysInYear_cases y) as [E|E]; rewrite E; auto.
Qed.

Lemma month_cases m :
  0 <= m <= 11 ->
  m = 0 \/ m = 1 \/ m = 2 \/ m = 3 \/ m = 4 \/ m = 5 \/ m = 6 \/
  m = 7 \/ m = 8 \/ m = 9 \/ m = 10 \/ m = 11.
Proof. lia. Qed.

Lemma DateFromTime_in_month t :
  1 <= DateFromTime t <= DaysInMonth (MonthFromTime t) (InLeapYear t).
Proof.
  unfold DateFromTime, MonthFromTime.
  pose proof (DayWithinYear_range t).
  destruct (InLeapYear_cases t) as [E|E]; rewrite E in *;
  repeat match goal with
         | |- context [if ?a <? ?b then _ else _] => destruct (Z.ltb_spec a b)
         end; unfold DaysInMonth, MonthStart; lia.
Qed.

(** The year, month and date of a day built by [MakeDay] from a month
    0..11 and a date of that month. *)
Lemma fields_of_MakeDay y m d time :
  0 <= m <= 11 -> 1 <= d <= DaysInMonth m (leapFlag y) ->
  0 <= time < msPerDay ->
  YearFromTime (MakeDate (MakeDay y m d) time) = y
  /\ MonthFromTime (MakeDate (MakeDay y m d) time) = m
  /\ DateFromTime (MakeDate (MakeDay y m d) time) = d.
Proof.
  intros Hm Hd Ht.
  set (t := MakeDate (MakeDay y m d) time).
  assert (Dt : Day t = MakeDay y m d) by (apply Day_MakeDate, Ht).
  assert (Hd31 : 1 <= d <= 31).
  { destruct (leapFlag_cases y) as [[_ L]|[_ L]]; rewrite L in Hd;
      destruct (month_cases m Hm) as [->|[->|[->|[->|[->|[->|[->|[->|[->|[->|[->| ->]]]]]]]]]]];
      unfold DaysInMonth in Hd; lia. }
  assert (Y : YearFromTime t = y).
  { apply YearFromTime_unique. rewrite Dt. apply MakeDay_in_year; assumption. }
  assert (L : InLeapYear t = leapFlag y)
    by (unfold InLeapYear, leapFlag; rewrite Y; reflexivity).
  assert (W : DayWithinYear t = MonthStart m (leapFlag y) + d - 1).
  { unfold DayWithinYear. rewrite Y, Dt. unfold MakeDay.
    replace (m / 12) with 0 by zdiv.
    replace (m mod 12) with m by zdiv.
    rewrite Z.add_0_r. fold (leapFlag y). lia. }
  assert (M : MonthFromTime t = m).
  { unfold MonthFromTime. rewrite W, L.
    destruct (leapFlag_cases y) as [[_ F]|[_ F]]; rewrite F in *;
      destruct (month_cases m Hm) as [->|[->|[->|[->|[->|[->|[->|[->|[->|[->|[->| ->]]]]]]]]]]];
      unfold DaysInMonth, MonthStart in *;
      repeat match goal with
             | |- context [if ?a <? ?b then _ else _] =>
                 destruct (Z.ltb_spec a b); try lia
             end; reflexivity. }
  split; [exact Y|]. split; [exact M|].
  unfold DateFromTime. rewrite W, M, L. lia.
Qed.

Lemma DaysInMonth_leap_le m : DaysInMonth m 0 <= DaysInMonth m 1.
Proof.
  unfold DaysInMonth.
  repeat match goal with |- context [match ?x with _ => _ end] => destruct x end;
    lia.
Qed.

Lemma leap_then_common y : DaysInYear y = 366 -> DaysInYear (y + 1) = 365.
Proof.
  unfold DaysInYear.
  destruct (Z.eqb_spec (y mod 4) 0) as [E|E]; simpl; [|discriminate].
  intros _.
  destruct (Z.eqb_spec ((y + 1) mod 4) 0) as [E'|E']; simpl; [|reflexivity].
  exfalso. zdiv.
Qed.

(** [setFullYear] on the local fields, when the local month and date
    exist in the year set. *)
Lemma setFullYear_fields tza tv y :
  localDate tza tv <= DaysInMonth (localMonth tza tv) (leapFlag y) ->
  getFullYear tza (setFullYear tza tv y) = y
  /\ localMonth tza (setFullYear tza tv y) = localMonth tza tv
  /\ localDate tza (setFullYear tza tv y) = localDate tza tv.
Proof.
  intros H. unfold getFullYear, localMonth, localDate, setFullYear in *.
  rewrite LocalTime_UTC.
  apply fields_of_MakeDay.
  - apply MonthFromTime_range.
  - split; [apply DateFromTime_range|exact H].
  - apply TimeWithinDay_range.
Qed.

(** A local month and date other than February 29 exist in every year. *)
Lemma date_in_every_year tza tv y :
  ~ (localMonth tza tv = 1 /\ localDate tza tv = 29) ->
  localDate tza tv <= DaysInMonth (localMonth tza tv) (leapFlag y).
Proof.
  unfold localMonth, localDate. intros N.
  pose proof (DateFromTime_in_month (LocalTime tza tv)) as [_ H].
  pose proof (DaysInMonth_leap_le (MonthFromTime (LocalTime tza tv))) as Hl.
  destruct (InLeapYear_cases (LocalTime tza tv)) as [E|E]; rewrite E in H;
    destruct (leapFlag_cases y) as [[_ F]|[_ F]]; rewrite F; try lia.
  destruct (Z.eq_dec (MonthFromTime (LocalTime tza tv)) 1) as [M|M].
  - rewrite M in *. unfold DaysInMonth in *. lia.
  - assert (DaysInMonth (MonthFromTime (LocalTime tza tv)) 0
            = DaysInMonth (MonthFromTime (LocalTime tza tv)) 1).
    { unfold DaysInMonth.
      destruct (MonthFromTime (LocalTime tza tv)) as [|[p|p|]|]; try reflexivity;
        try (destruct p; reflexivity). contradiction. }
    lia.
Qed.

(** February 29 set in a common year is March 1. *)
Lemma leap_day_in_common_year tza tv y :
  localMonth tza tv = 1 -> localDate tza tv = 29 -> DaysInYear y = 365 ->
  getFullYear tza (setFullYear tza tv y) = y
  /\ localMonth tza (setFullYear tza tv y) = 2
  /\ localDate tza (setFullYear tza tv y) = 1.
Proof.
  unfold getFullYear, localMonth, localDate, setFullYear.
  intros M D C. rewrite LocalTime_UTC, M, D.
  assert (F : leapFlag y = 0) by (unfold leapFlag; rewrite C; reflexivity).
  assert (E : MakeDay y 1 29 = MakeDay y 2 1).
  { unfold MakeDay.
    change (1 / 12) with 0. change (2 / 12) with 0.
    change (1 mod 12) with 1. change (2 mod 12) with 2.
    rewrite Z.add_0_r, C. change (365 =? 365) with true.
    unfold MonthStart. lia. }
  rewrite E. apply fields_of_MakeDay.
  - lia.
  - rewrite F. unfold DaysInMonth. lia.
  - apply TimeWithinDay_range.
Qed.

Lemma resolve_cases tza now b :
  (today tza now <= candidate tza now b
   /\ resolveNextBirthday tza now b = candidate tza now b)
  \/ (candidate tza now b < today tza now
      /\ resolveNextBirthday tza now b
         = setFullYear tza (candidate tza now b)
                       (getFullYear tza (today tza now) + 1)).
Proof.
  unfold resolveNextBirthday.
  destruct (Z.ltb_spec (candidate tza now b) (today tza now)); [right|left];
    auto.
Qed.

Lemma candidate_fields tza now b :
  localDate tza b
  <= DaysInMonth (localMonth tza b) (leapFlag (getFullYear tza (today tza now))) ->
  getFullYear tza (candidate tza now b) = getFullYear tza (today tza now)
  /\ localMonth tza (candidate tza now b) = localMonth tza b
  /\ localDate tza (candidate tza now b) = localDate tza b.
Proof. unfold candidate. apply setFullYear_fields. Qed.

Lemma candidate_leap_day tza now b :
  localMonth tza b = 1 -> localDate tza b = 29 ->
  DaysInYear (getFullYear tza (today tza now)) = 365 ->
  localMonth tza (candidate tza now b) = 2
  /\ localDate tza (candidate tza now b) = 1.
Proof.
  unfold candidate. intros M D C.
  apply (leap_day_in_common_year tza b _ M D C).
Qed.

(** X1. A stored birthday that is not a February 29 (in local time) is
    resolved to the same local month and date, in this year or the next. *)
Theorem resolved_date_keeps_month_and_date tza now b :
  ~ (localMonth tza b = 1 /\ localDate tza b = 29) ->
  localMonth tza (resolveNextBirthday tza now b) = localMonth tza b
  /\ localDate tza (resolveNextBirthday tza now b) = localDate tza b
  /\ (getFullYear tza (resolveNextBirthday tza now b)
      = getFullYear tza (today tza now)
      \/ getFullYear tza (resolveNextBirthday tza now b)
         = getFullYear tza (today tza now) + 1).
Proof.
  intros N.
  destruct (candidate_fields tza now b (date_in_every_year tza b _ N))
    as (Yc & Mc & Dc).
  destruct (resolve_cases tza now b) as [[_ E]|[_ E]]; rewrite E.
  - rewrite Yc, Mc, Dc. auto.
  - assert (N' : ~ (localMonth tza (candidate tza now b) = 1
                    /\ localDate tza (candidate tza now b) = 29))
      by (rewrite Mc, Dc; exact N).
    destruct (setFullYear_fields tza (candidate tza now b)
                (getFullYear tza (today tza now) + 1)
                (date_in_every_year tza _ _ N')) as (Y1 & M1 & D1).
    rewrite Y1, M1, D1, Mc, Dc. auto.
Qed.

(** X2. A stored February 29 is resolved to February 29 only when this
    year is a leap year and its February 29 is not before today; in every
    other case it is resolved to March 1: of this year when this year is
    a common year and March 1 is not before today, of next year
    otherwise, also when next year is a leap year. *)
Theorem leap_day_resolves_to_march_first tza now b :
  localMonth tza b = 1 -> localDate tza b = 29 ->
  (DaysInYear (getFullYear tza (today tza now)) = 366
   /\ today tza now <= candidate tza now b
   /\ localMonth tza (resolveNextBirthday tza now b) = 1
   /\ localDate tza (resolveNextBirthday tza now b) = 29)
  \/ (localMonth tza (resolveNextBirthday tza now b) = 2
      /\ localDate tza (resolveNextBirthday tza now b) = 1).
Proof.
  intros M D.
  destruct (leapFlag_cases (getFullYear tza (today tza now)))
    as [[C F]|[C F]].
  - (* a common year: the candidate is March 1 *)
    right.
    destruct (candidate_leap_day tza now b M D C) as (Mc & Dc).
    destruct (resolve_cases tza now b) as [[_ E]|[_ E]]; rewrite E;
      [auto|].
    assert (N : ~ (localMonth tza (candidate tza now b) = 1
                   /\ localDate tza (candidate tza now b) = 29))
      by (rewrite Mc; intros [H _]; discriminate).
    destruct (setFullYear_fields tza (candidate tza now b)
                (getFullYear tza (today tza now) + 1)
                (date_in_every_year tza _ _ N)) as (_ & M1 & D1).
    rewrite M1, D1. auto.
  - (* a leap year: the candidate is February 29 *)
    assert (H : localDate tza b
                <= DaysInMonth (localMonth tza b)
                     (leapFlag (getFullYear tza (today tza now))))
      by (rewrite M, D, F; unfold DaysInMonth; lia).
    destruct (candidate_fields tza now b H) as (Yc & Mc & Dc).
    destruct (resolve_cases tza now b) as [[G E]|[_ E]]; rewrite E.
    + left. rewrite Mc, Dc. auto.
    + right.
      destruct (leap_day_in_common_year tza (candidate tza now b)
                  (getFullYear tza (today tza now) + 1))
        as (_ & M1 & D1);
        [rewrite Mc; exact M | rewrite Dc; exact D
        | apply leap_then_common, C | auto].
Qed.

Lemma MakeDay_next_year y m d :
  0 <= m <= 11 -> MakeDay (y + 1) m d <= MakeDay y m d + 366.
Proof.
  intros Hm. unfold MakeDay.
  replace (m / 12) with 0 by zdiv.
  replace (m mod 12) with m by zdiv.
  rewrite !Z.add_0_r, DayFromYear_succ.
  fold (leapFlag (y + 1)). fold (leapFlag y).
  destruct (leapFlag_cases y) as [[C F]|[C F]]; rewrite C, F;
    destruct (leapFlag_cases (y + 1)) as [[C' F']|[C' F']]; rewrite F';
    destruct (month_cases m Hm) as [->|[->|[->|[->|[->|[->|[->|[->|[->|[->|[->| ->]]]]]]]]]]];
    unfold MonthStart; lia.
Qed.

Lemma localDay_lt tza a b : a < b -> localDay tza a <= localDay tza b.
Proof. unfold localDay, LocalTime, Day, msPerDay. intros. zdiv. Qed.

Lemma before_midnight tza now a :
  a < today tza now -> localDay tza a < localDay tza (today tza now).
Proof.
  unfold localDay. intros H.
  pose proof (TimeWithinDay_range (LocalTime tza a)).
  rewrite (instant_split tza a) in H.
  rewrite (instant_split tza (today tza now)), today_midnight in H.
  unfold msPerDay in *. nia.
Qed.

Lemma today_in_its_year tza now :
  DayFromYear (getFullYear tza (today tza now))
  <= localDay tza (today tza now).
Proof. unfold getFullYear, localDay. apply YearFromTime_bracket. Qed.

Lemma candidate_in_this_year tza now b :
  localDay tza (candidate tza now b)
  < DayFromYear (getFullYear tza (today tza now)) + 366.
Proof.
  unfold localDay, candidate.
  pose proof (setFullYear_in_year tza b (getFullYear tza (today tza now)))
    as [_ Hhi].
  rewrite DayFromYear_succ in Hhi.
  destruct (DaysInYear_cases (getFullYear tza (today tza now))); lia.
Qed.

Lemma day_a_year_later tza tv :
  localDay tza (setFullYear tza tv (getFullYear tza tv + 1))
  <= localDay tza tv + 366.
Proof.
  unfold localDay, getFullYear. rewrite setFullYear_Day.
  pose proof (MakeDay_fields (LocalTime tza tv)) as F.
  pose proof (MakeDay_next_year (YearFromTime (LocalTime tza tv))
                (MonthFromTime (LocalTime tza tv))
                (DateFromTime (LocalTime tza tv))
                (MonthFromTime_range _)) as H.
  lia.
Qed.

Lemma candidate_year tza now b :
  getFullYear tza (candidate tza now b) = getFullYear tza (today tza now).
Proof. unfold candidate. apply setFullYear_year. Qed.

Lemma localDay_bracket tza t :
  DayFromYear (getFullYear tza t) <= localDay tza t
  < DayFromYear (getFullYear tza t + 1).
Proof. unfold getFullYear, localDay. apply YearFromTime_bracket. Qed.

Lemma year_of_localDay tza t y :
  DayFromYear y <= localDay tza t < DayFromYear (y + 1) ->
  getFullYear tza t = y.
Proof. unfold getFullYear, localDay. apply YearFromTime_unique. Qed.

Lemma setFullYear_localDay tza tv y :
  DayFromYear y <= localDay tza (setFullYear tza tv y) < DayFromYear (y + 1).
Proof. unfold localDay. apply setFullYear_in_year. Qed.

(** Two instants with the same local year, month and date are on the
    same local day. *)
Lemma same_fields_same_day tza t1 t2 :
  getFullYear tza t1 = getFullYear tza t2 ->
  localMonth tza t1 = localMonth tza t2 ->
  localDate tza t1 = localDate tza t2 ->
  localDay tza t1 = localDay tza t2.
Proof.
  unfold getFullYear, localMonth, localDate, localDay. intros Y M D.
  rewrite <- (MakeDay_fields (LocalTime tza t1)).
  rewrite <- (MakeDay_fields (LocalTime tza t2)).
  rewrite Y, M, D. reflexivity.
Qed.

(** A day of the year [y] with the local month and date of [tv] is the
    day [setFullYear] moves [tv] to. *)
Lemma occurrence_in_year tza tv y t :
  getFullYear tza t = y ->
  localMonth tza t = localMonth tza tv ->
  localDate tza t = localDate tza tv ->
  localDay tza t = localDay tza (setFullYear tza tv y).
Proof.
  unfold getFullYear, localMonth, localDate, localDay. intros Y M D.
  rewrite setFullYear_Day.
  rewrite <- (MakeDay_fields (LocalTime tza t)).
  rewrite Y, M, D. reflexivity.
Qed.

Lemma candidate_localDay tza now b :
  DayFromYear (getFullYear tza (today tza now))
  <= localDay tza (candidate tza now b)
  < DayFromYear (getFullYear tza (today tza now) + 1).
Proof. unfold candidate. apply setFullYear_localDay. Qed.

Lemma occurrence_this_year tza now b t :
  getFullYear tza t = getFullYear tza (today tza now) ->
  localMonth tza t = localMonth tza b ->
  localDate tza t = localDate tza b ->
  localDay tza t = localDay tza (candidate tza now b).
Proof. unfold candidate. apply occurrence_in_year. Qed.

(** No day from today to the day before the resolved date carries the
    stored month and date, when the resolved date carries them. *)
Lemma no_occurrence_before tza now b t :
  localMonth tza (resolveNextBirthday tza now b) = localMonth tza b ->
  localDate tza (resolveNextBirthday tza now b) = localDate tza b ->
  localDay tza (today tza now) <= localDay tza t
  < localDay tza (resolveNextBirthday tza now b) ->
  localMonth tza t = localMonth tza b ->
  localDate tza t = localDate tza b ->
  False.
Proof.
  intros Mr Dr [Lo Hi] Mt Dt.
  pose proof (today_in_its_year tza now) as Ty.
  pose proof (candidate_localDay tza now b) as [Clo Chi].
  destruct (resolve_cases tza now b) as [[G E]|[L E]].
  - (* the candidate is the resolved date: [t] is in this year *)
    rewrite E in Hi.
    assert (Yt : getFullYear tza t = getFullYear tza (today tza now))
      by (apply year_of_localDay; lia).
    pose proof (occurrence_this_year tza now b t Yt Mt Dt). lia.
  - (* the resolved date is in next year *)
    pose proof (before_midnight tza now _ L) as Hc.
    destruct (Z_lt_le_dec (localDay tza t)
                (DayFromYear (getFullYear tza (today tza now) + 1)))
      as [This|Next].
    + assert (Yt : getFullYear tza t = getFullYear tza (today tza now))
        by (apply year_of_localDay; lia).
      pose proof (occurrence_this_year tza now b t Yt Mt Dt). lia.
    + pose proof (setFullYear_localDay tza (candidate tza now b)
                    (getFullYear tza (today tza now) + 1)) as [Rlo Rhi].
      rewrite <- E in Rlo, Rhi.
      assert (Yt : getFullYear tza t = getFullYear tza (today tza now) + 1)
        by (apply year_of_localDay; lia).
      assert (Yr : getFullYear tza (resolveNextBirthday tza now b)
                   = getFullYear tza (today tza now) + 1)
        by (apply year_of_localDay; lia).
      assert (Eq : localDay tza t
                   = localDay tza (resolveNextBirthday tza now b)).
      { apply same_fields_same_day; congruence. }
      lia.
Qed.

(** The resolved date of a birthday that is not a February 29 carries
    the stored month and date. *)
Lemma resolved_fields tza now b :
  ~ (localMonth tza b = 1 /\ localDate tza b = 29) ->
  localMonth tza (resolveNextBirthday tza now b) = localMonth tza b
  /\ localDate tza (resolveNextBirthday tza now b) = localDate tza b.
Proof.
  intros N.
  destruct (candidate_fields tza now b (date_in_every_year tza b _ N))
    as (Yc & Mc & Dc).
  destruct (resolve_cases tza now b) as [[_ E]|[_ E]]; rewrite E.
  - auto.
  - assert (N' : ~ (localMonth tza (candidate tza now b) = 1
                    /\ localDate tza (candidate tza now b) = 29))
      by (rewrite Mc, Dc; exact N).
    destruct (setFullYear_fields tza (candidate tza now b)
                (getFullYear tza (today tza now) + 1)
                (date_in_every_year tza _ _ N')) as (Y1 & M1 & D1).
    rewrite M1, D1, Mc, Dc. auto.
Qed.

(** X3. The resolved date falls on today or on one of the 365 days that
    follow. Whenever it carries the local month and date of the stored
    birthday, as it does for every birthday that is not a February 29,
    it is the next occurrence: no day from today to the day before the
    resolved date carries that month and date. (A February 29 that is
    resolved to March 1 is not covered: a February 29 may come before.) *)
Theorem resolved_date_within_a_year tza now b :
  localDay tza (today tza now) <= localDay tza (resolveNextBirthday tza now b)
  <= localDay tza (today tza now) + 365
  /\ (localMonth tza (resolveNextBirthday tza now b) = localMonth tza b
      /\ localDate tza (resolveNextBirthday tza now b) = localDate tza b ->
      forall t,
        localDay tza (today tza now) <= localDay tza t
        < localDay tza (resolveNextBirthday tza now b) ->
        ~ (localMonth tza t = localMonth tza b
           /\ localDate tza t = localDate tza b))
  /\ (~ (localMonth tza b = 1 /\ localDate tza b = 29) ->
      forall t,
        localDay tza (today tza now) <= localDay tza t
        < localDay tza (resolveNextBirthday tza now b) ->
        ~ (localMonth tza t = localMonth tza b
           /\ localDate tza t = localDate tza b)).
Proof.
  split; [|split].
  - pose proof (today_in_its_year tza now) as Blo.
    split.
    + pose proof (resolveNextBirthday_ge tza now b) as G.
      destruct (Z.eq_dec (today tza now) (resolveNextBirthday tza now b))
        as [<-|N]; [lia|].
      apply localDay_lt. lia.
    + destruct (resolve_cases tza now b) as [[_ E]|[L E]]; rewrite E.
      * pose proof (candidate_in_this_year tza now b). lia.
      * pose proof (before_midnight tza now _ L) as Hc.
        pose proof (day_a_year_later tza (candidate tza now b)) as Hn.
        rewrite candidate_year in Hn. lia.
  - intros [Mr Dr] t Ht [Mt Dt].
    exact (no_occurrence_before tza now b t Mr Dr Ht Mt Dt).
  - intros N t Ht [Mt Dt].
    destruct (resolved_fields tza now b N) as [Mr Dr].
    exact (no_occurrence_before tza now b t Mr Dr Ht Mt Dt).
Qed.

Lemma length_filterBoolean_map tza now cws :
  List.length (filterBoolean (map (withNextBirthday tza now) cws))
  = List.length (filter hasBirthday cws).
Proof.
  induction cws as [|cw cws IH]; simpl; [reflexivity|].
  unfold withNextBirthday at 1, hasBirthday at 1.
  destruct (birthday cw); simpl; rewrite IH; reflexivity.
Qed.

Lemma filter_hasBirthday_none cws :
  forallb (fun cw => negb (hasBirthday cw)) cws = true ->
  filter hasBirthday cws = [].
Proof.
  induction cws as [|cw cws IH]; simpl; [reflexivity|].
  intros H. apply andb_true_iff in H. destruct H as [H1 H2].
  apply negb_true_iff in H1. rewrite H1. apply IH, H2.
Qed.

(** X4. Every entry of the result is a coworker of the list with a
    stored birthday, so a coworker without one is never listed; the
    result has at most as many entries as there are coworkers with a
    birthday, and it is empty when no coworker has one. *)
Theorem coworkers_without_birthday_are_never_listed tza now cws :
  Forall (fun u => In (coworker u) cws /\ hasBirthday (coworker u) = true)
         (upcomingBirthdays tza now cws)
  /\ (List.length (upcomingBirthdays tza now cws)
      <= List.length (filter hasBirthday cws))%nat
  /\ (forallb (fun cw => negb (hasBirthday cw)) cws = true ->
      upcomingBirthdays tza now cws = []).
Proof.
  assert (L : (List.length (upcomingBirthdays tza now cws)
               <= List.length (filter hasBirthday cws))%nat).
  { unfold upcomingBirthdays.
    rewrite (Permutation_length (sort_perm _ _)).
    rewrite <- length_filterBoolean_map with (tza := tza) (now := now).
    apply filter_length_le. }
  split; [|split; [exact L|]].
  - apply Forall_forall. intros u Hu.
    apply In_upcomingBirthdays in Hu. destruct Hu as [Hu _].
    apply In_withNextBirthday in Hu. destruct Hu as (Hin & b & Hb & _).
    split; [exact Hin|]. unfold hasBirthday. rewrite Hb. reflexivity.
  - intros H.
    rewrite (filter_hasBirthday_none cws H) in L. simpl in L.
    destruct (upcomingBirthdays tza now cws); [reflexivity|simpl in L; lia].
Qed.

(** X1 at work: a birthday of January 2, seen on December 20. *)
Lemma resolved_date_keeps_month_and_date_witness :
  ~ (localMonth 0 (isoDate 1985 1 2) = 1 /\ localDate 0 (isoDate 1985 1 2) = 29)
  /\ localMonth 0 (resolveNextBirthday 0 (localInstant 0 2025 12 20 10)
                     (isoDate 1985 1 2)) = localMonth 0 (isoDate 1985 1 2).
Proof.
  assert (N : ~ (localMonth 0 (isoDate 1985 1 2) = 1
                 /\ localDate 0 (isoDate 1985 1 2) = 29))
    by (intros [H _]; vm_compute in H; discriminate).
  split; [exact N|].
  exact (proj1 (resolved_date_keeps_month_and_date 0
                  (localInstant 0 2025 12 20 10) (isoDate 1985 1 2) N)).
Defined.

(** X2 at work: a birthday of February 29, seen on December 1 of 2023. *)
Lemma leap_day_resolves_to_march_first_witness :
  localMonth 0 (isoDate 2000 2 29) = 1
  /\ localDate 0 (isoDate 2000 2 29) = 29
  /\ ((DaysInYear (getFullYear 0 (today 0 (localInstant 0 2023 12 1 10))) = 366
       /\ today 0 (localInstant 0 2023 12 1 10)
          <= candidate 0 (localInstant 0 2023 12 1 10) (isoDate 2000 2 29)
       /\ localMonth 0 (resolveNextBirthday 0 (localInstant 0 2023 12 1 10)
                          (isoDate 2000 2 29)) = 1
       /\ localDate 0 (resolveNextBirthday 0 (localInstant 0 2023 12 1 10)
                         (isoDate 2000 2 29)) = 29)
      \/ (localMonth 0 (resolveNextBirthday 0 (localInstant 0 2023 12 1 10)
                          (isoDate 2000 2 29)) = 2
          /\ localDate 0 (resolveNextBirthday 0 (localInstant 0 2023 12 1 10)
                            (isoDate 2000 2 29)) = 1)).
Proof.
  assert (M : localMonth 0 (isoDate 2000 2 29) = 1) by (vm_compute; reflexivity).
  assert (D : localDate 0 (isoDate 2000 2 29) = 29) by (vm_compute; reflexivity).
  split; [exact M|]. split; [exact D|].
  exact (leap_day_resolves_to_march_first 0 (localInstant 0 2023 12 1 10)
           (isoDate 2000 2 29) M D).
Defined.

End ResolvedDate.

(* ================================================================== *)
(** * More on sessions: amounts, frame, counts and totals *)
(* ================================================================== *)

From Stdlib Require DecimalPos DecimalZ.

Module SessionFacts.
Import JSNumber JSObject Birthdays Contributions.
Local Open Scope string_scope.
Local Open Scope list_scope.

(** 1 for a paid entry, 0 for another one or none. *)
Definition paidFlag (c : option Contribution) : nat :=
  match c with
  | Some c => if String.eqb (status c) "paid" then 1 else 0
  | None => 0
  end.

(** Two numbers are the same value: finite values as rationals. *)
Definition sameNumber (x y : number) : Prop :=
  match x, y with
  | NaN, NaN | PosInf, PosInf | NegInf, NegInf => True
  | Fin a, Fin b => (a == b)%Q
  | _, _ => False
  end.

(** Whether the character [_] (code 95) occurs in a string. *)
Fixpoint hasUnderscore (s : string) : bool :=
  match s with
  | EmptyString => false
  | String a s' => Ascii.eqb a (Ascii.ascii_of_nat 95) || hasUnderscore s'
  end.

(** ** Objects are determined by their keys and values *)

Lemma object_ext {V : Type} (a b : object V) :
  wf a -> wf b -> keys a = keys b ->
  (forall k, get a k = get b k) -> a = b.
Proof.
  revert b. induction a as [|[k v] a IH]; intros [|[k' v'] b] Wa Wb K G;
    simpl in K; try discriminate; [reflexivity|].
  injection K as <- K.
  pose proof (G k) as Gk. simpl in Gk. rewrite String.eqb_refl in Gk.
  injection Gk as <-.
  f_equal. apply IH.
  - unfold wf in *. simpl in Wa. inversion Wa. assumption.
  - unfold wf in *. simpl in Wb. inversion Wb. assumption.
  - exact K.
  - intros k0. specialize (G k0). simpl in G.
    destruct (String.eqb_spec k k0) as [E|N]; [|exact G].
    destruct (wf_get_tail k v a k0 Wa) as [C| ->]; [congruence|].
    destruct (wf_get_tail k v b k0 Wb) as [C| ->]; [congruence|reflexivity].
Qed.

Lemma keys_fold_keep (w acc : Contributors) :
  (forall k, In k (keys w) -> In k (keys acc)) ->
  keys (mergeContributors acc w) = keys acc.
Proof.
  unfold mergeContributors. revert acc.
  induction w as [|[k v] w IH]; intros acc H; simpl; [reflexivity|].
  assert (Hk : In k (keys acc)) by (apply H; left; reflexivity).
  destruct (keys_set_cases acc k v) as [[_ E]|[N _]]; [|contradiction].
  rewrite IH; [exact E|].
  intros k0 Hk0. rewrite E. apply H. right. exact Hk0.
Qed.

Lemma merge_same_keys (s w : Contributors) :
  wf s -> wf w -> keys w = keys s -> mergeContributors s w = w.
Proof.
  intros Ws Ww K. apply object_ext.
  - apply wf_mergeContributors, Ws.
  - exact Ww.
  - rewrite keys_fold_keep; [congruence|]. intros k. rewrite K. auto.
  - intros k. rewrite get_mergeContributors by exact Ww.
    destruct (get w k) eqn:E; [reflexivity|].
    destruct (get s k) eqn:E'; [|reflexivity].
    exfalso. assert (In k (keys s)) by (apply get_In_keys; congruence).
    rewrite <- K in H. apply get_In_keys in H. contradiction.
Qed.

Lemma set_fresh {V : Type} (o : object V) k v :
  ~ In k (keys o) -> set o k v = o ++ [(k, v)].
Proof.
  induction o as [|[k0 v0] o IH]; simpl; [reflexivity|].
  intros N. destruct (String.eqb_spec k0 k) as [->|_]; [tauto|].
  rewrite IH by tauto. reflexivity.
Qed.

(** Merging into a map that map with one entry set gives the latter:
    the document [updateContribution] writes is the map it computed. *)
Lemma merge_of_set (s : Contributors) c v :
  wf s -> mergeContributors s (set s c v) = set s c v.
Proof.
  intros W.
  destruct (keys_set_cases s c v) as [[Hin E]|[N E]].
  - apply merge_same_keys; [exact W|apply wf_set, W|exact E].
  - rewrite (set_fresh s c v N). unfold mergeContributors.
    rewrite fold_left_app. simpl.
    fold (mergeContributors s s).
    rewrite (merge_same_keys s s W W eq_refl). apply set_fresh, N.
Qed.

(** ** Counting and adding up after one entry is set *)

Lemma paidCount_set (cs : Contributors) c new :
  (paidCount (set cs c new) + paidFlag (get cs c)
   = paidCount cs + paidFlag (Some new))%nat.
Proof.
  unfold paidCount, paidContributions, values.
  induction cs as [|[k v] cs IH]; simpl.
  - destruct (String.eqb (status new) "paid"); reflexivity.
  - destruct (String.eqb_spec k c) as [->|N]; simpl.
    + destruct (String.eqb (status new) "paid"),
        (String.eqb (status v) "paid"); simpl; lia.
    + simpl in IH.
      destruct (String.eqb (status v) "paid"); simpl; lia.
Qed.

#[local] Instance sameNumber_refl : Reflexive sameNumber.
Proof. intros [| | |q]; simpl; auto. reflexivity. Qed.

#[local] Instance sameNumber_sym : Symmetric sameNumber.
Proof. intros [| | |a] [| | |b]; simpl; auto. intros H. symmetry. exact H. Qed.

#[local] Instance sameNumber_trans : Transitive sameNumber.
Proof.
  intros [| | |a] [| | |b] [| | |c]; simpl; auto; try tauto.
  intros H1 H2. rewrite H1. exact H2.
Qed.

Lemma add_sameNumber x x' y :
  sameNumber x x' -> sameNumber (add x y) (add x' y).
Proof.
  destruct x as [| | |a], x' as [| | |a'], y as [| | |b]; simpl; auto;
    try tauto.
  intros H. rewrite H. reflexivity.
Qed.

Lemma add_swap x y z : sameNumber (add (add x y) z) (add (add x z) y).
Proof.
  destruct x as [| | |a], y as [| | |b], z as [| | |c]; simpl; auto.
  ring.
Qed.

Lemma fold_add_sameNumber (l : list Contribution) x x' :
  sameNumber x x' ->
  sameNumber (fold_left (fun sum c => add sum (amount c)) l x)
             (fold_left (fun sum c => add sum (amount c)) l x').
Proof.
  revert x x'. induction l as [|c l IH]; intros x x' H; simpl;
    [exact H | apply IH, add_sameNumber, H].
Qed.

Lemma fold_add_out (l : list Contribution) x y :
  sameNumber (fold_left (fun sum c => add sum (amount c)) l (add x y))
             (add (fold_left (fun sum c => add sum (amount c)) l x) y).
Proof.
  revert x. induction l as [|c l IH]; intros x; simpl; [reflexivity|].
  etransitivity; [|apply IH].
  apply fold_add_sameNumber, add_swap.
Qed.

Lemma paidContributions_set_same (cs : Contributors) c new :
  status new <> "paid" -> paidFlag (get cs c) = 0%nat ->
  paidContributions (set cs c new) = paidContributions cs.
Proof.
  intros Hn. unfold paidContributions, values.
  induction cs as [|[k v] cs IH]; simpl.
  - destruct (String.eqb_spec (status new) "paid"); [contradiction|reflexivity].
  - destruct (String.eqb_spec k c) as [->|N]; simpl.
    + destruct (String.eqb_spec (status new) "paid"); [contradiction|].
      destruct (String.eqb (status v) "paid"); [discriminate|reflexivity].
    + intros H. rewrite (IH H). reflexivity.
Qed.

Lemma total_set_paid (cs : Contributors) c old new x :
  get cs c = Some old -> status old <> "paid" -> status new = "paid" ->
  sameNumber
    (fold_left (fun sum e => add sum (amount e))
               (paidContributions (set cs c new)) x)
    (add (fold_left (fun sum e => add sum (amount e))
                    (paidContributions cs) x) (amount new)).
Proof.
  intros G Ho Hn. unfold paidContributions, values. revert x G.
  induction cs as [|[k v] cs IH]; intros x; simpl; [discriminate|].
  destruct (String.eqb_spec k c) as [->|N]; simpl.
  - intros [= ->]. rewrite Hn. simpl.
    destruct (String.eqb_spec (status old) "paid"); [contradiction|].
    apply fold_add_out.
  - intros G. destruct (String.eqb (status v) "paid"); simpl; apply IH, G.
Qed.

Lemma total_set_unpaid (cs : Contributors) c old new x :
  get cs c = Some old -> status old = "paid" -> status new <> "paid" ->
  sameNumber
    (fold_left (fun sum e => add sum (amount e)) (paidContributions cs) x)
    (add (fold_left (fun sum e => add sum (amount e))
                    (paidContributions (set cs c new)) x) (amount old)).
Proof.
  intros G Ho Hn. unfold paidContributions, values. revert x G.
  induction cs as [|[k v] cs IH]; intros x; simpl; [discriminate|].
  destruct (String.eqb_spec k c) as [->|N]; simpl.
  - intros [= ->]. rewrite Ho. simpl.
    destruct (String.eqb_spec (status new) "paid"); [contradiction|].
    apply fold_add_out.
  - intros G. destruct (String.eqb (status v) "paid"); simpl; apply IH, G.
Qed.

(** ** The map of a card after a write *)

Lemma writtenContributors_set currentYear st b c new :
  goodStore (contributions st) ->
  writtenContributors currentYear st b c new
  = set (currentContributorsOf currentYear st b) c new.
Proof.
  intros G. unfold writtenContributors, currentContributorsOf.
  destruct (get (contributions st) (contributionId currentYear b))
    as [old|] eqn:E; [|reflexivity].
  destruct (contributors old) as [stored|] eqn:Ec; [|reflexivity].
  destruct (G _ _ _ E Ec) as [W _]. apply merge_of_set, W.
Qed.

Lemma contributionDataOf_update currentYear st b c new :
  goodStore (contributions st) -> user st = true ->
  contributionDataOf currentYear
    (updateContribution currentYear true st b c new) b
  = set (currentContributorsOf currentYear st b) c new
  /\ forall b', b' <> b ->
       contributionDataOf currentYear
         (updateContribution currentYear true st b c new) b'
       = contributionDataOf currentYear st b'.
Proof.
  intros G U. split.
  - unfold contributionDataOf.
    rewrite (updateContribution_written _ _ _ _ _ U).
    rewrite get_set_same. simpl. apply writtenContributors_set, G.
  - intros b' N. unfold contributionDataOf.
    rewrite (updateContribution_written _ _ _ _ _ U).
    rewrite get_set_other
      by (intros E; apply contributionId_inj in E; congruence).
    reflexivity.
Qed.

Lemma set_all_unpaid (cs : Contributors) k :
  Forall (fun kv => snd kv = unpaidZero) cs ->
  Forall (fun kv => snd kv = unpaidZero) (set cs k unpaidZero).
Proof.
  induction 1 as [|[k0 v0] cs H0 H IH]; simpl.
  - repeat constructor.
  - destruct (String.eqb k0 k); constructor; auto.
Qed.

Lemma lazy_all_unpaid cws (acc : Contributors) :
  Forall (fun kv => snd kv = unpaidZero) acc ->
  Forall (fun kv => snd kv = unpaidZero)
         (fold_left (fun acc cw => set acc (id cw) unpaidZero) cws acc).
Proof.
  revert acc. induction cws as [|cw cws IH]; intros acc H; simpl;
    [exact H | apply IH, set_all_unpaid, H].
Qed.

Lemma paidContributions_lazy cws : paidContributions (lazyContributors cws) = [].
Proof.
  unfold paidContributions, values.
  pose proof (lazy_all_unpaid cws [] (Forall_nil _)) as H.
  fold (lazyContributors cws) in H.
  induction H as [|[k e] l He H IH]; simpl; [reflexivity|].
  simpl in He. rewrite He. simpl. exact IH.
Qed.

(** The map a write starts from counts and adds up as the map the card
    shows, and holds for the pair what the card shows for it. *)
Lemma currentContributorsOf_summary currentYear st b c :
  paidContributions (currentContributorsOf currentYear st b)
  = paidContributions (contributionDataOf currentYear st b)
  /\ paidFlag (get (currentContributorsOf currentYear st b) c)
     = paidFlag (Some (pairContribution currentYear st b c))
  /\ (status (pairContribution currentYear st b c) <> "unpaid" ->
      get (currentContributorsOf currentYear st b) c
      = Some (pairContribution currentYear st b c)).
Proof.
  unfold pairContribution, currentContributorsOf, contributionDataOf.
  destruct (get (contributions st) (contributionId currentYear b))
    as [old|] eqn:E.
  - destruct (contributors old) as [stored|].
    + split; [reflexivity|]. unfold cellContribution.
      destruct (get stored c); simpl; split; auto.
      intros H. contradiction H. reflexivity.
    + simpl. split; [reflexivity|]. split; [reflexivity|].
      intros H. contradiction H. reflexivity.
  - split; [apply paidContributions_lazy|].
    pose proof (cellContribution_lazy (coworkers st) c) as L.
    unfold cellContribution in L.
    destruct (get (lazyContributors (coworkers st)) c) as [e|];
      simpl; [rewrite L|]; split; try reflexivity;
      intros H; contradiction H; reflexivity.
Qed.

(** ** What a session keeps and what an interaction touches *)

(** X5. In every state of a session, every entry stored and every pair
    shown is unpaid with amount 0, or pledged or paid with an amount
    greater than 0; the keys of a stored map are unique; and the prompt,
    while rendered, is for a pair that is unpaid. *)
Theorem session_entries_keep_the_amount_invariant
    currentYear parseFloat u org cws evs :
  (forall b c,
      goodEntry (pairContribution currentYear
                   (session currentYear parseFloat u org cws evs) b c))
  /\ (forall docId doc cs,
        get (contributions (session currentYear parseFloat u org cws evs))
            docId = Some doc ->
        contributors doc = Some cs ->
        wf cs /\ forall k e, get cs k = Some e -> goodEntry e)
  /\ (modalRendered (session currentYear parseFloat u org cws evs) = true ->
      forall b c,
        contributionTarget (session currentYear parseFloat u org cws evs)
        = Some (b, c) ->
        status (pairContribution currentYear
                  (session currentYear parseFloat u org cws evs) b c)
        = "unpaid").
Proof.
  destruct (session_sessionInv currentYear parseFloat u org cws evs)
    as [G M].
  split; [intros b c; apply pairContribution_good, G|].
  split; [exact G|exact M].
Qed.

(** X6. For a signed-in user whose write succeeds, the click on a pledged
    pair stores it as paid with the amount that was pledged, and the
    click on a paid pair stores it as unpaid with amount 0. *)
Theorem pay_keeps_the_amount_and_reset_clears_it
    currentYear parseFloat org cws evs b c :
  (status (pairContribution currentYear
             (session currentYear parseFloat true org cws evs) b c)
   = "pledged" ->
   pairContribution currentYear
     (session currentYear parseFloat true org cws
        (evs ++ [ClickCell b c true])) b c
   = mkContribution
       (amount (pairContribution currentYear
                  (session currentYear parseFloat true org cws evs) b c))
       "paid")
  /\ (status (pairContribution currentYear
                (session currentYear parseFloat true org cws evs) b c)
      = "paid" ->
      pairContribution currentYear
        (session currentYear parseFloat true org cws
           (evs ++ [ClickCell b c true])) b c
      = mkContribution zero "unpaid").
Proof.
  destruct (session_sessionInv currentYear parseFloat true org cws evs)
    as [G _].
  pose proof (session_user currentYear parseFloat true org cws evs) as U.
  rewrite session_snoc.
  set (S := session currentYear parseFloat true org cws evs) in *.
  split; intros Es.
  - destruct (pairContribution_good currentYear S b c G)
      as [[E _]|[[_ Ea]|[E _]]]; try congruence.
    rewrite (click_pledged currentYear parseFloat true S b c Es).
    rewrite (amountOrZero_positive _ Ea).
    rewrite pairContribution_update by assumption.
    rewrite !String.eqb_refl. reflexivity.
  - rewrite (click_paid currentYear parseFloat true S b c Es).
    rewrite pairContribution_update by assumption.
    rewrite !String.eqb_refl. reflexivity.
Qed.

Lemma update_touches_one_pair currentYear ok st b c new b' c' :
  goodStore (contributions st) ->
  pairContribution currentYear (updateContribution currentYear ok st b c new)
                   b' c'
  = pairContribution currentYear st b' c'
  \/ (b' = b /\ c' = c).
Proof.
  intros G.
  destruct (user st) eqn:U, ok;
    try (rewrite updateContribution_skipped by auto; left; reflexivity).
  rewrite (pairContribution_update _ _ _ _ _ _ _ G U).
  destruct (String.eqb_spec b' b) as [->|]; simpl; [|left; reflexivity].
  destruct (String.eqb_spec c' c) as [->|]; [right; auto|left; reflexivity].
Qed.

(** X7. An interaction changes one pair at most: a click can only change
    the pair of the cell clicked, a save of the prompt only the pair the
    prompt was opened for, and closing the prompt changes none. *)
Theorem interaction_changes_one_pair_at_most
    currentYear parseFloat u org cws evs ev b c :
  pairContribution currentYear
    (session currentYear parseFloat u org cws (evs ++ [ev])) b c
  = pairContribution currentYear
      (session currentYear parseFloat u org cws evs) b c
  \/ (exists ok, ev = ClickCell b c ok)
  \/ (exists amountText ok,
        ev = ModalSave amountText ok
        /\ modalRendered (session currentYear parseFloat u org cws evs) = true
        /\ contributionTarget (session currentYear parseFloat u org cws evs)
           = Some (b, c)).
Proof.
  destruct (session_sessionInv currentYear parseFloat u org cws evs)
    as [G _].
  rewrite session_snoc.
  set (S := session currentYear parseFloat u org cws evs) in *.
  destruct ev as [b0 c0 ok|amountText ok|].
  - unfold step, handleContributionClick.
    repeat match goal with
           | |- context [if ?x then _ else _] => destruct x
           end; try (left; reflexivity);
      (match goal with
       | |- context [updateContribution _ _ _ _ _ ?n] =>
           destruct (update_touches_one_pair currentYear ok S b0 c0 n b c G)
             as [E|[-> ->]]
       end; [left; exact E|right; left; eauto]).
  - unfold step. destruct (modalRendered S) eqn:R; [|left; reflexivity].
    unfold ContributionModal_handleSave, handlePledgeContribution.
    destruct (_ && _); [|left; reflexivity].
    destruct (contributionTarget S) as [[tb tc]|] eqn:T; [|left; reflexivity].
    rewrite (pairContribution_ext currentYear
               (updateContribution currentYear ok S tb tc
                  (mkContribution (parseFloat amountText) "pledged")))
      by reflexivity.
    destruct (update_touches_one_pair currentYear ok S tb tc
                (mkContribution (parseFloat amountText) "pledged") b c G)
      as [E|[-> ->]]; [left; exact E|].
    right. right. exists amountText, ok. auto.
  - left. apply pairContribution_ext, close_keeps.
Qed.

(** X8. While no user is signed in no interaction changes the stored
    contributions, and a click or a save whose write fails changes none
    either; no interaction changes the list of coworkers or the roles. *)
Theorem no_write_without_user_or_on_failure currentYear parseFloat st ev :
  (user st = false ->
   contributions (step currentYear parseFloat st ev) = contributions st)
  /\ (forall b c,
        contributions (step currentYear parseFloat st (ClickCell b c false))
        = contributions st)
  /\ (forall amountText,
        contributions (step currentYear parseFloat st (ModalSave amountText false))
        = contributions st)
  /\ coworkers (step currentYear parseFloat st ev) = coworkers st
  /\ user (step currentYear parseFloat st ev) = user st.
Proof.
  assert (K : forall ev0,
             (user st = false \/
              match ev0 with
              | ClickCell _ _ ok | ModalSave _ ok => ok = false
              | ModalClose => True
              end) ->
             contributions (step currentYear parseFloat st ev0)
             = contributions st).
  { intros ev0 H. destruct ev0 as [b c ok|amountText ok|].
    - unfold step, handleContributionClick.
      repeat match goal with
             | |- context [if ?x then _ else _] => destruct x
             end; try reflexivity;
        rewrite updateContribution_skipped by tauto; reflexivity.
    - unfold step, ContributionModal_handleSave, handlePledgeContribution.
      destruct (modalRendered st); [|reflexivity].
      destruct (_ && _); [|reflexivity].
      destruct (contributionTarget st) as [[tb tc]|]; [|reflexivity].
      simpl. rewrite updateContribution_skipped by tauto. reflexivity.
    - apply close_keeps. }
  split; [intros U; apply K; left; exact U|].
  split; [intros b c; apply K; right; reflexivity|].
  split; [intros t; apply K; right; reflexivity|].
  split; [|apply step_user].
  destruct ev as [b c ok|amountText ok|]; simpl.
  - unfold handleContributionClick.
    repeat match goal with
           | |- context [if ?x then _ else _] => destruct x
           end; try reflexivity;
      apply updateContribution_modal.
  - destruct (modalRendered st); [|reflexivity].
    unfold ContributionModal_handleSave, handlePledgeContribution.
    destruct (_ && _); [|reflexivity].
    destruct (contributionTarget st) as [[tb tc]|]; [|reflexivity].
    simpl. apply updateContribution_modal.
  - destruct (modalRendered st); reflexivity.
Qed.

(** ** The summary of a card along the cycle *)

Lemma contributionDataOf_ext currentYear st st' b :
  contributions st' = contributions st ->
  contributionDataOf currentYear st' b = contributionDataOf currentYear st b.
Proof. unfold contributionDataOf. intros ->. reflexivity. Qed.

Lemma currentContributorsOf_ext currentYear st st' b :
  contributions st' = contributions st -> coworkers st' = coworkers st ->
  currentContributorsOf currentYear st' b = currentContributorsOf currentYear st b.
Proof. unfold currentContributorsOf. intros -> ->. reflexivity. Qed.

(** X9. For a signed-in user whose writes succeed, the summary of the
    card follows the pair: a pledge leaves the paid entries, hence the
    count and the total, as they were; paying raises the count by one and
    the total by the amount pledged; the reset lowers the count by one
    and the total by the amount that was paid. *)
Theorem summary_follows_the_cycle
    currentYear parseFloat org cws evs b c :
  (status (pairContribution currentYear
             (session currentYear parseFloat true org cws evs) b c)
   = "unpaid" ->
   forall ok amountText,
     acceptedAmount (parseFloat amountText) = true ->
     paidContributions
       (contributionDataOf currentYear
          (session currentYear parseFloat true org cws
             (evs ++ [ClickCell b c ok; ModalSave amountText true])) b)
     = paidContributions
         (contributionDataOf currentYear
            (session currentYear parseFloat true org cws evs) b))
  /\ (status (pairContribution currentYear
                (session currentYear parseFloat true org cws evs) b c)
      = "pledged" ->
      paidCount
        (contributionDataOf currentYear
           (session currentYear parseFloat true org cws
              (evs ++ [ClickCell b c true])) b)
      = S (paidCount
             (contributionDataOf currentYear
                (session currentYear parseFloat true org cws evs) b))
      /\ sameNumber
           (totalAmount
              (contributionDataOf currentYear
                 (session currentYear parseFloat true org cws
                    (evs ++ [ClickCell b c true])) b))
           (add (totalAmount
                   (contributionDataOf currentYear
                      (session currentYear parseFloat true org cws evs) b))
                (amount (pairContribution currentYear
                           (session currentYear parseFloat true org cws evs)
                           b c))))
  /\ (status (pairContribution currentYear
                (session currentYear parseFloat true org cws evs) b c)
      = "paid" ->
      S (paidCount
           (contributionDataOf currentYear
              (session currentYear parseFloat true org cws
                 (evs ++ [ClickCell b c true])) b))
      = paidCount
          (contributionDataOf currentYear
             (session currentYear parseFloat true org cws evs) b)
      /\ sameNumber
           (totalAmount
              (contributionDataOf currentYear
                 (session currentYear parseFloat true org cws evs) b))
           (add (totalAmount
                   (contributionDataOf currentYear
                      (session currentYear parseFloat true org cws
                         (evs ++ [ClickCell b c true])) b))
                (amount (pairContribution currentYear
                           (session currentYear parseFloat true org cws evs)
                           b c)))).
Proof.
  destruct (session_sessionInv currentYear parseFloat true org cws evs)
    as [G _].
  pose proof (session_user currentYear parseFloat true org cws evs) as U.
  assert (A : forall ev1 ev2,
             evs ++ [ev1; ev2] = (evs ++ [ev1]) ++ [ev2])
    by (intros; rewrite <- app_assoc; reflexivity).
  rewrite !session_snoc.
  set (S0 := session currentYear parseFloat true org cws evs) in *.
  destruct (currentContributorsOf_summary currentYear S0 b c)
    as (Hp & Hf & Hg).
  split; [|split]; intros Es.
  - intros ok amountText V. rewrite A, !session_snoc. fold S0.
    rewrite (click_unpaid currentYear parseFloat ok S0 b c Es).
    unfold step, ContributionModal_handleSave, handlePledgeContribution.
    unfold acceptedAmount in V. simpl. rewrite V.
    rewrite (contributionDataOf_ext currentYear
               (updateContribution currentYear true
                  (setModal S0 true (Some (b, c))) b c
                  (mkContribution (parseFloat amountText) "pledged")))
      by reflexivity.
    destruct (contributionDataOf_update currentYear
                (setModal S0 true (Some (b, c))) b c
                (mkContribution (parseFloat amountText) "pledged") G U)
      as [-> _].
    rewrite (currentContributorsOf_ext currentYear S0) by reflexivity.
    rewrite paidContributions_set_same; [exact Hp|discriminate|].
    rewrite Hf. simpl. rewrite Es. reflexivity.
  - destruct (pairContribution_good currentYear S0 b c G)
      as [[E _]|[[_ Ea]|[E _]]]; try congruence.
    rewrite (click_pledged currentYear parseFloat true S0 b c Es).
    rewrite (amountOrZero_positive _ Ea).
    destruct (contributionDataOf_update currentYear S0 b c
                (mkContribution (amount (pairContribution currentYear S0 b c))
                   "paid") G U) as [-> _].
    split.
    + pose proof (paidCount_set (currentContributorsOf currentYear S0 b) c
                    (mkContribution
                       (amount (pairContribution currentYear S0 b c)) "paid"))
        as Hc.
      rewrite Hf in Hc. simpl in Hc. rewrite Es in Hc. simpl in Hc.
      unfold paidCount in *. rewrite Hp in Hc. lia.
    + unfold totalAmount. rewrite <- Hp.
      assert (Hs : get (currentContributorsOf currentYear S0 b) c
                   = Some (pairContribution currentYear S0 b c))
        by (apply Hg; rewrite Es; discriminate).
      assert (Hn : status (pairContribution currentYear S0 b c) <> "paid")
        by (rewrite Es; discriminate).
      exact (total_set_paid (currentContributorsOf currentYear S0 b) c
               (pairContribution currentYear S0 b c)
               (mkContribution (amount (pairContribution currentYear S0 b c))
                  "paid") zero Hs Hn eq_refl).
  - rewrite (click_paid currentYear parseFloat true S0 b c Es).
    destruct (contributionDataOf_update currentYear S0 b c
                (mkContribution zero "unpaid") G U) as [-> _].
    split.
    + pose proof (paidCount_set (currentContributorsOf currentYear S0 b) c
                    (mkContribution zero "unpaid")) as Hc.
      rewrite Hf in Hc. simpl in Hc. rewrite Es in Hc. simpl in Hc.
      unfold paidCount in *. rewrite Hp in Hc. lia.
    + unfold totalAmount. rewrite <- Hp.
      assert (Hs : get (currentContributorsOf currentYear S0 b) c
                   = Some (pairContribution currentYear S0 b c))
        by (apply Hg; rewrite Es; discriminate).
      assert (Hn : status (mkContribution zero "unpaid") <> "paid")
        by discriminate.
      exact (total_set_unpaid (currentContributorsOf currentYear S0 b) c
               (pairContribution currentYear S0 b c)
               (mkContribution zero "unpaid") zero Hs Es Hn).
Qed.

(** ** After a coworker is deleted *)

Lemma paidCount_delete (m : Contributors) k :
  (paidCount (delete m k) <= paidCount m)%nat.
Proof.
  unfold paidCount, paidContributions, values.
  induction m as [|[k0 v0] m IH]; simpl; [lia|].
  destruct (String.eqb k0 k); simpl;
    destruct (String.eqb (status v0) "paid"); simpl; lia.
Qed.

Lemma handleDeleteCoworker_done st coworkerId :
  isOrganizer st = true -> wf (contributions st) ->
  handleDeleteCoworker true st coworkerId
  = mkAppState (user st) (isOrganizer st)
      (filter (fun cw => negb (String.eqb (id cw) coworkerId)) (coworkers st))
      (stripAll coworkerId (contributions st))
      (isContributionModalOpen st) (contributionTarget st).
Proof.
  intros O W. unfold handleDeleteCoworker, commit.
  rewrite O, (deleteBatch_apply st coworkerId W). reflexivity.
Qed.

(** X10. After the organizer has deleted a coworker, every card shows
    that coworker's pair as unpaid with amount 0 and every other pair as
    before; no card counts more paid entries than before; and the
    coworker has no cell on any card. *)
Theorem deleted_coworker_is_unpaid_on_every_card currentYear st coworkerId :
  isOrganizer st = true ->
  wf (contributions st) ->
  (forall b c,
      pairContribution currentYear (handleDeleteCoworker true st coworkerId) b c
      = if String.eqb c coworkerId then unpaidZero
        else pairContribution currentYear st b c)
  /\ (forall b,
        (paidCount (contributionDataOf currentYear
                      (handleDeleteCoworker true st coworkerId) b)
         <= paidCount (contributionDataOf currentYear st b))%nat)
  /\ (forall b,
        ~ In coworkerId
             (map id (cardContributors
                        (handleDeleteCoworker true st coworkerId) b))).
Proof.
  intros O W. rewrite (handleDeleteCoworker_done st coworkerId O W).
  split; [|split].
  - intros b c. unfold pairContribution, contributionDataOf. simpl.
    rewrite get_stripAll.
    destruct (get (contributions st) (contributionId currentYear b))
      as [d|]; simpl.
    + unfold stripDoc.
      destruct (contributors d) as [m|] eqn:Em.
      * destruct (get m coworkerId) as [e|] eqn:Ee; simpl.
        -- unfold cellContribution.
           destruct (String.eqb_spec c coworkerId) as [->|N].
           ++ rewrite get_delete_same. reflexivity.
           ++ rewrite get_delete_other by congruence. reflexivity.
        -- rewrite Em. unfold cellContribution.
           destruct (String.eqb_spec c coworkerId) as [->|N]; [|reflexivity].
           rewrite Ee. reflexivity.
      * rewrite Em. unfold cellContribution. simpl.
        destruct (String.eqb c coworkerId); reflexivity.
    + unfold cellContribution. simpl.
      destruct (String.eqb c coworkerId); reflexivity.
  - intros b. unfold contributionDataOf. simpl. rewrite get_stripAll.
    destruct (get (contributions st) (contributionId currentYear b))
      as [d|]; simpl; [|lia].
    unfold stripDoc.
    destruct (contributors d) as [m|] eqn:Em; [|rewrite Em; lia].
    destruct (get m coworkerId); simpl; [apply paidCount_delete|].
    rewrite Em. lia.
  - intros b Hin. unfold cardContributors in Hin. simpl in Hin.
    apply in_map_iff in Hin. destruct Hin as (cw & E & Hin).
    apply filter_In in Hin. destruct Hin as [Hin _].
    apply filter_In in Hin. destruct Hin as [_ Hn].
    rewrite E, String.eqb_refl in Hn. discriminate.
Qed.

(** X10 at work on the store of the scenario. *)
Lemma deleted_coworker_is_unpaid_on_every_card_witness :
  isOrganizer exampleStore = true
  /\ wf (contributions exampleStore)
  /\ pairContribution 2025 (handleDeleteCoworker true exampleStore "X") "R" "X"
     = unpaidZero.
Proof.
  assert (W : wf (contributions exampleStore)).
  { unfold wf. simpl. repeat constructor; simpl; intuition discriminate. }
  split; [reflexivity|]. split; [exact W|].
  exact (proj1 (deleted_coworker_is_unpaid_on_every_card 2025 exampleStore "X"
                  eq_refl W) "R" "X").
Defined.

(** ** Document ids *)

Lemma hasUnderscore_app s t :
  hasUnderscore (s ++ "_" ++ t)%string = true.
Proof.
  induction s as [|a s IH]; simpl in *; [reflexivity|].
  rewrite IH. apply orb_true_r.
Qed.

Lemma digits_have_no_underscore d :
  hasUnderscore (NilEmpty.string_of_uint d) = false.
Proof. induction d; simpl; auto. Qed.

Lemma year_has_no_underscore y :
  hasUnderscore (NilZero.string_of_int (Z.to_int y)) = false.
Proof.
  assert (U : forall d, hasUnderscore (NilZero.string_of_uint d) = false).
  { intros d. unfold NilZero.string_of_uint.
    destruct d; try apply digits_have_no_underscore. reflexivity. }
  unfold NilZero.string_of_int. destruct (Z.to_int y); simpl; apply U.
Qed.

Lemma split_at_last_underscore s1 s2 d1 d2 :
  hasUnderscore d1 = false -> hasUnderscore d2 = false ->
  (s1 ++ "_" ++ d1)%string = (s2 ++ "_" ++ d2)%string ->
  s1 = s2 /\ d1 = d2.
Proof.
  intros H1 H2. revert s2.
  induction s1 as [|a s1 IH]; intros [|a' s2] E; simpl in E.
  - injection E as ->. auto.
  - injection E as <- ->.
    pose proof (hasUnderscore_app s2 d2) as H. simpl in H.
    rewrite H in H1. discriminate.
  - injection E as -> <-.
    pose proof (hasUnderscore_app s1 d1) as H. simpl in H.
    rewrite H in H2. discriminate.
  - injection E as -> E. destruct (IH s2 E) as [-> ->]. auto.
Qed.

Lemma year_string_inj y y' :
  NilZero.string_of_int (Z.to_int y) = NilZero.string_of_int (Z.to_int y') ->
  y = y'.
Proof.
  intros E. apply DecimalZ.to_int_inj.
  assert (P : forall z, NilZero.int_of_string
                          (NilZero.string_of_int (Z.to_int z))
                        = Some (Z.to_int z)).
  { intros z. apply NilZero.isi.
    - destruct z; simpl; try discriminate.
      intros [= H]. revert H. apply DecimalPos.Unsigned.to_uint_nonnil.
    - destruct z; simpl; try discriminate.
      intros [= H]. revert H. apply DecimalPos.Unsigned.to_uint_nonnil. }
  pose proof (P y) as Py. rewrite E, P in Py. congruence.
Qed.

(** X11. The id of a contribution document determines the birthday
    person and the year: two ids are equal only for the same person and
    the same year. *)
Theorem contribution_ids_do_not_collide y y' b b' :
  contributionId y b = contributionId y' b' <-> b = b' /\ y = y'.
Proof.
  split; [|intros [-> ->]; reflexivity].
  unfold contributionId. intros E.
  apply split_at_last_underscore in E; try apply year_has_no_underscore.
  destruct E as [-> E]. split; [reflexivity|apply year_string_inj, E].
Qed.

End SessionFacts.

(* ================================================================== *)
(** * Date strings of the coworker form *)
(* ================================================================== *)

Module ISODate.
Import JSDate ResolvedDate.
Local Open Scope string_scope.
Local Open Scope Z_scope.

(** The character of a decimal digit 0..9, and back. *)
Definition digitChar (n : Z) : Ascii.ascii :=
  Ascii.ascii_of_nat (48 + Z.to_nat n).

Definition digitValue (a : Ascii.ascii) : option Z :=
  let n := Z.of_nat (Ascii.nat_of_ascii a) in
  if (48 <=? n) && (n <=? 57) then Some (n - 48) else None.

Definition isHyphen (a : Ascii.ascii) : bool :=
  Ascii.eqb a (Ascii.ascii_of_nat 45).

Definition pad2 (n : Z) : string :=
  String (digitChar (n / 10)) (String (digitChar (n mod 10)) EmptyString).

Definition pad4 (n : Z) : string :=
  String (digitChar (n / 1000))
    (String (digitChar (n / 100 mod 10))
       (String (digitChar (n / 10 mod 10))
          (String (digitChar (n mod 10)) EmptyString))).

(** [new Date(t).toISOString().split('T')[0]] for a year from 0 to 9999:
    the UTC year, month and date as [YYYY-MM-DD]. Outside these years
    the standard writes the year with a sign and six digits; that form
    is not modelled: [None]. *)
Definition toISODate (t : Z) : option string :=
  let y := YearFromTime t in
  if (0 <=? y) && (y <=? 9999)
  then Some (pad4 y ++ "-" ++ pad2 (MonthFromTime t + 1) ++ "-"
             ++ pad2 (DateFromTime t))%string
  else None.

(** [new Date(s)] for a date string [YYYY-MM-DD] of a day of the
    calendar, which is what a date input holds when it is not empty:
    midnight UTC of that day. Any other text is [None] here (the
    standard has other forms, and an Invalid Date for the rest). *)
Definition parseISODate (s : string) : option Z :=
  match s with
  | String y1 (String y2 (String y3 (String y4 (String h1
      (String m1 (String m2 (String h2
        (String d1 (String d2 EmptyString))))))))) =>
      match digitValue y1, digitValue y2, digitValue y3, digitValue y4,
            digitValue m1, digitValue m2, digitValue d1, digitValue d2 with
      | Some a, Some b, Some c, Some d, Some e, Some f, Some g, Some h =>
          let y := 1000 * a + 100 * b + 10 * c + d in
          let m := 10 * e + f in
          let dt := 10 * g + h in
          if isHyphen h1 && isHyphen h2
             && (1 <=? m) && (m <=? 12)
             && (1 <=? dt) && (dt <=? DaysInMonth (m - 1) (leapFlag y))
          then Some (MakeDate (MakeDay y (m - 1) dt) 0)
          else None
      | _, _, _, _, _, _, _, _ => None
      end
  | _ => None
  end.

Lemma digitValue_digitChar n :
  0 <= n <= 9 -> digitValue (digitChar n) = Some n.
Proof.
  intros H. destruct n as [|p|p]; [reflexivity| |lia].
  do 4 (try (destruct p as [p|p|]; try lia; try reflexivity)).
Qed.

Lemma digitValue_range a v : digitValue a = Some v -> 0 <= v <= 9.
Proof.
  unfold digitValue.
  destruct (Z.leb_spec 48 (Z.of_nat (Ascii.nat_of_ascii a)));
    destruct (Z.leb_spec (Z.of_nat (Ascii.nat_of_ascii a)) 57);
    cbn [andb]; try discriminate.
  intros [= <-]. lia.
Qed.

Lemma digitChar_digitValue a v : digitValue a = Some v -> digitChar v = a.
Proof.
  unfold digitValue, digitChar.
  destruct (Z.leb_spec 48 (Z.of_nat (Ascii.nat_of_ascii a)));
    destruct (Z.leb_spec (Z.of_nat (Ascii.nat_of_ascii a)) 57);
    cbn [andb]; try discriminate.
  intros [= <-].
  assert (E : (48 + Z.to_nat (Z.of_nat (Ascii.nat_of_ascii a) - 48))%nat
              = Ascii.nat_of_ascii a) by lia.
  rewrite E. apply Ascii.ascii_nat_embedding.
Qed.

Lemma isHyphen_true a : isHyphen a = true -> a = Ascii.ascii_of_nat 45.
Proof. unfold isHyphen. apply Ascii.eqb_eq. Qed.

Lemma parse_pad2 n :
  0 <= n <= 99 ->
  digitValue (digitChar (n / 10)) = Some (n / 10)
  /\ digitValue (digitChar (n mod 10)) = Some (n mod 10)
  /\ 10 * (n / 10) + n mod 10 = n.
Proof.
  intros H. repeat split; try (apply digitValue_digitChar; zdiv). zdiv.
Qed.

Lemma parse_pad4 n :
  0 <= n <= 9999 ->
  digitValue (digitChar (n / 1000)) = Some (n / 1000)
  /\ digitValue (digitChar (n / 100 mod 10)) = Some (n / 100 mod 10)
  /\ digitValue (digitChar (n / 10 mod 10)) = Some (n / 10 mod 10)
  /\ digitValue (digitChar (n mod 10)) = Some (n mod 10)
  /\ 1000 * (n / 1000) + 100 * (n / 100 mod 10) + 10 * (n / 10 mod 10)
     + n mod 10 = n.
Proof.
  intros H. repeat split; try (apply digitValue_digitChar; zdiv). zdiv.
Qed.

Lemma format_then_parse t :
  0 <= YearFromTime t <= 9999 ->
  exists s, toISODate t = Some s
            /\ parseISODate s = Some (MakeDate (Day t) 0).
Proof.
  intros Hy. unfold toISODate.
  destruct (Z.leb_spec 0 (YearFromTime t)); [|lia].
  destruct (Z.leb_spec (YearFromTime t) 9999); [|lia].
  cbn [andb]. eexists. split; [reflexivity|].
  pose proof (MonthFromTime_range t) as Hm.
  pose proof (DateFromTime_in_month t) as Hd.
  pose proof (DateFromTime_range t) as Hd31.
  destruct (parse_pad4 (YearFromTime t) Hy) as (Y1 & Y2 & Y3 & Y4 & Ey).
  destruct (parse_pad2 (MonthFromTime t + 1) ltac:(lia)) as (M1 & M2 & Em).
  destruct (parse_pad2 (DateFromTime t) ltac:(lia)) as (D1 & D2 & Ed).
  unfold pad4, pad2. cbn [append]. unfold parseISODate.
  rewrite Y1, Y2, Y3, Y4, M1, M2, D1, D2, Ey, Em, Ed.
  change (isHyphen (Ascii.ascii_of_nat 45)) with true.
  replace (MonthFromTime t + 1 - 1) with (MonthFromTime t) by lia.
  change (leapFlag (YearFromTime t)) with (InLeapYear t).
  destruct (Z.leb_spec 1 (MonthFromTime t + 1)); [|lia].
  destruct (Z.leb_spec (MonthFromTime t + 1) 12); [|lia].
  destruct (Z.leb_spec 1 (DateFromTime t)); [|lia].
  destruct (Z.leb_spec (DateFromTime t)
              (DaysInMonth (MonthFromTime t) (InLeapYear t))); [|lia].
  cbn [andb]. rewrite MakeDay_fields. reflexivity.
Qed.

Lemma parse_then_format s t :
  parseISODate s = Some t ->
  toISODate t = Some s /\ TimeWithinDay t = 0.
Proof.
  destruct s as [|y1 s]; [discriminate|]. destruct s as [|y2 s]; [discriminate|].
  destruct s as [|y3 s]; [discriminate|]. destruct s as [|y4 s]; [discriminate|].
  destruct s as [|h1 s]; [discriminate|]. destruct s as [|m1 s]; [discriminate|].
  destruct s as [|m2 s]; [discriminate|]. destruct s as [|h2 s]; [discriminate|].
  destruct s as [|d1 s]; [discriminate|]. destruct s as [|d2 s]; [discriminate|].
  destruct s as [|x s]; [|discriminate].
  unfold parseISODate.
  destruct (digitValue y1) as [a|] eqn:E1; [|discriminate].
  destruct (digitValue y2) as [b|] eqn:E2; [|discriminate].
  destruct (digitValue y3) as [c|] eqn:E3; [|discriminate].
  destruct (digitValue y4) as [d|] eqn:E4; [|discriminate].
  destruct (digitValue m1) as [e|] eqn:E5; [|discriminate].
  destruct (digitValue m2) as [f|] eqn:E6; [|discriminate].
  destruct (digitValue d1) as [g|] eqn:E7; [|discriminate].
  destruct (digitValue d2) as [h|] eqn:E8; [|discriminate].
  pose proof (digitValue_range _ _ E1). pose proof (digitValue_range _ _ E2).
  pose proof (digitValue_range _ _ E3). pose proof (digitValue_range _ _ E4).
  pose proof (digitValue_range _ _ E5). pose proof (digitValue_range _ _ E6).
  pose proof (digitValue_range _ _ E7). pose proof (digitValue_range _ _ E8).
  cbv zeta.
  set (y := 1000 * a + 100 * b + 10 * c + d).
  set (m := 10 * e + f). set (dt := 10 * g + h).
  destruct (isHyphen h1) eqn:Hh1; [|discriminate].
  destruct (isHyphen h2) eqn:Hh2; [|discriminate].
  destruct (Z.leb_spec 1 m); [|discriminate].
  destruct (Z.leb_spec m 12); [|discriminate].
  destruct (Z.leb_spec 1 dt); [|discriminate].
  destruct (Z.leb_spec dt (DaysInMonth (m - 1) (leapFlag y))); [|discriminate].
  cbn [andb]. intros [= <-].
  destruct (fields_of_MakeDay y (m - 1) dt 0 ltac:(lia) ltac:(lia)
              ltac:(unfold msPerDay; lia)) as (Fy & Fm & Fd).
  split; [|apply TimeWithinDay_MakeDate; unfold msPerDay; lia].
  unfold toISODate. rewrite Fy, Fm, Fd.
  destruct (Z.leb_spec 0 y); [|unfold y in *; lia].
  destruct (Z.leb_spec y 9999); [|unfold y in *; lia].
  cbn [andb]. unfold pad4, pad2. cbn [append].
  replace (y / 1000) with a by (unfold y; zdiv).
  replace (y / 100 mod 10) with b by (unfold y; zdiv).
  replace (y / 10 mod 10) with c by (unfold y; zdiv).
  replace (y mod 10) with d by (unfold y; zdiv).
  replace ((m - 1 + 1) / 10) with e by (unfold m; zdiv).
  replace ((m - 1 + 1) mod 10) with f by (unfold m; zdiv).
  replace (dt / 10) with g by (unfold dt; zdiv).
  replace (dt mod 10) with h by (unfold dt; zdiv).
  rewrite (digitChar_digitValue _ _ E1), (digitChar_digitValue _ _ E2),
    (digitChar_digitValue _ _ E3), (digitChar_digitValue _ _ E4),
    (digitChar_digitValue _ _ E5), (digitChar_digitValue _ _ E6),
    (digitChar_digitValue _ _ E7), (digitChar_digitValue _ _ E8).
  rewrite (isHyphen_true _ Hh1), (isHyphen_true _ Hh2). reflexivity.
Qed.

End ISODate.

(* ================================================================== *)
(** * Adding and editing coworkers (App.jsx 193-222, 546-562, 617-626) *)
(* ================================================================== *)

Module CoworkerForms.
Import JSDate JSArray Birthdays ResolvedDate ISODate.
Local Open Scope string_scope.
Local Open Scope list_scope.

(** The two values of the radio buttons, ['birthday'] and
    ['contributor']. *)
Inductive CoworkerType : Type :=
| BirthdayPerson
| ContributorOnly.

(** The state of [CoworkerModal]. *)
Module CoworkerModal.

Record State := mkState {
  coworkerType : CoworkerType;
  name : string;
  birthday : string
}.

End CoworkerModal.

(** The object [CoworkerModal] passes to [onSave]: [id] is [undefined]
    for a new coworker, [birthday] is a date string or [null]. *)
Record CoworkerData := mkCoworkerData {
  data_id : option string;
  data_name : string;
  data_birthday : option string
}.

Inductive SubmitResult : Type :=
| Alerted
| Saved (coworkerData : CoworkerData).

(** The initial state of the modal for [coworker] ([null] for a new
    one). It is [None] when the date of the coworker has no [YYYY-MM-DD]
    form, see [toISODate]. *)
Definition CoworkerModal_init (coworker : option Coworker)
  : option CoworkerModal.State :=
  match coworker with
  | None => Some (CoworkerModal.mkState ContributorOnly EmptyString EmptyString)
  | Some cw =>
      match Birthdays.birthday cw with
      | Some t =>
          match toISODate t with
          | Some s =>
              Some (CoworkerModal.mkState BirthdayPerson (Birthdays.name cw) s)
          | None => None
          end
      | None =>
          Some (CoworkerModal.mkState ContributorOnly (Birthdays.name cw)
                  EmptyString)
      end
  end.

Definition isEmpty (s : string) : bool := String.eqb s EmptyString.

(** [handleSubmit] of [CoworkerModal] (551-562). *)
Definition CoworkerModal_handleSubmit (f : CoworkerModal.State)
    (coworker : option Coworker) : SubmitResult :=
  if isEmpty (CoworkerModal.name f)
     || (match CoworkerModal.coworkerType f with
         | BirthdayPerson => isEmpty (CoworkerModal.birthday f)
         | ContributorOnly => false
         end)
  then Alerted
  else
    Saved (mkCoworkerData
             (option_map id coworker)
             (CoworkerModal.name f)
             (match CoworkerModal.coworkerType f with
              | BirthdayPerson => Some (CoworkerModal.birthday f)
              | ContributorOnly =>
                  if isEmpty (CoworkerModal.birthday f) then None
                  else Some (CoworkerModal.birthday f)
              end)).

(** The part of the state of [App] the coworker handlers read and write;
    [coworkers] is the snapshot of the collection, which a successful
    write brings up to date. The order of the snapshot is the store's
    and is not modelled: a new document goes last here. *)
Record AdminState := mkAdminState {
  user : bool;
  isOrganizer : bool;
  coworkers : list Coworker;
  isCoworkerModalOpen : bool;
  editingCoworker : option Coworker;
  isAddContributorModalOpen : bool
}.

(** [addDoc(coworkersCol, data)]; [newId] is the id the store gives. *)
Definition addDoc (cws : list Coworker) (newId : string) (nm : string)
    (b : option Z) : list Coworker :=
  cws ++ [mkCoworker newId nm b].

(** [setDoc(doc(coworkersCol, id), data)]: the document is replaced, or
    created when there is none. *)
Definition setDoc (cws : list Coworker) (i : string) (nm : string)
    (b : option Z) : list Coworker :=
  if existsb (fun cw => String.eqb (id cw) i) cws
  then map (fun cw => if String.eqb (id cw) i then mkCoworker i nm b else cw)
           cws
  else cws ++ [mkCoworker i nm b].

(** [birthday ? new Date(birthday) : null]; the outer [None] is an
    Invalid Date, which has no time value. *)
Definition dateOrNull (birthday : option string) : option (option Z) :=
  match birthday with
  | None => Some None
  | Some s =>
      if isEmpty s then Some None
      else
        match parseISODate s with
        | Some t => Some (Some t)
        | None => None
        end
  end.

(** [handleSaveCoworker] (193-210); [ok] is whether the write succeeds.
    With an Invalid Date the model stops: the handler is given the
    values of a date input, which are date strings or empty. *)
Definition handleSaveCoworker (ok : bool) (newId : string) (st : AdminState)
    (coworkerData : CoworkerData) : AdminState :=
  if negb (user st) || negb (isOrganizer st) then st
  else
    match dateOrNull (data_birthday coworkerData) with
    | None => st
    | Some b =>
        if ok then
          mkAdminState (user st) (isOrganizer st)
            (match data_id coworkerData with
             | Some i =>
                 if isEmpty i
                 then addDoc (coworkers st) newId (data_name coworkerData) b
                 else setDoc (coworkers st) i (data_name coworkerData) b
             | None => addDoc (coworkers st) newId (data_name coworkerData) b
             end)
            false None (isAddContributorModalOpen st)
        else st
    end.

(** The submit button of the modal, as [App] wires it. *)
Definition submitCoworker (ok : bool) (newId : string) (st : AdminState)
    (f : CoworkerModal.State) : AdminState :=
  match CoworkerModal_handleSubmit f (editingCoworker st) with
  | Alerted => st
  | Saved d => handleSaveCoworker ok newId st d
  end.

Section SelfService.
(** [String.prototype.trim]. *)
Variable trim : string -> string.

(** [handleSaveContributorName] (212-222). *)
Definition handleSaveContributorName (ok : bool) (newId : string)
    (st : AdminState) (nm : string) : AdminState :=
  if negb (user st) || isEmpty nm then st
  else if ok then
    mkAdminState (user st) (isOrganizer st)
      (addDoc (coworkers st) newId nm None)
      (isCoworkerModalOpen st) (editingCoworker st) false
  else st.

(** [handleSave] of [AddContributorModal] (620-626), with the [onSave]
    and [onClose] props of [App] (451-452). *)
Definition AddContributorModal_handleSave (ok : bool) (newId : string)
    (st : AdminState) (nm : string) : AdminState :=
  if negb (isEmpty (trim nm))
  then handleSaveContributorName ok newId st (trim nm)
  else mkAdminState (user st) (isOrganizer st) (coworkers st)
         (isCoworkerModalOpen st) (editingCoworker st) false.
End SelfService.

(** A time value cut down to midnight UTC of its day. *)
Definition utcMidnight (t : Z) : Z := MakeDate (Day t) 0.

(** The snapshot with the coworker [i] replaced. *)
Definition replaceCoworker (cws : list Coworker) (i nm : string)
    (b : option Z) : list Coworker :=
  map (fun cw => if String.eqb (id cw) i then mkCoworker i nm b else cw) cws.

Lemma isEmpty_true s : isEmpty s = true <-> s = EmptyString.
Proof. unfold isEmpty. apply String.eqb_eq. Qed.

Lemma isEmpty_false s : isEmpty s = false <-> s <> EmptyString.
Proof. unfold isEmpty. apply String.eqb_neq. Qed.

Lemma existsb_id cws i :
  existsb (fun cw => String.eqb (id cw) i) cws = true <-> In i (map id cws).
Proof.
  rewrite existsb_exists, in_map_iff. split.
  - intros (cw & Hin & E). apply String.eqb_eq in E. eauto.
  - intros (cw & E & Hin). exists cw. split; [exact Hin|].
    apply String.eqb_eq, E.
Qed.

Lemma replaceCoworker_ids cws i nm b :
  map id (replaceCoworker cws i nm b) = map id cws.
Proof.
  unfold replaceCoworker. rewrite map_map. apply map_ext.
  intros cw. destruct (String.eqb_spec (id cw) i) as [E|N]; simpl; auto.
Qed.

Lemma replaceCoworker_In cws i nm b cw' :
  In cw' (replaceCoworker cws i nm b)
  <-> (In cw' cws /\ id cw' <> i)
      \/ (cw' = mkCoworker i nm b /\ In i (map id cws)).
Proof.
  unfold replaceCoworker. rewrite in_map_iff. split.
  - intros (cw & E & Hin).
    destruct (String.eqb_spec (id cw) i) as [Ei|N]; subst cw'.
    + right. split; [reflexivity|]. rewrite <- Ei. apply in_map, Hin.
    + left. auto.
  - intros [[Hin N]|[-> Hin]].
    + exists cw'. destruct (String.eqb_spec (id cw') i); [contradiction|auto].
    + apply in_map_iff in Hin. destruct Hin as (cw & E & Hin).
      exists cw. rewrite E, String.eqb_refl. auto.
Qed.

Lemma replaceCoworker_self cws cw :
  In cw cws -> NoDup (map id cws) ->
  replaceCoworker cws (id cw) (name cw) (birthday cw) = cws.
Proof.
  intros Hin Hnd. unfold replaceCoworker.
  rewrite <- (map_id cws) at 2. apply map_ext_in.
  intros c Hc. destruct (String.eqb_spec (id c) (id cw)) as [E|N];
    [|reflexivity].
  assert (c = cw).
  { clear - Hin Hc Hnd E. induction cws as [|x cws IH]; [contradiction|].
    simpl in Hnd. inversion Hnd as [|? ? Hx Hnd']; subst.
    destruct Hin as [->|Hin], Hc as [->|Hc]; auto.
    - exfalso. apply Hx. rewrite <- E. apply in_map, Hc.
    - exfalso. apply Hx. rewrite E. apply in_map, Hin. }
  subst c. destruct cw; reflexivity.
Qed.

(** X12. The form saves nothing when the name is empty, or when the
    coworker is a birthday person and the date is empty. What it saves
    otherwise is the name, which is not empty, and the date, or no date
    when the field is empty: the type chosen plays no other part, and a
    contributor whose date field is filled is saved with that date, as a
    birthday person is. *)
Theorem coworker_form_checks_name_and_date ok newId st nm date
    (f : CoworkerModal.State) :
  (CoworkerModal_handleSubmit f (editingCoworker st) = Alerted
   <-> CoworkerModal.name f = EmptyString
       \/ (CoworkerModal.coworkerType f = BirthdayPerson
           /\ CoworkerModal.birthday f = EmptyString))
  /\ (CoworkerModal_handleSubmit f (editingCoworker st) = Alerted ->
      submitCoworker ok newId st f = st)
  /\ (forall d,
        CoworkerModal_handleSubmit f (editingCoworker st) = Saved d ->
        data_name d = CoworkerModal.name f
        /\ data_name d <> EmptyString
        /\ data_id d = option_map id (editingCoworker st)
        /\ data_birthday d
           = (if isEmpty (CoworkerModal.birthday f) then None
              else Some (CoworkerModal.birthday f))
        /\ (CoworkerModal.coworkerType f = BirthdayPerson ->
            data_birthday d <> None /\ data_birthday d <> Some EmptyString))
  /\ (date <> EmptyString ->
      submitCoworker ok newId st (CoworkerModal.mkState ContributorOnly nm date)
      = submitCoworker ok newId st (CoworkerModal.mkState BirthdayPerson nm date)).
Proof.
  split; [|split; [|split]].
  - unfold CoworkerModal_handleSubmit, isEmpty.
    destruct f as [ty n b]. cbn [CoworkerModal.name CoworkerModal.birthday
      CoworkerModal.coworkerType].
    destruct (String.eqb_spec n EmptyString) as [En|Nn];
      destruct (String.eqb_spec b EmptyString) as [Eb|Nb];
      destruct ty; cbn [negb orb andb];
      (split; [intros H; try discriminate H; auto
              |intros [H|[H1 H2]]; try reflexivity; congruence]).
  - intros H. unfold submitCoworker. rewrite H. reflexivity.
  - intros d. unfold CoworkerModal_handleSubmit, isEmpty.
    destruct f as [ty n b]. cbn [CoworkerModal.name CoworkerModal.birthday
      CoworkerModal.coworkerType].
    destruct (String.eqb_spec n EmptyString) as [En|Nn];
      destruct (String.eqb_spec b EmptyString) as [Eb|Nb];
      destruct ty; cbn [negb orb andb];
      try discriminate; intros [= <-]; simpl;
      repeat split; auto; try discriminate; try congruence.
  - intros N. unfold submitCoworker, CoworkerModal_handleSubmit. simpl.
    apply isEmpty_false in N. rewrite N. reflexivity.
Qed.

(** X13. [handleSaveCoworker] changes nothing for a user who is not
    signed in or is not the organizer, and nothing when the write fails.
    For the organizer, a save without an id adds one coworker at the id
    the store gives and keeps the others; a save with the id of a
    coworker replaces the name and birthday of that coworker, keeps the
    ids and every other coworker; both close the modal. *)
Theorem save_coworker_adds_or_replaces_one ok newId st d b :
  ((user st = false \/ isOrganizer st = false) ->
   handleSaveCoworker ok newId st d = st)
  /\ handleSaveCoworker false newId st d = st
  /\ (user st = true -> isOrganizer st = true ->
      dateOrNull (data_birthday d) = Some b ->
      isCoworkerModalOpen (handleSaveCoworker true newId st d) = false
      /\ editingCoworker (handleSaveCoworker true newId st d) = None
      /\ (data_id d = None ->
          coworkers (handleSaveCoworker true newId st d)
          = coworkers st ++ [mkCoworker newId (data_name d) b])
      /\ (forall i,
            data_id d = Some i -> i <> EmptyString ->
            In i (map id (coworkers st)) ->
            map id (coworkers (handleSaveCoworker true newId st d))
            = map id (coworkers st)
            /\ forall cw,
                 In cw (coworkers (handleSaveCoworker true newId st d))
                 <-> (In cw (coworkers st) /\ id cw <> i)
                     \/ cw = mkCoworker i (data_name d) b)).
Proof.
  split; [|split].
  - unfold handleSaveCoworker. intros [-> | ->]; simpl;
      [reflexivity|rewrite orb_true_r; reflexivity].
  - unfold handleSaveCoworker.
    destruct (negb (user st) || negb (isOrganizer st)); [reflexivity|].
    destruct (dateOrNull (data_birthday d)); reflexivity.
  - intros U O D. unfold handleSaveCoworker. rewrite U, O, D. simpl.
    split; [reflexivity|]. split; [reflexivity|]. split.
    + intros ->. reflexivity.
    + intros i -> Ni Hin. apply isEmpty_false in Ni. rewrite Ni.
      unfold setDoc.
      rewrite (proj2 (existsb_id (coworkers st) i) Hin).
      fold (replaceCoworker (coworkers st) i (data_name d) b).
      split; [apply replaceCoworker_ids|].
      intros cw. rewrite replaceCoworker_In. tauto.
Qed.

(** An organizer's state with two coworkers, for the worked examples:
    Rosa, born 1990-06-15, and Xavier, without a birthday. *)
Definition exampleAdmin : AdminState :=
  mkAdminState true true
    [ mkCoworker "R" "Rosa" (Some 645408000000%Z);
      mkCoworker "X" "Xavier" None ]
    true None false.

Definition exampleEdit : AdminState :=
  mkAdminState true true (coworkers exampleAdmin) true
    (Some (mkCoworker "R" "Rosa" (Some 645408000000%Z))) false.

Lemma dateOrNull_parsed s t :
  parseISODate s = Some t -> dateOrNull (Some s) = Some (Some t).
Proof.
  intros P. unfold dateOrNull.
  destruct (String.eqb_spec s EmptyString) as [->|N].
  - discriminate P.
  - unfold isEmpty. apply String.eqb_neq in N. rewrite N, P. reflexivity.
Qed.

(** X14. A date the organizer's form saves is stored at midnight UTC,
    and the form opened on the saved coworker shows the same name and
    the same date string, with the type set to birthday person. *)
Theorem saved_date_is_shown_again newId st d s t :
  user st = true -> isOrganizer st = true ->
  data_id d = None -> data_birthday d = Some s -> parseISODate s = Some t ->
  coworkers (handleSaveCoworker true newId st d)
  = coworkers st ++ [mkCoworker newId (data_name d) (Some t)]
  /\ TimeWithinDay t = 0%Z
  /\ CoworkerModal_init (Some (mkCoworker newId (data_name d) (Some t)))
     = Some (CoworkerModal.mkState BirthdayPerson (data_name d) s).
Proof.
  intros U O I B P.
  destruct (parse_then_format s t P) as [F T].
  split; [|split; [exact T|]].
  - unfold handleSaveCoworker. rewrite U, O, B, (dateOrNull_parsed s t P), I.
    reflexivity.
  - unfold CoworkerModal_init. simpl. rewrite F. reflexivity.
Qed.

Lemma saved_date_is_shown_again_witness :
  coworkers (handleSaveCoworker true "N" exampleAdmin
               (mkCoworkerData None "Nora" (Some "1988-02-29")))
  = coworkers exampleAdmin ++ [mkCoworker "N" "Nora" (Some 573091200000%Z)]
  /\ TimeWithinDay 573091200000 = 0%Z
  /\ CoworkerModal_init (Some (mkCoworker "N" "Nora" (Some 573091200000%Z)))
     = Some (CoworkerModal.mkState BirthdayPerson "Nora" "1988-02-29").
Proof.
  exact (saved_date_is_shown_again "N" exampleAdmin
           (mkCoworkerData None "Nora" (Some "1988-02-29"))
           "1988-02-29" 573091200000%Z
           eq_refl eq_refl eq_refl eq_refl eq_refl).
Defined.

(** X15. Opening the form on a coworker of the list and saving it as it
    opens replaces the coworker by itself with the birthday cut down to
    midnight UTC of its day: nothing else changes, and the list is the
    same when the birthday was at midnight UTC (as the form stores it) or
    when there is none. *)
Theorem edit_and_save_unchanged newId st cw :
  user st = true -> isOrganizer st = true ->
  editingCoworker st = Some cw -> In cw (coworkers st) ->
  NoDup (map id (coworkers st)) ->
  id cw <> EmptyString -> Birthdays.name cw <> EmptyString ->
  (forall t, birthday cw = Some t -> (0 <= YearFromTime t <= 9999)%Z) ->
  exists f,
    CoworkerModal_init (Some cw) = Some f
    /\ coworkers (submitCoworker true newId st f)
       = replaceCoworker (coworkers st) (id cw) (Birthdays.name cw)
           (option_map utcMidnight (birthday cw))
    /\ ((forall t, birthday cw = Some t -> TimeWithinDay t = 0%Z) ->
        coworkers (submitCoworker true newId st f) = coworkers st).
Proof.
  intros U O E Hin Hnd Ni Nn Hy.
  assert (Ex : existsb (fun c => String.eqb (id c) (id cw)) (coworkers st)
               = true).
  { apply existsb_id, in_map, Hin. }
  apply isEmpty_false in Ni. apply isEmpty_false in Nn.
  destruct (birthday cw) as [t|] eqn:B.
  - destruct (format_then_parse t (Hy t eq_refl)) as (s & F & P).
    exists (CoworkerModal.mkState BirthdayPerson (Birthdays.name cw) s).
    assert (Ns : isEmpty s = false).
    { apply isEmpty_false. intros ->. discriminate P. }
    assert (C : coworkers
                  (submitCoworker true newId st
                     (CoworkerModal.mkState BirthdayPerson
                        (Birthdays.name cw) s))
                = replaceCoworker (coworkers st) (id cw) (Birthdays.name cw)
                    (Some (utcMidnight t))).
    { unfold submitCoworker, CoworkerModal_handleSubmit. rewrite E.
      cbn [CoworkerModal.name CoworkerModal.birthday
           CoworkerModal.coworkerType option_map].
      rewrite Nn, Ns. cbn [orb].
      unfold handleSaveCoworker. rewrite U, O.
      cbn [negb orb data_birthday data_id data_name].
      rewrite (dateOrNull_parsed s _ P), Ni.
      cbn [coworkers]. unfold setDoc. rewrite Ex. reflexivity. }
    split; [|split].
    + unfold CoworkerModal_init. rewrite B, F. reflexivity.
    + exact C.
    + intros T. rewrite C. unfold utcMidnight.
      assert (Et : MakeDate (Day t) 0 = t).
      { rewrite <- (T t eq_refl). apply MakeDate_Day. }
      rewrite Et, <- B.
      apply replaceCoworker_self; assumption.
  - exists (CoworkerModal.mkState ContributorOnly (Birthdays.name cw)
              EmptyString).
    assert (C : coworkers
                  (submitCoworker true newId st
                     (CoworkerModal.mkState ContributorOnly
                        (Birthdays.name cw) EmptyString))
                = replaceCoworker (coworkers st) (id cw) (Birthdays.name cw)
                    None).
    { unfold submitCoworker, CoworkerModal_handleSubmit. rewrite E.
      cbn [CoworkerModal.name CoworkerModal.birthday
           CoworkerModal.coworkerType option_map].
      rewrite Nn. cbn [orb].
      unfold handleSaveCoworker. rewrite U, O.
      cbn [negb orb data_birthday data_id data_name].
      change (isEmpty EmptyString) with true. cbn iota.
      cbn [dateOrNull]. rewrite Ni.
      cbn [coworkers]. unfold setDoc. rewrite Ex. reflexivity. }
    split; [|split].
    + unfold CoworkerModal_init. rewrite B. reflexivity.
    + exact C.
    + intros _. rewrite C. cbn [option_map]. rewrite <- B.
      apply replaceCoworker_self; assumption.
Qed.

Lemma edit_and_save_unchanged_witness :
  NoDup (map id (coworkers exampleEdit))
  /\ exists f,
       CoworkerModal_init (Some (mkCoworker "R" "Rosa" (Some 645408000000%Z)))
       = Some f
       /\ coworkers (submitCoworker true "N" exampleEdit f)
          = replaceCoworker (coworkers exampleEdit) "R" "Rosa"
              (Some (utcMidnight 645408000000))
       /\ ((forall t, Some 645408000000%Z = Some t -> TimeWithinDay t = 0%Z) ->
           coworkers (submitCoworker true "N" exampleEdit f)
           = coworkers exampleEdit).
Proof.
  assert (Hnd : NoDup (map id (coworkers exampleEdit))).
  { simpl. repeat constructor; simpl; intuition discriminate. }
  split; [exact Hnd|].
  refine (edit_and_save_unchanged "N" exampleEdit
            (mkCoworker "R" "Rosa" (Some 645408000000%Z))
            eq_refl eq_refl eq_refl _ Hnd _ _ _).
  - simpl. auto.
  - discriminate.
  - discriminate.
  - intros t [= <-]. vm_compute. split; discriminate.
Defined.

(** ** The typed date and the local day *)

Lemma fields_of_the_day t1 t2 :
  Day t1 = Day t2 ->
  YearFromTime t1 = YearFromTime t2
  /\ MonthFromTime t1 = MonthFromTime t2
  /\ DateFromTime t1 = DateFromTime t2.
Proof.
  intros E.
  assert (Y : YearFromTime t1 = YearFromTime t2).
  { unfold YearFromTime. rewrite E. reflexivity. }
  assert (W : DayWithinYear t1 = DayWithinYear t2).
  { unfold DayWithinYear. rewrite E, Y. reflexivity. }
  assert (L : InLeapYear t1 = InLeapYear t2).
  { unfold InLeapYear. rewrite Y. reflexivity. }
  assert (M : MonthFromTime t1 = MonthFromTime t2).
  { unfold MonthFromTime. rewrite W, L. reflexivity. }
  split; [exact Y|]. split; [exact M|].
  unfold DateFromTime. rewrite W, M, L. reflexivity.
Qed.

Lemma Day_shifted t z :
  TimeWithinDay t = 0%Z ->
  ((0 <= z < msPerDay)%Z -> Day (t + z) = Day t)
  /\ ((- msPerDay <= z < 0)%Z -> Day (t + z) = (Day t - 1)%Z).
Proof.
  unfold TimeWithinDay, Day, msPerDay. intros T.
  split; intros Hz; Z.div_mod_to_equations; lia.
Qed.

(** X16. The date typed in the form is stored as midnight UTC of that
    day. In a zone at or east of UTC the local year, month and date of
    the stored birthday are the typed ones; in a zone west of UTC its
    local day is the day before the typed one. *)
Theorem typed_date_and_local_day tza s t :
  parseISODate s = Some t ->
  toISODate t = Some s
  /\ ((0 <= tza < msPerDay)%Z ->
      getFullYear tza t = YearFromTime t
      /\ localMonth tza t = MonthFromTime t
      /\ localDate tza t = DateFromTime t)
  /\ ((- msPerDay <= tza < 0)%Z -> localDay tza t = (Day t - 1)%Z).
Proof.
  intros P. destruct (parse_then_format s t P) as [F T].
  destruct (Day_shifted t tza T) as [East West].
  split; [exact F|]. split.
  - intros Hz. unfold getFullYear, localMonth, localDate, LocalTime.
    apply fields_of_the_day, East, Hz.
  - intros Hz. unfold localDay, LocalTime. apply West, Hz.
Qed.

Lemma typed_date_and_local_day_witness :
  toISODate 645408000000 = Some "1990-06-15"
  /\ ((0 <= manila < msPerDay)%Z ->
      getFullYear manila 645408000000 = YearFromTime 645408000000
      /\ localMonth manila 645408000000 = MonthFromTime 645408000000
      /\ localDate manila 645408000000 = DateFromTime 645408000000)
  /\ ((- msPerDay <= manila < 0)%Z ->
      localDay manila 645408000000 = (Day 645408000000 - 1)%Z).
Proof.
  exact (typed_date_and_local_day manila "1990-06-15" 645408000000%Z eq_refl).
Defined.

(** ** The self-service contributor *)

Lemma filterBoolean_app {A : Type} (xs ys : list (option A)) :
  filterBoolean (xs ++ ys) = filterBoolean xs ++ filterBoolean ys.
Proof.
  induction xs as [|[x|] xs IH]; simpl; [reflexivity| |exact IH].
  rewrite IH. reflexivity.
Qed.

Lemma upcomingBirthdays_without_birthday tza now cws i nm :
  upcomingBirthdays tza now (cws ++ [mkCoworker i nm None])
  = upcomingBirthdays tza now cws.
Proof.
  unfold upcomingBirthdays.
  rewrite map_app, filterBoolean_app. simpl. rewrite app_nil_r.
  reflexivity.
Qed.

(** X17. The name a signed-in user enters is trimmed; when nothing is
    left the modal closes and nothing is written. Otherwise one coworker
    without a birthday is added under the trimmed name, for any signed-in
    user, organizer or not, and the modal closes; a failed write or a
    signed-out user leaves the state as it is. In every case the list of
    upcoming birthdays is the one before. *)
Theorem contributor_name_adds_no_birthday trim tza now ok newId st nm :
  (trim nm = EmptyString ->
   AddContributorModal_handleSave trim ok newId st nm
   = mkAdminState (user st) (isOrganizer st) (coworkers st)
       (isCoworkerModalOpen st) (editingCoworker st) false)
  /\ (trim nm <> EmptyString ->
      (user st = true ->
       AddContributorModal_handleSave trim true newId st nm
       = mkAdminState true (isOrganizer st)
           (coworkers st ++ [mkCoworker newId (trim nm) None])
           (isCoworkerModalOpen st) (editingCoworker st) false)
      /\ (user st = false ->
          AddContributorModal_handleSave trim ok newId st nm = st)
      /\ AddContributorModal_handleSave trim false newId st nm = st)
  /\ upcomingBirthdays tza now
       (coworkers (AddContributorModal_handleSave trim ok newId st nm))
     = upcomingBirthdays tza now (coworkers st).
Proof.
  unfold AddContributorModal_handleSave, handleSaveContributorName.
  split; [|split].
  - intros E. apply isEmpty_true in E. rewrite E. reflexivity.
  - intros N. apply isEmpty_false in N. rewrite N. cbn [negb].
    split; [|split].
    + intros ->. reflexivity.
    + intros ->. reflexivity.
    + destruct (user st); reflexivity.
  - destruct (isEmpty (trim nm)); cbn [negb]; [reflexivity|].
    destruct (user st), ok; cbn [negb orb coworkers]; try reflexivity.
    unfold addDoc. apply upcomingBirthdays_without_birthday.
Qed.

End CoworkerForms.

(* ================================================================== *)
(** * The organizer claim: [checkOrganizer] (104-121) *)

Module Organizer.
Local Open Scope string_scope.
Local Open Scope list_scope.

(** The document [meta/admin]. *)
Record AdminDoc := mkAdminDoc { organizerUid : string }.

(** What [checkOrganizer] reads and sets of a client: the uid of the
    signed-in user and the [isOrganizer] and [loading] states. *)
Record Client := mkClient {
  uid : string;
  isOrganizer : bool;
  loading : bool
}.

(** The states of [App] right after sign-in. *)
Definition signedIn (u : string) : Client := mkClient u false true.

(** [await getDoc(adminRef)]: the read fails, or gives the document, if
    there is one. *)
Inductive Read : Type :=
| ReadFailed
| Snap (docSnap : option AdminDoc).

Definition getDoc (ok : bool) (store : option AdminDoc) : Read :=
  if ok then Snap store else ReadFailed.

(** The rest of [checkOrganizer] once the read has settled; [store] is
    the document at that time and [writeOk] whether [setDoc] succeeds.
    [setIsOrganizer] is only ever called with [true]. *)
Definition afterRead (writeOk : bool) (c : Client) (r : Read)
    (store : option AdminDoc) : option AdminDoc * Client :=
  match r with
  | ReadFailed => (store, mkClient (uid c) (isOrganizer c) false)
  | Snap (Some d) =>
      (store,
       mkClient (uid c)
         (if String.eqb (organizerUid d) (uid c) then true else isOrganizer c)
         false)
  | Snap None =>
      if writeOk
      then (Some (mkAdminDoc (uid c)), mkClient (uid c) true false)
      else (store, mkClient (uid c) (isOrganizer c) false)
  end.

(** [checkOrganizer] with nothing between its read and its write. *)
Definition checkOrganizer (readOk writeOk : bool) (c : Client)
    (store : option AdminDoc) : option AdminDoc * Client :=
  afterRead writeOk c (getDoc readOk store) store.

(** Users who open the app one after the other. *)
Record Visit := mkVisit {
  visitor : string;
  readOk : bool;
  writeOk : bool
}.

Fixpoint visits (vs : list Visit) (store : option AdminDoc)
  : option AdminDoc * list Client :=
  match vs with
  | [] => (store, [])
  | v :: vs' =>
      let r := checkOrganizer (readOk v) (writeOk v) (signedIn (visitor v))
                 store in
      let rs := visits vs' (fst r) in
      (fst rs, snd r :: snd rs)
  end.

Lemma checkOrganizer_keeps_claim ro wo c d :
  fst (checkOrganizer ro wo c (Some d)) = Some d.
Proof. unfold checkOrganizer, getDoc. destruct ro; simpl; reflexivity. Qed.

Lemma visits_keep_claim vs d : fst (visits vs (Some d)) = Some d.
Proof.
  induction vs as [|v vs IH]; simpl; [reflexivity|].
  rewrite checkOrganizer_keeps_claim. exact IH.
Qed.

Lemma checkOrganizer_fresh ro wo u store :
  isOrganizer (snd (checkOrganizer ro wo (signedIn u) store)) = true ->
  fst (checkOrganizer ro wo (signedIn u) store) = Some (mkAdminDoc u).
Proof.
  unfold checkOrganizer, getDoc.
  destruct ro; simpl; [|discriminate].
  destruct store as [[o]|]; simpl.
  - destruct (String.eqb_spec o u) as [->|N]; [reflexivity|discriminate].
  - destruct wo; simpl; [reflexivity|discriminate].
Qed.

Lemma checkOrganizer_done ro wo c store :
  loading (snd (checkOrganizer ro wo c store)) = false
  /\ uid (snd (checkOrganizer ro wo c store)) = uid c.
Proof.
  unfold checkOrganizer, getDoc.
  destruct ro; simpl; [|auto].
  destruct store as [d|]; simpl; [auto|]. destruct wo; simpl; auto.
Qed.

(** X18. When users open the app one after the other, a claim that is
    stored is never overwritten; every check ends with [loading] off,
    also the ones whose read or write fails; and every user who is made
    organizer has the uid the stored claim names, so two organizers are
    the same user. A failed read or write makes nobody organizer. *)
Theorem organizer_is_the_stored_claim vs store :
  (forall d, store = Some d -> fst (visits vs store) = Some d)
  /\ Forall (fun c => loading c = false) (snd (visits vs store))
  /\ map uid (snd (visits vs store)) = map visitor vs
  /\ Forall (fun c => isOrganizer c = true ->
                      fst (visits vs store) = Some (mkAdminDoc (uid c)))
            (snd (visits vs store))
  /\ (forallb (fun v => negb (readOk v)) vs = true ->
      fst (visits vs store) = store
      /\ Forall (fun c => isOrganizer c = false) (snd (visits vs store)))
  /\ (store = None -> forallb (fun v => negb (writeOk v)) vs = true ->
      fst (visits vs store) = None
      /\ Forall (fun c => isOrganizer c = false) (snd (visits vs store))).
Proof.
  split; [intros d ->; apply visits_keep_claim|].
  revert store. induction vs as [|v vs IH]; intros store.
  - simpl. repeat split; auto.
  - destruct (IH (fst (checkOrganizer (readOk v) (writeOk v)
                         (signedIn (visitor v)) store)))
      as (L & U & Org & RF & WF).
    destruct (checkOrganizer_done (readOk v) (writeOk v)
                (signedIn (visitor v)) store) as [Ld Ud].
    cbn [visits fst snd map forallb].
    split; [constructor; assumption|].
    split; [rewrite Ud, U; reflexivity|].
    split; [|split].
    + constructor; [|exact Org].
      intros O. rewrite Ud. apply checkOrganizer_fresh in O.
      rewrite O. apply visits_keep_claim.
    + intros F. apply andb_true_iff in F. destruct F as [Fv F].
      apply negb_true_iff in Fv.
      assert (E : checkOrganizer (readOk v) (writeOk v)
                    (signedIn (visitor v)) store
                  = (store, mkClient (visitor v) false false)).
      { unfold checkOrganizer, getDoc. rewrite Fv. reflexivity. }
      rewrite E in *. cbn [fst snd] in *.
      destruct (RF F) as [S Fo]. split; [exact S|].
      constructor; [reflexivity|exact Fo].
    + intros -> F. apply andb_true_iff in F. destruct F as [Fv F].
      apply negb_true_iff in Fv.
      assert (E : checkOrganizer (readOk v) (writeOk v)
                    (signedIn (visitor v)) None
                  = (None, mkClient (visitor v) false false)).
      { unfold checkOrganizer, getDoc. rewrite Fv.
        destruct (readOk v); reflexivity. }
      rewrite E in *. cbn [fst snd] in *.
      destruct (WF eq_refl F) as [S Fo]. split; [exact S|].
      constructor; [reflexivity|exact Fo].
Qed.

(** X19. The read and the write of [checkOrganizer] are two requests.
    When two users both read before either writes, with no claim stored,
    both are made organizer and the claim names the one who wrote last;
    the other one, when different, is no organizer any more the next
    time the app is opened. *)
Theorem two_first_users_both_become_organizer u1 u2 :
  let r1 := getDoc true None in
  let r2 := getDoc true None in
  let s1 := afterRead true (signedIn u1) r1 None in
  let s2 := afterRead true (signedIn u2) r2 (fst s1) in
  isOrganizer (snd s1) = true
  /\ isOrganizer (snd s2) = true
  /\ fst s2 = Some (mkAdminDoc u2)
  /\ isOrganizer (snd (checkOrganizer true true (signedIn u1) (fst s2)))
     = String.eqb u2 u1.
Proof.
  cbv zeta. unfold checkOrganizer, getDoc. simpl.
  repeat split. destruct (String.eqb u2 u1); reflexivity.
Qed.

End Organizer.

(* ================================================================== *)
(** * Payment info (153-160, 250-259, 422-429, 658-664) *)

Module PaymentInfo.
Local Open Scope string_scope.

Record Info := mkInfo { method : string; details : string }.

(** The part of the state of [App] the payment handlers use; [store] is
    the document [paymentInfo/details]. *)
Record State := mkState {
  user : bool;
  isOrganizer : bool;
  store : option Info;
  isPaymentInfoModalOpen : bool
}.

(** The snapshot listener (153-160): the state [paymentInfo]. *)
Definition paymentInfo (st : State) : Info :=
  match store st with
  | Some d => d
  | None => mkInfo EmptyString EmptyString
  end.

(** [handleSavePaymentInfo] (250-259). *)
Definition handleSavePaymentInfo (ok : bool) (st : State)
    (newPaymentInfo : Info) : State :=
  if negb (user st) || negb (isOrganizer st) then st
  else if ok
       then mkState (user st) (isOrganizer st) (Some newPaymentInfo) false
       else st.

(** The initial fields of [PaymentInfoModal] (659-660); [x || ''] of a
    string is the string. *)
Definition PaymentInfoModal_init (initialInfo : Info) : Info :=
  mkInfo (method initialInfo) (details initialInfo).

(** [handleSave] of the modal, with the [onSave] prop of [App]. *)
Definition PaymentInfoModal_handleSave (ok : bool) (st : State)
    (fields : Info) : State :=
  handleSavePaymentInfo ok st (mkInfo (method fields) (details fields)).

(** What the payment section and the cards show (422-429, 493-501):
    the method and the details, or nothing. *)
Definition shown (st : State) : option (string * string) :=
  if String.eqb (details (paymentInfo st)) EmptyString then None
  else Some (method (paymentInfo st), details (paymentInfo st)).

(** X20. Only the signed-in organizer changes the payment info, and a
    failed write changes nothing and leaves the modal open. After a
    save the info is shown exactly when the details are not empty,
    whatever the method is: a method saved without details is not
    shown. Saving the modal as it opens leaves what is shown as it was. *)
Theorem payment_info_shown_iff_details ok st fields :
  ((user st = false \/ isOrganizer st = false) ->
   PaymentInfoModal_handleSave ok st fields = st)
  /\ PaymentInfoModal_handleSave false st fields = st
  /\ (user st = true -> isOrganizer st = true ->
      paymentInfo (PaymentInfoModal_handleSave true st fields) = fields
      /\ isPaymentInfoModalOpen (PaymentInfoModal_handleSave true st fields)
         = false
      /\ (details fields = EmptyString <->
          shown (PaymentInfoModal_handleSave true st fields) = None)
      /\ (details fields <> EmptyString ->
          shown (PaymentInfoModal_handleSave true st fields)
          = Some (method fields, details fields)))
  /\ shown (PaymentInfoModal_handleSave ok st
              (PaymentInfoModal_init (paymentInfo st)))
     = shown st.
Proof.
  unfold PaymentInfoModal_handleSave, handleSavePaymentInfo.
  split; [|split; [|split]].
  - intros [-> | ->]; simpl; [reflexivity|].
    rewrite orb_true_r. reflexivity.
  - destruct (negb (user st) || negb (isOrganizer st)); reflexivity.
  - intros -> ->. destruct fields as [m d]. unfold shown, paymentInfo. simpl.
    split; [reflexivity|]. split; [reflexivity|].
    destruct (String.eqb_spec d EmptyString) as [E|N].
    + split; [tauto|]. intros; contradiction.
    + split; [|reflexivity]. split; [contradiction|discriminate].
  - destruct (negb (user st) || negb (isOrganizer st)); [reflexivity|].
    destruct ok; [|reflexivity].
    unfold shown, paymentInfo, PaymentInfoModal_init. simpl.
    destruct (store st); reflexivity.
Qed.

End PaymentInfo.
